(** * Ifthar management server: document store, backups, update feed

    A shallow embedding of the two server variants of the repository:

    - [Fs]    : [src/server.js] (its first 247 lines), the variant that keeps
                everything in files under [data/] (settings.json,
                appdata.json, updates.json, backups/, uploads/);
    - [Mongo] : [src/unnamed/part_000], the variant that keeps the documents
                and the backups in MongoDB collections and the photos in
                GridFS, next to the local uploads directory.

    ([src/server.js] goes on with an older copy of the file variant that has
    no backups; its routes are those of [Fs] without the [createBackup]
    call.  [src/unnamed/part_001] is the service worker.)

    A route handler is a computation in a small state-and-exception monad.
    Its storage calls are primitives: each is logged, and an oracle says
    which call throws, so a [try]/[catch] of the source is a [try_catch]
    here and a call outside any [try] fails the handler.  What a request
    reads from the clock and from [Math.random] is an argument. *)

From Stdlib Require Import ZArith String Ascii List Lia Bool.
From stdpp Require Import base tactics option list gmap strings sorting.

Open Scope string_scope.
Open Scope list_scope.
Open Scope Z_scope.

#[local] Set Warnings "-register-all".

(** ** JavaScript values *)

(** JSON values, as [JSON.parse] yields them.  Numbers are integers here:
    no claim depends on fractions. *)
Inductive json : Type :=
  | JNull
  | JBool (b : bool)
  | JNum (n : Z)
  | JStr (s : string)
  | JArr (items : list json)
  | JObj (fields : list (string * json)).

(** [!!v]: what [if (v)], [!v] and [v || d] test. *)
Definition truthy (v : json) : bool :=
  match v with
  | JNull => false
  | JBool b => b
  | JNum n => negb (n =? 0)
  | JStr s => negb (String.eqb s "")
  | JArr _ => true
  | JObj _ => true
  end.

Fixpoint assoc {A : Type} (k : string) (kvs : list (string * A)) : option A :=
  match kvs with
  | [] => None
  | (k', v) :: rest => if String.eqb k k' then Some v else assoc k rest
  end.

(** [v.k] for a value [v] read from JSON: [None] is the TypeError of
    [null.k]; a missing property is [undefined], which only ever meets a
    truthiness test here and is rendered as [JNull]. *)
Definition js_prop (k : string) (v : json) : option json :=
  match v with
  | JNull => None
  | JObj fields => Some (default JNull (assoc k fields))
  | _ => Some JNull
  end.

(** ** Strings *)

(** [s.startsWith(p)], [s.endsWith(p)] *)
Definition startsWith (s p : string) : bool := String.prefix p s.

Definition endsWith (s p : string) : bool :=
  (String.length p <=? String.length s)%nat
  && String.eqb (substring (String.length s - String.length p) (String.length p) s) p.

(** [s.slice(i, j)] for [0 <= i <= j] *)
Definition slice (i j : nat) (s : string) : string := substring i (j - i) s.

(** [s.replace(/[:.]/g, '-')] *)
Fixpoint replace_colon_dot (s : string) : string :=
  match s with
  | EmptyString => EmptyString
  | String c rest =>
      String (if Ascii.eqb c ":" then "-" else if Ascii.eqb c "." then "-" else c)%char
             (replace_colon_dot rest)
  end.

(** [s.replace(p, '')] with a string pattern: the first occurrence only. *)
Fixpoint remove_first (p s : string) : string :=
  if String.prefix p s then substring (String.length p) (String.length s) s
  else match s with
       | EmptyString => EmptyString
       | String c rest => String c (remove_first p rest)
       end.

(** [s.split('/')] *)
Fixpoint split_slash (s : string) : list string :=
  match s with
  | EmptyString => [EmptyString]
  | String c rest =>
      if Ascii.eqb c "/"%char then EmptyString :: split_slash rest
      else match split_slash rest with
           | [] => [String c EmptyString]
           | seg :: segs => String c seg :: segs
           end
  end.

(** A name that is one path component: no [/], and not empty, [.] or [..]. *)
Fixpoint has_slash (s : string) : bool :=
  match s with
  | EmptyString => false
  | String c rest => Ascii.eqb c "/"%char || has_slash rest
  end.

Definition plain_name (f : string) : bool :=
  negb (has_slash f)
  && negb (String.eqb f "") && negb (String.eqb f ".") && negb (String.eqb f "..").

(** ** Numbers and dates *)

Definition digit_char (d : Z) : ascii :=
  ascii_of_nat (Z.to_nat (if d <? 10 then 48 + d else 87 + d)).

(** [w] digits of [n] in base 10, zero padded (the fields of an ISO date). *)
Fixpoint pad (w : nat) (n : Z) : string :=
  match w with
  | O => EmptyString
  | S w' => pad w' (n / 10) +:+ String (digit_char (n mod 10)) EmptyString
  end.

Fixpoint base36_digits (fuel : nat) (n : Z) (acc : string) : string :=
  match fuel with
  | O => acc
  | S fuel' =>
      let acc' := String (digit_char (n mod 36)) acc in
      if n <? 36 then acc' else base36_digits fuel' (n / 36) acc'
  end.

(** [n.toString(36)] for an integer [n] *)
Definition toString36 (n : Z) : string :=
  if n <? 0 then "-" +:+ base36_digits (S (Z.to_nat (Z.log2 (- n)))) (- n) ""
  else base36_digits (S (Z.to_nat (Z.log2 n))) n "".

(** The civil date of a day count since 1970-01-01 (proleptic Gregorian). *)
Definition civil_of_days (days : Z) : Z * Z * Z :=
  let z := days + 719468 in
  let era := z / 146097 in
  let doe := z - era * 146097 in
  let yoe := (doe - doe / 1460 + doe / 36524 - doe / 146096) / 365 in
  let doy := doe - (365 * yoe + yoe / 4 - yoe / 100) in
  let mp := (5 * doy + 2) / 153 in
  let d := doy - (153 * mp + 2) / 5 + 1 in
  let m := if mp <? 10 then mp + 3 else mp - 9 in
  let y := yoe + era * 400 + (if m <=? 2 then 1 else 0) in
  (y, m, d).

(** [new Date(ms).toISOString()]; [ms] is the time value, milliseconds since
    the epoch.  Years outside 0..9999 get the sign and six digits. *)
Definition toISOString (ms : Z) : string :=
  let '(y, m, d) := civil_of_days (ms / 86400000) in
  let t := ms mod 86400000 in
  (if (0 <=? y) && (y <=? 9999) then pad 4 y
   else (if y <? 0 then "-" else "+") +:+ pad 6 (Z.abs y))
  +:+ "-" +:+ pad 2 m +:+ "-" +:+ pad 2 d
  +:+ "T" +:+ pad 2 (t / 3600000) +:+ ":" +:+ pad 2 (t / 60000 mod 60)
  +:+ ":" +:+ pad 2 (t / 1000 mod 60) +:+ "." +:+ pad 3 (t mod 1000) +:+ "Z".

(** [const ts = now.toISOString().replace(/[:.]/g, '-');
     const filename = `backup-${ts}.json`;] *)
Definition backup_filename (now : Z) : string :=
  "backup-" +:+ replace_colon_dot (toISOString now) +:+ ".json".

(** The test both variants apply to a backup file name. *)
Definition is_backup_name (f : string) : bool :=
  startsWith f "backup-" && endsWith f ".json".

(** [parseInt(s)] without a radix; [None] is NaN. *)
Definition is_space (c : ascii) : bool :=
  let n := Z.of_nat (nat_of_ascii c) in (n =? 32) || ((9 <=? n) && (n <=? 13)).

Fixpoint skip_spaces (s : string) : string :=
  match s with
  | String c rest => if is_space c then skip_spaces rest else s
  | EmptyString => s
  end.

Definition digit_val (radix : Z) (c : ascii) : option Z :=
  let n := Z.of_nat (nat_of_ascii c) in
  let v := if (48 <=? n) && (n <=? 57) then n - 48
           else if (97 <=? n) && (n <=? 122) then n - 87
           else if (65 <=? n) && (n <=? 90) then n - 55
           else radix in
  if v <? radix then Some v else None.

Fixpoint parse_digits (radix : Z) (s : string) (acc : option Z) : option Z :=
  match s with
  | EmptyString => acc
  | String c rest =>
      match digit_val radix c with
      | Some v => parse_digits radix rest (Some (default 0 acc * radix + v))
      | None => acc
      end
  end.

Definition parseInt (s : string) : option Z :=
  let s := skip_spaces s in
  let '(sign, s) :=
    match s with
    | String "-" r => (-1, r)
    | String "+" r => (1, r)
    | _ => (1, s)
    end in
  let '(radix, s) :=
    match s with
    | String "0" (String "x" r) | String "0" (String "X" r) => (16, r)
    | _ => (10, s)
    end in
  Z.mul sign <$> parse_digits radix s None.

(** ** Update records and the request that creates one *)

Record update : Type := Update {
  u_id : string;
  u_staff : string;
  u_message : string;
  u_type : string;
  u_day : Z;
  u_photo : option string;
  u_timestamp : string
}.

(** [req.body] of a multipart form: text fields, name to value.  A field
    that was not sent is [undefined]. *)
Definition form := list (string * string).

(** [req.body.k || d] *)
Definition field_or (k : string) (d : string) (body : form) : string :=
  match assoc k body with
  | Some v => if String.eqb v "" then d else v
  | None => d
  end.

(** The field [k] was not sent, or was sent empty. *)
Definition blank (k : string) (body : form) : Prop :=
  assoc k body = None \/ assoc k body = Some "".

(** [parseInt(req.body.day) || 0] *)
Definition day_of (body : form) : Z :=
  default 0 (parseInt (default "undefined" (assoc "day" body))).

(** What one request reads from the clock and from [Math.random]:
    [Date.now()], [Math.random().toString(36)] and [new Date()]. *)
Record env : Type := Env { now_ms : Z; random36 : string; date_ms : Z }.

(** [Date.now().toString(36) + Math.random().toString(36).slice(2, 8)] *)
Definition new_id (e : env) : string :=
  toString36 (now_ms e) +:+ slice 2 8 (random36 e).

(** The object literal of [POST /api/updates]; [photo] is filled in by the
    caller. *)
Definition new_update (e : env) (body : form) (photo : option string) : update :=
  {| u_id := new_id e;
     u_staff := field_or "staff" "Anonymous" body;
     u_message := field_or "message" "" body;
     u_type := field_or "type" "general" body;
     u_day := day_of body;
     u_photo := photo;
     u_timestamp := toISOString (date_ms e) |}.

(** [if (update.photo)] *)
Definition photo_ref (u : update) : option string :=
  match u_photo u with
  | Some p => if String.eqb p "" then None else Some p
  | None => None
  end.

(** [updates.find(u => u.id === x)] *)
Definition find_update (x : string) (us : list update) : option update :=
  List.find (fun u => bool_decide (u_id u = x)) us.

(** [updates.filter(u => u.id !== x)] *)
Definition remove_update (x : string) (us : list update) : list update :=
  filter (fun u => u_id u ≠ x) us.

Definition MAX_BACKUPS : nat := 20.

(** ** Storage calls, exceptions and [try]/[catch] *)

Section Effects.
Context {Op St : Type}.

Inductive error : Type :=
  | Failed (o : Op)              (* the storage call [o] threw *)
  | TypeError (what : string).

Inductive outcome (A : Type) : Type :=
  | Ret (a : A)
  | Throw (e : error).
Global Arguments Ret {A} a.
Global Arguments Throw {A} e.

(** The calls made so far, newest first, and the stored data. *)
Record world : Type := World { calls : list Op; data : St }.

(** [orc n o]: the call [o], made as call number [n], throws. *)
Definition oracle : Type := nat -> Op -> bool.

Definition M (A : Type) : Type := oracle -> world -> outcome A * world.

Definition ret {A} (a : A) : M A := fun _ w => (Ret a, w).

Definition throw {A} (e : error) : M A := fun _ w => (Throw e, w).

Definition bind {A B} (m : M A) (k : A -> M B) : M B :=
  fun orc w =>
    match m orc w with
    | (Ret a, w') => k a orc w'
    | (Throw e, w') => (Throw e, w')
    end.

(** [try { m } catch (e) { h e }] *)
Definition try_catch {A} (m : M A) (h : error -> M A) : M A :=
  fun orc w =>
    match m orc w with
    | (Ret a, w') => (Ret a, w')
    | (Throw e, w') => h e orc w'
    end.

(** A storage call that may throw: when the oracle says so, or when the
    call cannot be served ([f] yields [None]: a missing file, text that is
    not JSON).  A call that throws has changed nothing. *)
Definition attempt {A} (o : Op) (f : St -> option (A * St)) : M A :=
  fun orc w =>
    if orc (length (calls w)) o
    then (Throw (Failed o), World (o :: calls w) (data w))
    else match f (data w) with
         | Some (a, s) => (Ret a, World (o :: calls w) s)
         | None => (Throw (Failed o), World (o :: calls w) (data w))
         end.

Definition call {A} (o : Op) (f : St -> A * St) : M A :=
  attempt o (fun s => Some (f s)).

(** A call that never throws ([fs.existsSync], [console.error]). *)
Definition probe {A} (o : Op) (f : St -> A) : M A :=
  fun _ w => (Ret (f (data w)), World (o :: calls w) (data w)).

(** [for (const x of l) { f x }] *)
Fixpoint for_each {A} (l : list A) (f : A -> M unit) : M unit :=
  match l with
  | [] => ret tt
  | x :: rest => bind (f x) (fun _ => for_each rest f)
  end.

(** No storage call throws. *)
Definition no_faults : oracle := fun _ _ => false.

(** What a route handler sends. *)
Inductive response (A : Type) : Type :=
  | Ok (body : A)                  (* res.json(body) *)
  | BadRequest (msg : string)      (* res.status(400).json({error}) *)
  | NotFound (msg : string)        (* res.status(404).json({error}) *)
  | ServerError (e : error).       (* res.status(500).json({error: e.message}) *)
Global Arguments Ok {A} body.
Global Arguments BadRequest {A} msg.
Global Arguments NotFound {A} msg.
Global Arguments ServerError {A} e.
End Effects.

Arguments error : clear implicits.
Arguments world : clear implicits.
Arguments oracle : clear implicits.
Arguments M : clear implicits.
Arguments response : clear implicits.

Declare Scope eff_scope.
Delimit Scope eff_scope with eff.
Notation "x <- m ;; k" := (bind m (fun x => k))
  (at level 100, m at next level, right associativity) : eff_scope.
Notation "m ;; k" := (bind m (fun _ => k))
  (at level 100, right associativity) : eff_scope.

(** ** The MongoDB variant ([src/unnamed/part_000]) *)

Module Mongo.

(** A document of the [backups] collection. *)
Record backup : Type := Backup {
  b_id : nat;                (* _id *)
  b_filename : string;
  b_settings : json;
  b_appdata : json;
  b_created : Z              (* a Date, as its time value *)
}.

(** A file of the GridFS bucket [photos]. *)
Record gridfile : Type := GridFile {
  g_id : nat;
  g_filename : string;
  g_bytes : string
}.

(** The database and the local uploads directory.  The [store] collection
    holds one document per [_key]: [store] has the [data] of the opaque
    documents (settings, appdata), [feed] the [data] of the document
    [updates], the array of update records.  [updatedAt] is written and
    never read; it is left out.  Collections are in natural order. *)
Record state : Type := State {
  store : gmap string json;
  feed : option (list update);
  backups : list backup;
  photos : list gridfile;
  uploads : gmap string string      (* UPLOADS_DIR: file name to bytes *)
}.

Definition set_store (f : gmap string json -> gmap string json) (s : state) : state :=
  State (f (store s)) (feed s) (backups s) (photos s) (uploads s).
Definition set_feed (us : list update) (s : state) : state :=
  State (store s) (Some us) (backups s) (photos s) (uploads s).
Definition set_backups (f : list backup -> list backup) (s : state) : state :=
  State (store s) (feed s) (f (backups s)) (photos s) (uploads s).
Definition set_photos (f : list gridfile -> list gridfile) (s : state) : state :=
  State (store s) (feed s) (backups s) (f (photos s)) (uploads s).
Definition set_uploads (f : gmap string string -> gmap string string) (s : state) : state :=
  State (store s) (feed s) (backups s) (photos s) (f (uploads s)).

(** The calls to the driver, to [fs] and to the console. *)
Inductive op : Type :=
  | StoreFindOne (key : string)
  | StoreUpdateOne (key : string)
  | BackupsInsertOne (filename : string)
  | BackupsCount
  | BackupsFindOldest (limit : nat)
  | BackupsDeleteMany (ids : list nat)
  | BackupsFindNewestFirst
  | BackupsFindOne (filename : string)
  | GridUpload (filename : string)
  | GridFind (filename : string)
  | GridDelete (id : nat)
  | FsExists (filename : string)
  | FsUnlink (filename : string)
  | ConsoleError (what : string).

Abbreviation M := (M op state).
Abbreviation oracle := (oracle op).
Abbreviation world := (world op state).
Abbreviation error := (error op).
Abbreviation response := (response op).

Open Scope eff_scope.

(** An [_id] no document of the collection has. *)
Definition fresh_id (ids : list nat) : nat := S (foldr Nat.max 0%nat ids).

(** *** MongoDB helpers *)

(** [getDoc(key)] for the keys settings and appdata. *)
Definition getDoc (key : string) : M json :=
  try_catch
    (call (StoreFindOne key) (fun s => (default JNull (store s !! key), s)))
    (fun e => probe (ConsoleError "DB read error") (fun _ => JNull)).

(** [getDoc('updates')] *)
Definition getUpdates : M (option (list update)) :=
  try_catch
    (call (StoreFindOne "updates") (fun s => (feed s, s)))
    (fun e => probe (ConsoleError "DB read error") (fun _ => None)).

(** [setDoc(key, data)] for the keys settings and appdata. *)
Definition setDoc (key : string) (v : json) : M unit :=
  call (StoreUpdateOne key) (fun s => (tt, set_store (insert key v) s)).

(** [setDoc('updates', updates)] *)
Definition setUpdates (us : list update) : M unit :=
  call (StoreUpdateOne "updates") (fun s => (tt, set_feed us s)).

(** *** Backup *)

(** [sort({ created: 1 })] and [sort({ created: -1 })] *)
Definition older (a b : backup) : Prop := b_created a <= b_created b.
Definition newer (a b : backup) : Prop := b_created b <= b_created a.

#[global] Instance older_dec a b : Decision (older a b) := Z_le_dec _ _.
#[global] Instance newer_dec a b : Decision (newer a b) := Z_le_dec _ _.

Definition insert_backup (now : Z) (settingsData appData : json) (s : state) : state :=
  set_backups
    (fun bs => bs ++ [Backup (fresh_id (b_id <$> bs)) (backup_filename now)
                             settingsData appData now])
    s.

Definition oldest (n : nat) (bs : list backup) : list backup :=
  take n (merge_sort older bs).

(** [deleteMany({ _id: { $in: ids } })] *)
Definition delete_ids (ids : list nat) (bs : list backup) : list backup :=
  filter (fun b => b_id b ∉ ids) bs.

Definition createBackup_body (now : Z) : M unit :=
  settingsData <- getDoc "settings";;
  appData <- getDoc "appdata";;
  if negb (truthy settingsData) && negb (truthy appData) then ret tt
  else
    call (BackupsInsertOne (backup_filename now))
         (fun s => (tt, insert_backup now settingsData appData s));;
    count <- call BackupsCount (fun s => (length (backups s), s));;
    if (MAX_BACKUPS <? count)%nat then
      old <- call (BackupsFindOldest (count - MAX_BACKUPS))
                  (fun s => (oldest (count - MAX_BACKUPS) (backups s), s));;
      let ids := b_id <$> old in
      call (BackupsDeleteMany ids) (fun s => (tt, set_backups (delete_ids ids) s))
    else ret tt.

(** [createBackup()]; [now] is what [new Date()] reads. *)
Definition createBackup (now : Z) : M unit :=
  try_catch (createBackup_body now)
            (fun e => probe (ConsoleError "Backup error") (fun _ => tt)).

(** *** Photo storage (GridFS) *)

(** [uploadToGridFS(req.file.path, req.file.filename)]: the bytes multer
    wrote to the uploads directory go to a new GridFS file. *)
Definition uploadToGridFS (filename : string) : M unit :=
  call (GridUpload filename)
       (fun s => (tt, set_photos
                        (fun ps => ps ++ [GridFile (fresh_id (g_id <$> ps)) filename
                                                   (default "" (uploads s !! filename))])
                        s)).

(** [bucket.find({ filename }).toArray()] *)
Definition grid_find (filename : string) : M (list gridfile) :=
  call (GridFind filename) (fun s => (filter (fun g => g_filename g = filename) (photos s), s)).

(** [bucket.delete(id)] *)
Definition grid_delete (id : nat) : M unit :=
  call (GridDelete id) (fun s => (tt, set_photos (filter (fun g => g_id g ≠ id)) s)).

(** [for (const file of files) { await bucket.delete(file._id); }] *)
Definition delete_files (files : list gridfile) : M unit :=
  for_each files (fun file => grid_delete (g_id file)).

Definition deleteFromGridFS (filename : string) : M unit :=
  files <- grid_find filename;;
  delete_files files.

(** *** Routes *)

(** [GET /uploads/:filename]: the local file first, then GridFS (the last
    file of that name is the revision [openDownloadStreamByName] opens). *)
Definition get_upload (filename : string) : M (response string) :=
  try_catch
    (loc <- probe (FsExists filename) (fun s => uploads s !! filename);;
     match loc with
     | Some bytes => ret (Ok bytes)
     | None =>
         files <- grid_find filename;;
         match last files with
         | None => ret (NotFound "File not found")
         | Some g => ret (Ok (g_bytes g))
         end
     end)
    (fun e => ret (ServerError e)).

(** [GET /api/settings], [GET /api/data] *)
Definition get_doc (key : string) : M (response json) :=
  try_catch (v <- getDoc key;; ret (Ok v)) (fun _ => ret (Ok JNull)).

(** [POST /api/settings], [POST /api/data] *)
Definition post_doc (key : string) (now : Z) (body : json) : M (response unit) :=
  try_catch
    (createBackup now;;
     setDoc key body;;
     ret (Ok tt))
    (fun e => ret (ServerError e)).

(** [GET /api/backups]: file name and creation date of each backup,
    newest first.  ([size], the length of the serialised document, is
    left out.) *)
Definition summary (b : backup) : string * string :=
  (b_filename b, toISOString (b_created b)).

Definition get_backups : M (response (list (string * string))) :=
  try_catch
    (bs <- call BackupsFindNewestFirst (fun s => (merge_sort newer (backups s), s));;
     ret (Ok (summary <$> bs)))
    (fun _ => ret (Ok [])).

(** [findOne({ filename })] *)
Definition find_backup (filename : string) (bs : list backup) : option backup :=
  List.find (fun b => bool_decide (b_filename b = filename)) bs.

(** [POST /api/backups/restore/:filename] *)
Definition post_restore (filename : string) : M (response unit) :=
  try_catch
    (if negb (startsWith filename "backup-") || negb (endsWith filename ".json")
     then ret (BadRequest "Invalid backup file")
     else
       found <- call (BackupsFindOne filename)
                     (fun s => (find_backup filename (backups s), s));;
       match found with
       | None => ret (NotFound "Backup not found")
       | Some b =>
           (if truthy (b_settings b) then setDoc "settings" (b_settings b) else ret tt);;
           (if truthy (b_appdata b) then setDoc "appdata" (b_appdata b) else ret tt);;
           ret (Ok tt)
       end)
    (fun e => ret (ServerError e)).

(** [GET /api/updates] *)
Definition get_updates : M (response (list update)) :=
  try_catch (us <- getUpdates;; ret (Ok (default [] us))) (fun _ => ret (Ok [])).

(** [POST /api/updates]; [file] is [req.file.filename] when multer stored
    a photo (it is then in the uploads directory). *)
Definition post_update (e : env) (body : form) (file : option string)
  : M (response update) :=
  try_catch
    (us <- getUpdates;;
     let updates := default [] us in
     let update := new_update e body None in
     update <- match file with
               | Some filename =>
                   let update := new_update e body (Some ("/uploads/" +:+ filename)) in
                   try_catch (uploadToGridFS filename)
                             (fun _ => probe (ConsoleError "GridFS upload error")
                                             (fun _ => tt));;
                   ret update
               | None => ret update
               end;;
     setUpdates (update :: updates);;
     ret (Ok update))
    (fun e => ret (ServerError e)).

(** The body of [if (update && update.photo) { ... }]: the local file
    goes, then the GridFS files, the latter inside their own [try]. *)
Definition delete_photo (photo : string) : M unit :=
  let filename := remove_first "/uploads/" photo in
  there <- probe (FsExists filename)
                 (fun s => bool_decide (is_Some (uploads s !! filename)));;
  (if there : bool
   then call (FsUnlink filename) (fun s => (tt, set_uploads (delete filename) s))
   else ret tt);;
  try_catch (deleteFromGridFS filename) (fun _ => ret tt).

(** [DELETE /api/updates/:id] *)
Definition delete_update (x : string) : M (response unit) :=
  try_catch
    (us <- getUpdates;;
     let updates := default [] us in
     match find_update x updates ≫= photo_ref with
     | Some photo => delete_photo photo
     | None => ret tt
     end;;
     setUpdates (remove_update x updates);;
     ret (Ok tt))
    (fun e => ret (ServerError e)).

Close Scope eff_scope.

(** *** The backup step, read off [createBackup] *)

(** What [getDoc(key)] returns when the read succeeds. *)
Definition snapshot (key : string) (s : state) : json := default JNull (store s !! key).

(** [createBackup] goes past its first [return]: a document is there. *)
Definition triggers (s : state) : bool :=
  truthy (snapshot "settings" s) || truthy (snapshot "appdata" s).

(** The document [insertOne] adds. *)
Definition new_backup (now : Z) (s : state) : backup :=
  Backup (fresh_id (b_id <$> backups s)) (backup_filename now)
         (snapshot "settings" s) (snapshot "appdata" s) now.

(** A backup with a snapshot in it. *)
Definition nonempty (b : backup) : bool := truthy (b_settings b) || truthy (b_appdata b).

(** What the retention step leaves of the collection [all]. *)
Definition retain (all : list backup) : list backup :=
  if (MAX_BACKUPS <? length all)%nat
  then delete_ids (b_id <$> oldest (length all - MAX_BACKUPS) all) all
  else all.

(** A document write: the key, the time and the body of a [POST]. *)
Definition write : Type := string * Z * json.

(** The state after a sequence of document writes. *)
Fixpoint run_writes (orc : oracle) (ws : list write) (w : world) : world :=
  match ws with
  | [] => w
  | (key, now, body) :: rest => run_writes orc rest (post_doc key now body orc w).2
  end.

End Mongo.

(** ** The file variant ([src/server.js]) *)

Module Fs.

(** A path below [__dirname], as its components. *)
Definition path : Type := list string.

Definition DATA_DIR : path := ["data"].
Definition UPLOADS_DIR : path := ["data"; "uploads"].
Definition BACKUP_DIR : path := ["data"; "backups"].
Definition SETTINGS_FILE : path := ["data"; "settings.json"].
Definition APPDATA_FILE : path := ["data"; "appdata.json"].
Definition UPDATES_FILE : path := ["data"; "updates.json"].

(** [path.normalize]: empty and [.] components go, [..] takes back the
    component before it; a [..] that climbs above [__dirname] stays. *)
Fixpoint normalize (segs : list string) (done : list string) : path :=
  match segs with
  | [] => rev done
  | seg :: rest =>
      if String.eqb seg "" || String.eqb seg "." then normalize rest done
      else if String.eqb seg ".." then
        match done with
        | [] => normalize rest [".."]
        | top :: below =>
            if String.eqb top ".." then normalize rest (".." :: done)
            else normalize rest below
        end
      else normalize rest (seg :: done)
  end.

(** [path.join(dir, name)] for a normalised [dir] *)
Definition join (dir : path) (name : string) : path :=
  normalize (split_slash name) (rev dir).

(** A file, as far as the server reads it: text that [JSON.parse] reads
    as [j], or other bytes. *)
Inductive file : Type :=
  | Parsed (j : json)
  | Raw (bytes : string).

(** The files.  A document file holds the value its text parses to; the
    two directories map entry names to contents; [elsewhere] are the other
    JSON files of the disk, by path. *)
Record state : Type := State {
  settings_file : option json;
  appdata_file : option json;
  updates_file : option (list update);
  backup_dir : gmap string json;
  uploads_dir : gmap string string;
  elsewhere : gmap path json
}.

Definition set_settings (v : option json) (s : state) : state :=
  State v (appdata_file s) (updates_file s) (backup_dir s) (uploads_dir s) (elsewhere s).
Definition set_appdata (v : option json) (s : state) : state :=
  State (settings_file s) v (updates_file s) (backup_dir s) (uploads_dir s) (elsewhere s).
Definition set_updates (v : option (list update)) (s : state) : state :=
  State (settings_file s) (appdata_file s) v (backup_dir s) (uploads_dir s) (elsewhere s).
Definition set_backup_dir (f : gmap string json -> gmap string json) (s : state) : state :=
  State (settings_file s) (appdata_file s) (updates_file s) (f (backup_dir s))
        (uploads_dir s) (elsewhere s).
Definition set_uploads_dir (f : gmap string string -> gmap string string) (s : state)
  : state :=
  State (settings_file s) (appdata_file s) (updates_file s) (backup_dir s)
        (f (uploads_dir s)) (elsewhere s).
Definition set_elsewhere (f : gmap path json -> gmap path json) (s : state) : state :=
  State (settings_file s) (appdata_file s) (updates_file s) (backup_dir s)
        (uploads_dir s) (f (elsewhere s)).

(** The JSON text of updates.json, parsed as a plain value. *)
Definition update_json (u : update) : json :=
  JObj [("id", JStr (u_id u)); ("staff", JStr (u_staff u));
        ("message", JStr (u_message u)); ("type", JStr (u_type u));
        ("day", JNum (u_day u));
        ("photo", match u_photo u with Some p => JStr p | None => JNull end);
        ("timestamp", JStr (u_timestamp u))].

(** The file at a path, if there is one. *)
Definition file_at (p : path) (s : state) : option file :=
  if decide (p = SETTINGS_FILE) then Parsed <$> settings_file s
  else if decide (p = APPDATA_FILE) then Parsed <$> appdata_file s
  else if decide (p = UPDATES_FILE)
       then (fun us => Parsed (JArr (update_json <$> us))) <$> updates_file s
  else match p with
       | [d; sub; name] =>
           if decide (d = "data" ∧ sub = "backups") then Parsed <$> backup_dir s !! name
           else if decide (d = "data" ∧ sub = "uploads") then Raw <$> uploads_dir s !! name
           else Parsed <$> elsewhere s !! p
       | _ => Parsed <$> elsewhere s !! p
       end.

(** [fs.unlinkSync(p)] *)
Definition unlink_at (p : path) (s : state) : state :=
  if decide (p = SETTINGS_FILE) then set_settings None s
  else if decide (p = APPDATA_FILE) then set_appdata None s
  else if decide (p = UPDATES_FILE) then set_updates None s
  else match p with
       | [d; sub; name] =>
           if decide (d = "data" ∧ sub = "backups") then set_backup_dir (delete name) s
           else if decide (d = "data" ∧ sub = "uploads")
                then set_uploads_dir (delete name) s
           else set_elsewhere (delete p) s
       | _ => set_elsewhere (delete p) s
       end.

Inductive op : Type :=
  | ExistsSync (p : path)
  | ReadFileSync (p : path)          (* with the [JSON.parse] around it *)
  | WriteFileSync (p : path)
  | ReaddirSync (p : path)
  | UnlinkSync (p : path)
  | ConsoleError (what : string).

Abbreviation M := (M op state).
Abbreviation oracle := (oracle op).
Abbreviation world := (world op state).
Abbreviation error := (error op).
Abbreviation response := (response op).

Open Scope eff_scope.

Definition existsSync (p : path) : M bool :=
  probe (ExistsSync p) (fun s => bool_decide (is_Some (file_at p s))).

(** [JSON.parse(fs.readFileSync(p, 'utf8'))] *)
Definition readJson (p : path) : M json :=
  attempt (ReadFileSync p)
          (fun s => match file_at p s with
                    | Some (Parsed j) => Some (j, s)
                    | _ => None
                    end).

(** [fs.existsSync(p) ? JSON.parse(fs.readFileSync(p, 'utf8')) : null] *)
Definition read_or_null (p : path) : M json :=
  there <- existsSync p;;
  if there : bool then readJson p else ret JNull.

(** *** Backup *)

(** The order of [Array.prototype.sort()] on file names. *)
Definition name_le (a b : string) : Prop := String.leb a b = true.

#[global] Instance name_le_dec a b : Decision (name_le a b) := bool_eq_dec _ _.

(** [fs.readdirSync(BACKUP_DIR).filter(f => f.startsWith('backup-') &&
    f.endsWith('.json')).sort()] *)
Definition backup_names (dir : gmap string json) : list string :=
  merge_sort name_le (filter (fun f => is_backup_name f = true) (map_to_list dir).*1).

Definition list_backup_names : M (list string) :=
  call (ReaddirSync BACKUP_DIR) (fun s => (backup_names (backup_dir s), s)).

(** [while (files.length > MAX_BACKUPS) fs.unlinkSync(path.join(BACKUP_DIR,
    files.shift()))]; the names come from [readdirSync]. *)
Fixpoint evict (files : list string) : M unit :=
  match files with
  | [] => ret tt
  | f :: rest =>
      if (MAX_BACKUPS <? length files)%nat then
        call (UnlinkSync (BACKUP_DIR ++ [f])) (fun s => (tt, set_backup_dir (delete f) s));;
        evict rest
      else ret tt
  end.

(** [{ settings: settingsData, appdata: appData }] *)
Definition backup_json (settingsData appData : json) : json :=
  JObj [("settings", settingsData); ("appdata", appData)].

Definition createBackup_body (now : Z) : M unit :=
  settingsData <- read_or_null SETTINGS_FILE;;
  appData <- read_or_null APPDATA_FILE;;
  if negb (truthy settingsData) && negb (truthy appData) then ret tt
  else
    let filename := backup_filename now in
    call (WriteFileSync (BACKUP_DIR ++ [filename]))
         (fun s => (tt, set_backup_dir (insert filename (backup_json settingsData appData)) s));;
    files <- list_backup_names;;
    evict files.

(** [createBackup()]; [now] is what [new Date()] reads. *)
Definition createBackup (now : Z) : M unit :=
  try_catch (createBackup_body now)
            (fun e => probe (ConsoleError "Backup error") (fun _ => tt)).

(** *** Routes *)

(** The two documents: settings.json and appdata.json. *)
Inductive doc : Type := Settings | AppData.

Definition doc_file (d : doc) : path :=
  match d with Settings => SETTINGS_FILE | AppData => APPDATA_FILE end.

(** [GET /api/settings], [GET /api/data] *)
Definition get_doc (d : doc) : M (response json) :=
  try_catch (v <- read_or_null (doc_file d);; ret (Ok v)) (fun _ => ret (Ok JNull)).

(** [fs.writeFileSync(SETTINGS_FILE, JSON.stringify(v, null, 2))] and the
    same for [APPDATA_FILE] *)
Definition write_doc (d : doc) (v : json) : M unit :=
  call (WriteFileSync (doc_file d))
       (fun s => (tt, match d with
                      | Settings => set_settings (Some v) s
                      | AppData => set_appdata (Some v) s
                      end)).

(** [POST /api/settings], [POST /api/data] *)
Definition post_doc (d : doc) (now : Z) (body : json) : M (response unit) :=
  try_catch
    (createBackup now;;
     write_doc d body;;
     ret (Ok tt))
    (fun e => ret (ServerError e)).

(** [GET /api/backups]: the file names, newest first.  ([size] and
    [created], read with [statSync], are left out.) *)
Definition get_backups : M (response (list string)) :=
  try_catch
    (files <- list_backup_names;;
     ret (Ok (rev files)))
    (fun _ => ret (Ok [])).

(** [backup.settings], [backup.appdata] *)
Definition prop (k : string) (v : json) : M json :=
  match js_prop k v with
  | Some x => ret x
  | None => throw (TypeError "Cannot read properties of null")
  end.

(** [POST /api/backups/restore/:filename] *)
Definition post_restore (filename : string) : M (response unit) :=
  try_catch
    (if negb (startsWith filename "backup-") || negb (endsWith filename ".json")
     then ret (BadRequest "Invalid backup file")
     else
       let filePath := join BACKUP_DIR filename in
       there <- existsSync filePath;;
       if negb there then ret (NotFound "Backup not found")
       else
         backup <- readJson filePath;;
         settingsData <- prop "settings" backup;;
         (if truthy settingsData then write_doc Settings settingsData else ret tt);;
         appData <- prop "appdata" backup;;
         (if truthy appData then write_doc AppData appData else ret tt);;
         ret (Ok tt))
    (fun e => ret (ServerError e)).

(** *** Updates *)

Definition readUpdates : M (list update) :=
  try_catch
    (there <- existsSync UPDATES_FILE;;
     if there : bool
     then attempt (ReadFileSync UPDATES_FILE)
                  (fun s => (fun us => (us, s)) <$> updates_file s)
     else ret [])
    (fun _ => ret []).

Definition writeUpdates (us : list update) : M unit :=
  call (WriteFileSync UPDATES_FILE) (fun s => (tt, set_updates (Some us) s)).

(** [GET /api/updates] *)
Definition get_updates : M (response (list update)) :=
  us <- readUpdates;; ret (Ok us).

(** [POST /api/updates]; [file] is [req.file.filename] when multer stored
    a photo. *)
Definition post_update (e : env) (body : form) (file : option string)
  : M (response update) :=
  try_catch
    (updates <- readUpdates;;
     let update := new_update e body ((fun f => "/uploads/" +:+ f) <$> file) in
     writeUpdates (update :: updates);;
     ret (Ok update))
    (fun e => ret (ServerError e)).

(** The body of [if (update && update.photo) { ... }] *)
Definition delete_photo (photo : string) : M unit :=
  let photoPath := join DATA_DIR photo in
  there <- existsSync photoPath;;
  if there : bool
  then call (UnlinkSync photoPath) (fun s => (tt, unlink_at photoPath s))
  else ret tt.

(** [DELETE /api/updates/:id] *)
Definition delete_update (x : string) : M (response unit) :=
  try_catch
    (updates <- readUpdates;;
     match find_update x updates ≫= photo_ref with
     | Some photo => delete_photo photo
     | None => ret tt
     end;;
     writeUpdates (remove_update x updates);;
     ret (Ok tt))
    (fun e => ret (ServerError e)).

(** [GET /uploads/<name>], served by [express.static(UPLOADS_DIR)] *)
Definition get_upload (name : string) : M (response string) :=
  loc <- probe (ExistsSync (UPLOADS_DIR ++ [name])) (fun s => uploads_dir s !! name);;
  match loc with
  | Some bytes => ret (Ok bytes)
  | None => ret (NotFound "Cannot GET")
  end.

Close Scope eff_scope.

(** *** The backup step, read off [createBackup] *)

(** What [fs.existsSync(p) ? JSON.parse(...) : null] yields for a document
    when the read succeeds. *)
Definition snapshot (d : doc) (s : state) : json :=
  default JNull (match d with Settings => settings_file s | AppData => appdata_file s end).

(** [createBackup] goes past its first [return]: a document is there. *)
Definition triggers (s : state) : bool :=
  truthy (snapshot Settings s) || truthy (snapshot AppData s).

(** The backup directory after the [writeFileSync] of [createBackup]. *)
Definition written (now : Z) (s : state) : gmap string json :=
  <[backup_filename now := backup_json (snapshot Settings s) (snapshot AppData s)]>
    (backup_dir s).

(** A backup file with a snapshot in it. *)
Definition nonempty (j : json) : bool :=
  match js_prop "settings" j, js_prop "appdata" j with
  | Some settingsData, Some appData => truthy settingsData || truthy appData
  | _, _ => false
  end.

(** The directory after unlinking [names], first to last. *)
Definition delete_all (names : list string) (dir : gmap string json) : gmap string json :=
  foldl (fun dir f => delete f dir) dir names.

(** What the retention loop leaves of the directory. *)
Definition retain (dir : gmap string json) : gmap string json :=
  delete_all (take (length (backup_names dir) - MAX_BACKUPS) (backup_names dir)) dir.

(** The files after [write_doc]. *)
Definition stored (d : doc) (v : json) (s : state) : state :=
  match d with
  | Settings => set_settings (Some v) s
  | AppData => set_appdata (Some v) s
  end.

(** A document write: the document, the time and the body of a [POST]. *)
Definition write : Type := doc * Z * json.

(** The state after a sequence of document writes. *)
Fixpoint run_writes (orc : oracle) (ws : list write) (w : world) : world :=
  match ws with
  | [] => w
  | (d, now, body) :: rest => run_writes orc rest (post_doc d now body orc w).2
  end.

End Fs.

(** ** Uploaded photos *)

Fixpoint base10_digits (fuel : nat) (n : Z) (acc : string) : string :=
  match fuel with
  | O => acc
  | S fuel' =>
      let acc' := String (digit_char (n mod 10)) acc in
      if n <? 10 then acc' else base10_digits fuel' (n / 10) acc'
  end.

(** [String(n)] for an integer [n], as in [Date.now() + '-'] *)
Definition toString10 (n : Z) : string :=
  if n <? 0 then "-" +:+ base10_digits (S (Z.to_nat (Z.log2 (- n)))) (- n) ""
  else base10_digits (S (Z.to_nat (Z.log2 n))) n "".

(** The variables of the loop of [path.extname] (posix). *)
Record scan : Type := Scan {
  startDot : option nat;
  startPart : nat;
  scan_end : option nat;
  matchedSlash : bool;
  preDotState : Z
}.

(** [for (let i = path.length - 1; i >= 0; --i)] of [path.extname]:
    [before] are the characters up to index [i], last first.  A slash after
    the last component ends the loop. *)
Fixpoint extname_loop (before : list ascii) (st : scan) : scan :=
  match before with
  | [] => st
  | code :: rest =>
      let i := length rest in
      if Ascii.eqb code "/" then
        if negb (matchedSlash st)
        then Scan (startDot st) (i + 1) (scan_end st) (matchedSlash st) (preDotState st)
        else extname_loop rest st
      else
        let st :=
          match scan_end st with
          | None => Scan (startDot st) (startPart st) (Some (i + 1)%nat) false (preDotState st)
          | Some _ => st
          end in
        let st :=
          if Ascii.eqb code "." then
            match startDot st with
            | None => Scan (Some i) (startPart st) (scan_end st) (matchedSlash st) (preDotState st)
            | Some _ =>
                if negb (preDotState st =? 1)
                then Scan (startDot st) (startPart st) (scan_end st) (matchedSlash st) 1
                else st
            end
          else
            match startDot st with
            | Some _ => Scan (startDot st) (startPart st) (scan_end st) (matchedSlash st) (-1)
            | None => st
            end in
        extname_loop rest st
  end.

(** [path.extname(p)]: from the last point of the last component on; empty
    when there is no point, when the point is the component's first
    character, or when the component is [..]. *)
Definition extname (p : string) : string :=
  let st := extname_loop (rev (list_ascii_of_string p)) (Scan None 0 None true 0) in
  match startDot st, scan_end st with
  | Some sd, Some e =>
      if (preDotState st =? 0)
         || ((preDotState st =? 1) && (sd =? e - 1)%nat && (sd =? startPart st + 1)%nat)
      then ""
      else slice sd e p
  | _, _ => ""
  end.

(** [filename: (req, file, cb) => ...] of the multer storage, the same in
    both variants; [e] is what this call reads from the clock and from
    [Math.random].
    [const ext = path.extname(file.originalname) || '.jpg';
     cb(null, Date.now() + '-' + Math.random().toString(36).slice(2, 8) + ext);] *)
Definition upload_filename (e : env) (originalname : string) : string :=
  let ext := if String.eqb (extname originalname) "" then ".jpg" else extname originalname in
  toString10 (now_ms e) +:+ "-" +:+ slice 2 8 (random36 e) +:+ ext.

(** [limits: { fileSize: 10 * 1024 * 1024 }] *)
Definition fileSize : Z := 10 * 1024 * 1024.

(** The file part [photo] of a multipart request: what its file name is
    made from, and its bytes. *)
Record part : Type := Part { p_env : env; p_originalname : string; p_bytes : string }.

(** A photo reference as [POST /api/updates] writes it: [/uploads/] and the
    name of an entry of the uploads directory. *)
Definition upload_ref (photo : string) : Prop :=
  exists f, plain_name f = true /\ photo = "/uploads/" +:+ f.

(** A feed whose records refer to photos that way, or to none. *)
Definition feed_refs (us : list update) : Prop :=
  forall u photo, u ∈ us -> photo_ref u = Some photo -> upload_ref photo.

(** ** The older copy of the file variant ([src/server.js], from line 248) *)

Module Legacy.
Import Fs.
Open Scope eff_scope.

(** [POST /api/settings], [POST /api/data]: the write alone.  The older
    copy has no [createBackup] and no backup route; its other routes are,
    word for word, those of [Fs]. *)
Definition post_doc (d : doc) (body : json) : M (response unit) :=
  try_catch
    (write_doc d body;;
     ret (Ok tt))
    (fun e => ret (ServerError e)).

Close Scope eff_scope.
End Legacy.

(** ** The routes together *)

(** The file variant as a whole: a request, and the files after it. *)
Module FsApp.
Import Fs.
Open Scope eff_scope.

(** multer's [upload.single('photo')] storing a part in [UPLOADS_DIR]. *)
Definition store_part (p : part) : M string :=
  let filename := upload_filename (p_env p) (p_originalname p) in
  call (WriteFileSync (UPLOADS_DIR ++ [filename]))
       (fun s => (tt, set_uploads_dir (insert filename (p_bytes p)) s));;
  ret filename.

Inductive request : Type :=
  | GetDoc (d : doc)
  | PostDoc (d : doc) (now : Z) (body : json)
  | GetBackups
  | PostRestore (filename : string)
  | GetUpdates
  | PostUpdate (e : env) (body : form) (photo : option part)
  | DeleteUpdate (id : string)
  | GetUpload (name : string).

(** The world after a request.  With a photo part multer runs first; a
    part over the size limit, or one whose write fails, is an error of the
    middleware: the handler does not run. *)
Definition serve (r : request) (orc : oracle) (w : world) : world :=
  match r with
  | GetDoc d => (get_doc d orc w).2
  | PostDoc d now body => (post_doc d now body orc w).2
  | GetBackups => (get_backups orc w).2
  | PostRestore filename => (post_restore filename orc w).2
  | GetUpdates => (get_updates orc w).2
  | PostUpdate e body None => (post_update e body None orc w).2
  | PostUpdate e body (Some p) =>
      if fileSize <? Z.of_nat (String.length (p_bytes p)) then w
      else match store_part p orc w with
           | (Ret filename, w1) => (post_update e body (Some filename) orc w1).2
           | (Throw _, w1) => w1
           end
  | DeleteUpdate id => (delete_update id orc w).2
  | GetUpload name => (get_upload name orc w).2
  end.

(** Requests one after the other; the oracle numbers the storage calls
    across them. *)
Fixpoint run (orc : oracle) (rs : list request) (w : world) : world :=
  match rs with
  | [] => w
  | r :: rest => run orc rest (serve r orc w)
  end.

(** [Math.random().toString(36)] has digits, letters and a point. *)
Definition valid (r : request) : Prop :=
  match r with
  | PostUpdate _ _ (Some p) => has_slash (random36 (p_env p)) = false
  | _ => True
  end.

(** The feed refers to photos as [POST /api/updates] writes them, and every
    backup file has a snapshot in it. *)
Definition sound (s : state) : Prop :=
  feed_refs (default [] (updates_file s)) /\
  forall name j, backup_dir s !! name = Some j -> nonempty j = true.

(** What a request keeps: the files outside the data directory, the two
    documents once they are there, and [sound]. *)
Definition keeps (s s' : state) : Prop :=
  elsewhere s' = elsewhere s /\
  (is_Some (settings_file s) -> is_Some (settings_file s')) /\
  (is_Some (appdata_file s) -> is_Some (appdata_file s')) /\
  (sound s -> sound s').

Close Scope eff_scope.
End FsApp.

(** The MongoDB variant as a whole. *)
Module MongoApp.
Import Mongo.
Open Scope eff_scope.

Inductive request : Type :=
  | GetDoc (key : string)
  | PostDoc (key : string) (now : Z) (body : json)
  | GetBackups
  | PostRestore (filename : string)
  | GetUpdates
  | PostUpdate (e : env) (body : form) (photo : option part)
  | DeleteUpdate (id : string)
  | GetUpload (name : string).

(** The world after a request.  multer has written the part to the uploads
    directory when the handler runs; a part it refuses (over the size
    limit, or not written) leaves everything as it was, as if the request
    had not been made. *)
Definition serve (r : request) (orc : oracle) (w : world) : world :=
  match r with
  | GetDoc key => (get_doc key orc w).2
  | PostDoc key now body => (post_doc key now body orc w).2
  | GetBackups => (get_backups orc w).2
  | PostRestore filename => (post_restore filename orc w).2
  | GetUpdates => (get_updates orc w).2
  | PostUpdate e body None => (post_update e body None orc w).2
  | PostUpdate e body (Some p) =>
      if fileSize <? Z.of_nat (String.length (p_bytes p)) then w
      else
        let filename := upload_filename (p_env p) (p_originalname p) in
        (post_update e body (Some filename) orc
           (World (calls w) (set_uploads (insert filename (p_bytes p)) (data w)))).2
  | DeleteUpdate id => (delete_update id orc w).2
  | GetUpload name => (get_upload name orc w).2
  end.

Fixpoint run (orc : oracle) (rs : list request) (w : world) : world :=
  match rs with
  | [] => w
  | r :: rest => run orc rest (serve r orc w)
  end.

(** [Math.random().toString(36)] has digits, letters and a point. *)
Definition valid (r : request) : Prop :=
  match r with
  | PostUpdate _ _ (Some p) => has_slash (random36 (p_env p)) = false
  | _ => True
  end.

(** The feed refers to photos as [POST /api/updates] writes them, and every
    backup has a snapshot in it. *)
Definition sound (s : state) : Prop :=
  feed_refs (default [] (feed s)) /\
  forall b, b ∈ backups s -> nonempty b = true.

(** What a request keeps: the documents of the store once they are there,
    and [sound]. *)
Definition keeps (s s' : state) : Prop :=
  (forall k, is_Some (store s !! k) -> is_Some (store s' !! k)) /\
  (sound s -> sound s').

Close Scope eff_scope.
End MongoApp.

(** ** Notions of the proofs *)

(** The Gregorian date of day [doe] of a 400-year era that starts on a
    1 March, the year counted from the era's first: [civil_of_days] without
    the era. *)
Definition civil_of_doe (doe : Z) : Z * Z * Z :=
  let yoe := (doe - doe / 1460 + doe / 36524 - doe / 146096) / 365 in
  let doy := doe - (365 * yoe + yoe / 4 - yoe / 100) in
  let mp := (5 * doy + 2) / 153 in
  let d := doy - (153 * mp + 2) / 5 + 1 in
  let m := if mp <? 10 then mp + 3 else mp - 9 in
  (yoe + (if m <=? 2 then 1 else 0), m, d).

(** A date as one number that grows with the date. *)
Definition date_num (c : Z * Z * Z) : Z := let '(y, m, d) := c in (y * 13 + m) * 32 + d.

Definition date_ok (c : Z * Z * Z) : bool :=
  let '(y, m, d) := c in (1 <=? m) && (m <=? 12) && (1 <=? d) && (d <=? 31).

(** The [n] days from [doe] on have well-formed dates, each later than the
    one before; [prev] is the number of the date before [doe]. *)
Fixpoint ascending (n : nat) (doe prev : Z) : bool :=
  match n with
  | O => true
  | S n' =>
      let c := civil_of_doe doe in
      date_ok c && (prev <? date_num c) && ascending n' (doe + 1) (date_num c)
  end.

(** The time stamp in the file name of a backup, from the date and time
    fields. *)
Definition stamp (y m d h mi s ms : Z) : string :=
  pad 4 y +:+ "-" +:+ pad 2 m +:+ "-" +:+ pad 2 d +:+ "T" +:+ pad 2 h +:+ "-"
  +:+ pad 2 mi +:+ "-" +:+ pad 2 s +:+ "-" +:+ pad 3 ms +:+ "Z".

(** Time values of the years 0 to 9999, those [toISOString] writes with a
    year of four digits. *)
Definition in_years (ms : Z) : Prop := -62167219200000 <= ms <= 253402300799999.

(** Times whose base-36 numeral has eight digits: from June 1972 to
    May 2059. *)
Definition eight_digits (n : Z) : Prop := 36 ^ 7 <= n < 36 ^ 8.

(** What the loop of [extname] keeps true with [n] characters left to
    read: the characters from there to the end it has marked are not
    slashes, and the point it has marked is among them. *)
Definition marked (cs : list ascii) (n : nat) (st : scan) : Prop :=
  match scan_end st with
  | None => startDot st = None /\ matchedSlash st = true
  | Some e =>
      matchedSlash st = false /\ (n <= e)%nat /\
      (forall j, (n <= j < e)%nat -> cs !! j ≠ Some "/"%char) /\
      forall sd, startDot st = Some sd -> (n <= sd < e)%nat
  end.

(** A string that starts with a character other than a point. *)
Definition no_dot_head (s : string) : Prop :=
  match s with
  | String c _ => Ascii.eqb c "." = false
  | EmptyString => False
  end.

(** The last [MAX_BACKUPS] of a list. *)
Definition newest {A} (l : list A) : list A := drop (length l - MAX_BACKUPS) l.

(** The times of a sequence of document writes. *)
Definition fs_times (ws : list Fs.write) : list Z := (fun w => w.1.2) <$> ws.
Definition mongo_times (ws : list Mongo.write) : list Z := (fun w => w.1.2) <$> ws.

(** File name and time of a backup of the collection, and of the backup
    made at [now]. *)
Definition meta (b : Mongo.backup) : string * Z := (Mongo.b_filename b, Mongo.b_created b).
Definition made (now : Z) : string * Z := (backup_filename now, now).

(** ** Sample states *)

Module Samples.

Definition settings1 : json := JObj [("mosque", JStr "Masjid An-Noor"); ("days", JNum 30)].
Definition settings2 : json := JObj [("mosque", JStr "Masjid An-Noor"); ("days", JNum 29)].
Definition appdata1 : json := JObj [("day", JNum 3); ("guests", JArr [JNum 120; JNum 95])].

Definition update1 : update :=
  Update "lx1k2m9qabc12" "Asha" "Dates delivered" "supply" 3
         (Some "/uploads/1710000000000-k3j2h1.jpg") "2024-03-09T16:00:00.000Z".
Definition update2 : update :=
  Update "lx1k2m9qzzz99" "Bilal" "Hall is ready" "general" 3 None "2024-03-09T15:00:00.000Z".

Definition photo1 : string := "1710000000000-k3j2h1.jpg".

Definition request_env : env := Env 1710003600000 "0.f4k2p9x1c" 1710003600002.

(** The MongoDB variant: both documents, one backup that holds the settings
    alone, a feed of two records, the photo of the first in GridFS and in
    the uploads directory. *)
Definition mongo_backup1 : Mongo.backup :=
  Mongo.Backup 1 (backup_filename 1709990000000) settings1 JNull 1709990000000.

Definition mongo_state : Mongo.state :=
  Mongo.State (<["settings" := settings2]> (<["appdata" := appdata1]> ∅))
              (Some [update1; update2])
              [mongo_backup1]
              [Mongo.GridFile 1 photo1 "JFIF"]
              (<[photo1 := "JFIF"]> ∅).

Definition mongo_world : Mongo.world := World [] mongo_state.

(** A fresh database. *)
Definition mongo_fresh : Mongo.world := World [] (Mongo.State ∅ None [] [] ∅).

(** The file variant, with the same contents. *)
Definition fs_state : Fs.state :=
  Fs.State (Some settings2) (Some appdata1) (Some [update1; update2])
           (<[backup_filename 1709990000000 := Fs.backup_json settings1 JNull]> ∅)
           (<[photo1 := "JFIF"]> ∅)
           ∅.

Definition fs_world : Fs.world := World [] fs_state.

(** Settings and an appdata document that has a [settings] property of its
    own; no backup file at all. *)
Definition fs_no_backups : Fs.world :=
  World [] (Fs.State (Some settings2)
                     (Some (JObj [("day", JNum 3); ("settings", settings1)]))
                     None ∅ ∅ ∅).

(** A fresh data directory. *)
Definition fs_fresh : Fs.world := World [] (Fs.State None None None ∅ ∅ ∅).

(** [n] writes of the settings, one second apart. *)
Fixpoint mongo_writes (n : nat) (t : Z) : list Mongo.write :=
  match n with
  | O => []
  | S n' => ("settings", t, JObj [("days", JNum t)]) :: mongo_writes n' (t + 1000)
  end.

Fixpoint fs_writes (n : nat) (t : Z) : list Fs.write :=
  match n with
  | O => []
  | S n' => (Fs.Settings, t, JObj [("days", JNum t)]) :: fs_writes n' (t + 1000)
  end.

(** Oracles: every call on the backups throws; the GridFS upload throws;
    the unlink of a local file throws. *)
Definition mongo_backups_down : Mongo.oracle :=
  fun _ o => match o with
             | Mongo.BackupsInsertOne _ | Mongo.BackupsCount | Mongo.BackupsFindOldest _
             | Mongo.BackupsDeleteMany _ | Mongo.BackupsFindNewestFirst
             | Mongo.BackupsFindOne _ => true
             | _ => false
             end.

Definition mongo_gridfs_down : Mongo.oracle :=
  fun _ o => match o with
             | Mongo.GridUpload _ | Mongo.GridFind _ | Mongo.GridDelete _ => true
             | _ => false
             end.


Definition fs_backups_down : Fs.oracle :=
  fun _ o => match o with
             | Fs.ReaddirSync _ => true
             | Fs.WriteFileSync p => bool_decide (p ≠ Fs.SETTINGS_FILE ∧ p ≠ Fs.APPDATA_FILE)
             | _ => false
             end.

Definition fs_unlink_fails : Fs.oracle :=
  fun _ o => match o with Fs.UnlinkSync _ => true | _ => false end.

End Samples.

(** ** More sample requests and oracles *)

Module MoreSamples.
Import Samples.

(** The read of the feed throws; nothing else does. *)
Definition mongo_feed_unreadable : Mongo.oracle :=
  fun _ o => match o with Mongo.StoreFindOne key => String.eqb key "updates" | _ => false end.

Definition fs_feed_unreadable : Fs.oracle :=
  fun _ o => match o with Fs.ReadFileSync p => bool_decide (p = Fs.UPDATES_FILE) | _ => false end.



(** A photo part, as a phone sends it. *)
Definition photo_part : part := Part (Env 1710003600001 "0.p0q1r2s3t" 0) "IMG 0001.PNG" "JFIF".

(** The MongoDB sample after a redeploy: the uploads directory is empty. *)
Definition redeployed (w : Mongo.world) : Mongo.world :=
  World (calls w) (Mongo.set_uploads (fun _ => ∅) (data w)).


Definition mongo_requests : list MongoApp.request :=
  [MongoApp.PostDoc "settings" 1710000000000 settings1;
   MongoApp.PostUpdate request_env [("staff", "Asha")] (Some photo_part);
   MongoApp.PostDoc "appdata" 1710000001000 appdata1;
   MongoApp.DeleteUpdate (new_id request_env);
   MongoApp.PostRestore (backup_filename 1710000001000);
   MongoApp.GetBackups].

End MoreSamples.

(** * Facts *)

(** ** Worked values *)

Example toISOString_epoch : toISOString 0 = "1970-01-01T00:00:00.000Z".
Proof. reflexivity. Qed.

Example toISOString_2023 : toISOString 1700000000123 = "2023-11-14T22:13:20.123Z".
Proof. vm_compute. reflexivity. Qed.

Example toISOString_leap : toISOString 1709208000000 = "2024-02-29T12:00:00.000Z".
Proof. vm_compute. reflexivity. Qed.

Example toISOString_before_epoch : toISOString (-1) = "1969-12-31T23:59:59.999Z".
Proof. vm_compute. reflexivity. Qed.

Example backup_filename_2023 :
  backup_filename 1700000000123 = "backup-2023-11-14T22-13-20-123Z.json".
Proof. vm_compute. reflexivity. Qed.

Example toString36_ex : toString36 1700000000123 = "loyw3v5n".
Proof. vm_compute. reflexivity. Qed.

Example is_backup_name_traversal : is_backup_name "../etc/passwd" = false.
Proof. reflexivity. Qed.

Example parseInt_12 : parseInt " 12px" = Some 12.
Proof. reflexivity. Qed.

Example parseInt_hex : parseInt "-0x1f" = Some (-31).
Proof. reflexivity. Qed.

Example parseInt_empty : parseInt "" = None.
Proof. reflexivity. Qed.

Example parseInt_undefined : parseInt "undefined" = None.
Proof. reflexivity. Qed.

Example new_id_ex : new_id Samples.request_env = "ltkbzq80f4k2p9".
Proof. vm_compute. reflexivity. Qed.

Example join_backup_name :
  Fs.join Fs.BACKUP_DIR "backup-2024-03-09T16-00-00-000Z.json"
  = ["data"; "backups"; "backup-2024-03-09T16-00-00-000Z.json"].
Proof. reflexivity. Qed.

Example join_dot_dot : Fs.join Fs.BACKUP_DIR "backup-/../../appdata.json" = Fs.APPDATA_FILE.
Proof. reflexivity. Qed.

(** Twenty-five writes of the settings to a fresh store: the first finds no
    document, the others leave a backup each, and twenty remain. *)
Example mongo_25_writes :
  length (Mongo.backups
            (data (Mongo.run_writes no_faults (Samples.mongo_writes 25 1710000000000)
                                    Samples.mongo_fresh))) = 20%nat.
Proof. vm_compute. reflexivity. Qed.

Example fs_25_writes :
  (Fs.get_backups no_faults
     (Fs.run_writes no_faults (Samples.fs_writes 25 1710000000000) Samples.fs_fresh)).1
  = Ret (Ok (rev (backup_filename <$> ((fun k => 1710000000000 + 1000 * Z.of_nat k)
                                        <$> seq 5 20)))).
Proof. vm_compute. reflexivity. Qed.

(** ** Running a computation step by step *)

Section EffectFacts.
Context {Op St : Type}.
Implicit Types (orc : oracle Op) (w : world Op St).

Lemma bind_ret_run {A B} (m : M Op St A) (k : A -> M Op St B) orc w a w' :
  m orc w = (Ret a, w') -> bind m k orc w = k a orc w'.
Proof. unfold bind. by intros ->. Qed.

Lemma bind_throw_run {A B} (m : M Op St A) (k : A -> M Op St B) orc w e w' :
  m orc w = (Throw e, w') -> bind m k orc w = (Throw e, w').
Proof. unfold bind. by intros ->. Qed.


Lemma try_throw_run {A} (m : M Op St A) h orc w e w' :
  m orc w = (Throw e, w') -> try_catch m h orc w = h e orc w'.
Proof. unfold try_catch. by intros ->. Qed.

Lemma call_ok_run {A} (o : Op) (f : St -> A * St) orc w :
  orc (length (calls w)) o = false ->
  call o f orc w = (Ret (f (data w)).1, World (o :: calls w) (f (data w)).2).
Proof. unfold call, attempt. intros ->. by destruct (f (data w)). Qed.

Lemma call_fail_run {A} (o : Op) (f : St -> A * St) orc w :
  orc (length (calls w)) o = true ->
  call o f orc w = (Throw (Failed o), World (o :: calls w) (data w)).
Proof. unfold call, attempt. by intros ->. Qed.

(** A handler that catches everything and returns makes a computation
    that returns. *)
Lemma try_catch_returns {A} (m : M Op St A) (h : error Op -> M Op St A) orc w :
  (forall e w1, exists a w2, h e orc w1 = (Ret a, w2)) ->
  exists a w', try_catch m h orc w = (Ret a, w').
Proof.
  intros Hh. unfold try_catch. destruct (m orc w) as [[a|e] w1]; [by eexists _, _|].
  apply Hh.
Qed.
End EffectFacts.

(** ** Lists *)

Section ListFacts.
Context {A B : Type} `{EqDecision B} (key : A -> B).

Lemma filter_all_out (P : A -> Prop) `{forall x, Decision (P x)} (l : list A) :
  (forall x, x ∈ l -> ~ P x) -> filter P l = [].
Proof.
  induction l as [|x l IH]; intros Hl; [done|].
  rewrite filter_cons_False by (apply Hl; left).
  apply IH. intros y Hy. apply Hl. by right.
Qed.

Lemma filter_all_in (P : A -> Prop) `{forall x, Decision (P x)} (l : list A) :
  (forall x, x ∈ l -> P x) -> filter P l = l.
Proof.
  induction l as [|x l IH]; intros Hl; [done|].
  rewrite filter_cons_True by (apply Hl; left).
  f_equal. apply IH. intros y Hy. apply Hl. by right.
Qed.

(** Dropping from [l] the elements whose key is among the keys of the first
    [k] elements of a rearrangement [sorted] of [l] leaves the rest of
    [sorted], when keys are unique. *)
Lemma filter_keys_of_take (sorted l : list A) (k : nat) :
  sorted ≡ₚ l -> NoDup (key <$> l) ->
  filter (fun x => key x ∉ key <$> take k sorted) l ≡ₚ drop k sorted.
Proof.
  intros Hp Hnd.
  rewrite <- Hp in Hnd.
  remember (key <$> take k sorted) as ids eqn:Hids.
  rewrite <- Hp.
  rewrite <- (take_drop k sorted) at 1.
  rewrite <- (take_drop k sorted), fmap_app in Hnd.
  apply NoDup_app in Hnd as (_ & Hdisj & _).
  rewrite filter_app, filter_all_out, filter_all_in; [done| |].
  - intros x Hx Hin. subst ids. apply (Hdisj (key x)); [done|].
    by apply list_elem_of_fmap_2.
  - intros x Hx Hnot. apply Hnot. subst ids. by apply list_elem_of_fmap_2.
Qed.
End ListFacts.

Lemma find_none_filter {A} (p : A -> bool) (P : A -> Prop) `{forall x, Decision (P x)}
    (l : list A) :
  (forall x, P x <-> p x = false) -> List.find p l = None -> filter P l = l.
Proof.
  intros HP Hfind. apply filter_all_in. intros x Hx. apply HP.
  apply (find_none p l Hfind). by apply list_elem_of_In.
Qed.

(** ** Records of the feed *)

Lemma remove_update_absent x us : find_update x us = None -> remove_update x us = us.
Proof.
  apply find_none_filter. intros u. by rewrite bool_decide_eq_false.
Qed.

Lemma remove_update_gone x us u : u ∈ remove_update x us -> u_id u ≠ x.
Proof. by intros [? _]%list_elem_of_filter. Qed.

Lemma find_update_none x us : (forall u, u ∈ us -> u_id u ≠ x) -> find_update x us = None.
Proof.
  intros H. unfold find_update. induction us as [|u us IH]; [done|]. cbn.
  rewrite bool_decide_eq_false_2 by (apply H; left). apply IH. intros v Hv. apply H. by right.
Qed.

Lemma find_update_removed x us : find_update x (remove_update x us) = None.
Proof. apply find_update_none. intros u. apply remove_update_gone. Qed.

(** The record an insert makes of a form whose fields are blank. *)
Lemma new_update_blank e body :
  blank "staff" body -> blank "message" body -> blank "type" body -> blank "day" body ->
  new_update e body None
  = Update (new_id e) "Anonymous" "" "general" 0 None (toISOString (date_ms e)).
Proof.
  unfold blank, new_update, field_or, day_of.
  intros [-> | ->] [-> | ->] [-> | ->] [-> | ->]; reflexivity.
Qed.

(** ** Strings and paths *)

Lemma string_compare_lt_trans a b c :
  String.compare a b = Lt -> String.compare b c = Lt -> String.compare a c = Lt.
Proof.
  revert b c. induction a as [|x a IH]; intros [|y b] [|z c]; cbn; try done.
  unfold Ascii.compare.
  destruct (N.compare_spec (N_of_ascii x) (N_of_ascii y)) as [Exy|Lxy|Gxy];
  destruct (N.compare_spec (N_of_ascii y) (N_of_ascii z)) as [Eyz|Lyz|Gyz]; try done.
  - rewrite Exy, Eyz, N.compare_refl. apply IH.
  - intros _ _. rewrite Exy. by apply N.compare_lt_iff in Lyz as ->.
  - intros _ _. rewrite <- Eyz. by apply N.compare_lt_iff in Lxy as ->.
  - intros _ _. assert (N_of_ascii x < N_of_ascii z)%N as H by lia.
    by apply N.compare_lt_iff in H as ->.
Qed.

Lemma split_slash_plain f : has_slash f = false -> split_slash f = [f].
Proof.
  induction f as [|c f IH]; [done|]. cbn.
  destruct (Ascii.eqb c "/"); [done|]. cbn. intros Hf. by rewrite IH.
Qed.

Lemma append_cons c p s : String c p +:+ s = String c (p +:+ s).
Proof. reflexivity. Qed.

Lemma prefix_cons c p s : String.prefix (String c p) (String c s) = String.prefix p s.
Proof. unfold String.prefix at 1. fold String.prefix. by destruct (ascii_dec c c). Qed.

Lemma startsWith_app p s : startsWith (p +:+ s) p = true.
Proof.
  unfold startsWith. induction p as [|c p IH]; [by destruct s|].
  by rewrite append_cons, prefix_cons.
Qed.

Lemma substring_all t n : (String.length t <= n)%nat -> substring 0 n t = t.
Proof.
  revert n. induction t as [|c t IH]; intros [|n] Hn; simpl in *; try done; try lia.
  f_equal. apply IH. lia.
Qed.

Lemma substring_skip q t n :
  (String.length t <= n)%nat -> substring (String.length q) n (q +:+ t) = t.
Proof.
  intros Hn. induction q as [|c q IH]; simpl.
  - by apply substring_all.
  - exact IH.
Qed.

Lemma length_append q t :
  String.length (q +:+ t) = (String.length q + String.length t)%nat.
Proof. induction q as [|c q IH]; simpl; [done|]. by rewrite IH. Qed.

(** Taking the prefix [/uploads/] off a photo reference gives the file name. *)
Lemma remove_first_prefix p s : remove_first p (p +:+ s) = s.
Proof.
  destruct (p +:+ s) as [|a r] eqn:E.
  - destruct p; [|done]. change ("" +:+ s) with s in E. subst. done.
  - unfold remove_first. fold remove_first.
    change (String.prefix p (String a r)) with (startsWith (String a r) p).
    rewrite <- E, startsWith_app. apply substring_skip. rewrite length_append. lia.
Qed.

Lemma has_slash_app a b : has_slash (a +:+ b) = has_slash a || has_slash b.
Proof. induction a as [|c a IH]; simpl; [done|]. by rewrite IH, orb_assoc. Qed.

Lemma digit_char_no_slash d : 0 <= d < 10 -> Ascii.eqb (digit_char d) "/" = false.
Proof.
  intros H.
  assert (d = 0 \/ d = 1 \/ d = 2 \/ d = 3 \/ d = 4 \/ d = 5 \/ d = 6 \/ d = 7 \/ d = 8 \/ d = 9)
    as Hd by lia.
  repeat (destruct Hd as [->|Hd]; [reflexivity|]). by subst.
Qed.

Lemma has_slash_pad w n : has_slash (pad w n) = false.
Proof.
  revert n. induction w as [|w IH]; intros n; simpl; [done|].
  rewrite has_slash_app, IH. simpl.
  rewrite digit_char_no_slash by (apply Z.mod_pos_bound; lia). done.
Qed.

Lemma has_slash_replace s : has_slash (replace_colon_dot s) = has_slash s.
Proof.
  induction s as [|c s IH]; simpl; [done|]. rewrite IH.
  destruct (Ascii.eqb_spec c ":") as [->|_]; [done|].
  by destruct (Ascii.eqb_spec c ".") as [->|_].
Qed.

Lemma has_slash_toISOString ms : has_slash (toISOString ms) = false.
Proof.
  unfold toISOString. destruct (civil_of_days _) as [[y m] d].
  rewrite !has_slash_app, !has_slash_pad.
  destruct (_ && _); [by rewrite has_slash_pad|].
  rewrite has_slash_app, has_slash_pad. by destruct (y <? 0).
Qed.

(** The name [createBackup] makes is a single path component, so
    [path.join(BACKUP_DIR, filename)] is the entry of that name. *)
Lemma backup_filename_plain now : plain_name (backup_filename now) = true.
Proof.
  unfold plain_name, backup_filename.
  rewrite !has_slash_app, has_slash_replace, has_slash_toISOString. done.
Qed.

Lemma endsWith_app s p : endsWith (s +:+ p) p = true.
Proof.
  unfold endsWith. rewrite length_append.
  replace (String.length s + String.length p - String.length p)%nat with (String.length s) by lia.
  rewrite substring_skip by lia. rewrite String.eqb_refl, andb_true_r.
  apply Nat.leb_le. lia.
Qed.

Lemma append_assoc a b c : (a +:+ b) +:+ c = a +:+ (b +:+ c).
Proof. induction a as [|x a IH]; [done|]. by rewrite !append_cons, IH. Qed.

(** The name [createBackup] makes passes the test of the listing. *)
Lemma is_backup_name_backup_filename now : is_backup_name (backup_filename now) = true.
Proof.
  unfold is_backup_name, backup_filename. rewrite startsWith_app.
  by rewrite <- append_assoc, endsWith_app.
Qed.

Module PathFacts.
Import Fs.

Lemma join_plain dir f : plain_name f = true -> join dir f = dir ++ [f].
Proof.
  unfold plain_name, join. intros H.
  repeat (apply andb_prop in H as [H ?]).
  apply negb_true_iff in H.
  rewrite split_slash_plain by done. cbn.
  repeat match goal with
         | Hn : negb ?b = true |- _ => apply negb_true_iff in Hn; rewrite Hn
         end.
  cbn. by rewrite rev_involutive.
Qed.

(** The path of an upload that [POST /api/updates] refers to. *)
Lemma join_upload f :
  plain_name f = true -> join DATA_DIR ("/uploads/" +:+ f) = UPLOADS_DIR ++ [f].
Proof.
  unfold plain_name, join. intros H.
  repeat (apply andb_prop in H as [H ?]).
  apply negb_true_iff in H.
  rewrite !append_cons. change ("" +:+ f) with f.
  simpl split_slash. rewrite split_slash_plain by done. simpl.
  repeat match goal with
         | Hn : negb ?b = true |- _ => apply negb_true_iff in Hn; rewrite Hn
         end.
  done.
Qed.
Lemma join_backup_filename now :
  join BACKUP_DIR (backup_filename now) = BACKUP_DIR ++ [backup_filename now].
Proof. apply join_plain, backup_filename_plain. Qed.
End PathFacts.

(** ** The MongoDB variant *)

Module MongoFacts.
Import Mongo.

#[global] Instance older_trans : Transitive older.
Proof. unfold older. intros a b c. lia. Qed.
#[global] Instance older_total : Total older.
Proof. unfold older. intros a b. lia. Qed.
#[global] Instance newer_trans : Transitive newer.
Proof. unfold newer. intros a b c. lia. Qed.
#[global] Instance newer_total : Total newer.
Proof. unfold newer. intros a b. lia. Qed.

Ltac unfold_mongo :=
  unfold post_doc, get_doc, get_backups, get_updates, createBackup, createBackup_body,
    getDoc, setDoc, getUpdates, setUpdates, try_catch, bind, ret, throw, call, attempt,
    probe in *.

Ltac split_oracle orc :=
  repeat (cbn -[Nat.ltb MAX_BACKUPS oldest delete_ids fresh_id backup_filename truthy
                merge_sort];
          match goal with
          | |- context [orc ?n ?o] => destruct (orc n o) eqn:?
          | |- context [truthy ?v] => destruct (truthy v) eqn:?
          | |- context [Nat.ltb ?a ?b] => destruct (Nat.ltb a b) eqn:?
          end).

(** *** Retention on lists *)

Lemma mongo_retain_drop all :
  NoDup (b_id <$> all) ->
  retain all ≡ₚ drop (length all - MAX_BACKUPS) (merge_sort older all).
Proof.
  intros Hnd. unfold retain.
  destruct (Nat.ltb_spec MAX_BACKUPS (length all)) as [Hlt|Hle].
  - unfold delete_ids, oldest. apply filter_keys_of_take; [|done].
    apply merge_sort_Permutation.
  - replace (length all - MAX_BACKUPS)%nat with 0%nat by lia.
    rewrite drop_0. symmetry. apply merge_sort_Permutation.
Qed.

Lemma mongo_retain_split all :
  NoDup (b_id <$> all) ->
  all ≡ₚ oldest (length all - MAX_BACKUPS) all ++ retain all.
Proof.
  intros Hnd. rewrite mongo_retain_drop by done. unfold oldest.
  rewrite take_drop. symmetry. apply merge_sort_Permutation.
Qed.

Lemma mongo_retain_length all :
  NoDup (b_id <$> all) -> length (retain all) = Nat.min MAX_BACKUPS (length all).
Proof.
  intros Hnd. rewrite mongo_retain_drop by done.
  rewrite length_drop, merge_sort_Permutation. lia.
Qed.

Lemma mongo_retain_newest all d b :
  NoDup (b_id <$> all) ->
  d ∈ oldest (length all - MAX_BACKUPS) all -> b ∈ retain all -> older d b.
Proof.
  intros Hnd Hd Hb. rewrite mongo_retain_drop in Hb by done. unfold oldest in Hd.
  eapply (StronglySorted_app_1_elem_of older); [|exact Hd|exact Hb].
  rewrite take_drop. apply StronglySorted_merge_sort; apply _.
Qed.

Lemma mongo_retain_NoDup all : NoDup (b_id <$> all) -> NoDup (b_id <$> retain all).
Proof.
  intros Hnd. unfold retain. case_match; [|done].
  unfold delete_ids.
  eapply sublist_NoDup; [exact Hnd|].
  apply fmap_sublist, sublist_filter.
Qed.

Lemma fresh_id_fresh ids : fresh_id ids ∉ ids.
Proof.
  unfold fresh_id. intros Hin.
  assert (forall x, x ∈ ids -> (x <= foldr Nat.max 0 ids)%nat) as Hmax.
  { clear. induction ids as [|y ids IH]; intros x Hx; [by apply elem_of_nil in Hx|].
    apply elem_of_cons in Hx as [->|Hx]; cbn; [lia|]. specialize (IH x Hx). lia. }
  specialize (Hmax _ Hin). lia.
Qed.

Lemma new_backup_NoDup now s :
  NoDup (b_id <$> backups s) -> NoDup (b_id <$> (backups s ++ [new_backup now s])).
Proof.
  intros Hnd. rewrite fmap_app. apply NoDup_app. split; [done|]. split.
  - intros x Hx [->|[]%elem_of_nil]%elem_of_cons. by apply fresh_id_fresh in Hx.
  - apply NoDup_singleton.
Qed.

(** *** [createBackup] *)

(** Whatever fails inside, [createBackup] returns. *)
Lemma mongo_createBackup_returns now (orc : oracle) (w : world) :
  exists w', createBackup now orc w = (Ret tt, w').
Proof.
  unfold createBackup, try_catch, probe.
  destruct (createBackup_body now orc w) as [[[]|e] w']; eauto.
Qed.

(** Whatever fails, [createBackup] leaves the documents, the feed and the
    photos alone, and every backup it leaves is one it found or a new one
    with a truthy snapshot. *)
Lemma mongo_createBackup_frame now (orc : oracle) (w : world) :
  let s := data w in
  let s' := data (createBackup now orc w).2 in
  store s' = store s /\ feed s' = feed s /\ photos s' = photos s /\ uploads s' = uploads s /\
  forall b, b ∈ backups s' -> b ∈ backups s \/ nonempty b = true.
Proof.
  destruct w as [cs s]. unfold_mongo. unfold insert_backup, set_backups, nonempty.
  split_oracle orc; repeat split; try done; intros b Hb; cbn in Hb; auto.
  all: try (apply list_elem_of_filter in Hb as [_ Hb]).
  all: apply elem_of_app in Hb as [Hb|Hb%list_elem_of_singleton]; [by left|right].
  all: subst b; cbn [b_settings b_appdata].
  all: repeat match goal with H : truthy _ = _ |- _ => rewrite H; clear H end; done.
Qed.

(** With no document there, [createBackup] changes nothing, whatever fails. *)
Lemma mongo_createBackup_absent now (orc : oracle) (w : world) :
  store (data w) !! "settings" = None ->
  store (data w) !! "appdata" = None ->
  exists cs, createBackup now orc w = (Ret tt, World cs (data w)).
Proof.
  destruct w as [cs s]. cbn [data]. intros Hs Ha. unfold_mongo.
  split_oracle orc; rewrite ?Hs, ?Ha in *; cbn in *; try done; eauto.
Qed.

(** The run of [createBackup] when no call fails. *)
Lemma mongo_createBackup_no_faults now (w : world) :
  exists cs,
    createBackup now no_faults w =
      (Ret tt,
       World cs (if triggers (data w)
                 then set_backups (fun bs => retain (bs ++ [new_backup now (data w)])) (data w)
                 else data w)).
Proof.
  destruct w as [cs s]. unfold_mongo.
  unfold no_faults, triggers, snapshot, retain, new_backup, insert_backup, set_backups, snapshot.
  cbn -[Nat.ltb MAX_BACKUPS oldest delete_ids fresh_id backup_filename].
  destruct (truthy (default JNull (store s !! "settings"))),
           (truthy (default JNull (store s !! "appdata")));
    cbn -[Nat.ltb MAX_BACKUPS oldest delete_ids fresh_id backup_filename].
  4: { destruct s; eauto. }
  all: destruct (Nat.ltb MAX_BACKUPS _) eqn:E;
    cbn -[Nat.ltb MAX_BACKUPS oldest delete_ids fresh_id backup_filename]; eauto.
Qed.

Lemma mongo_get_backups_no_faults (w : world) :
  get_backups no_faults w =
    (Ret (Ok (summary <$> merge_sort newer (backups (data w)))),
     World (BackupsFindNewestFirst :: calls w) (data w)).
Proof. reflexivity. Qed.
(** One backup step: at most [MAX_BACKUPS] backups are left, the evicted
    ones are the oldest, and the listing shows what is left, newest first. *)
Lemma mongo_rotation now (w : world) :
  NoDup (b_id <$> backups (data w)) ->
  triggers (data w) = true ->
  let all := backups (data w) ++ [new_backup now (data w)] in
  let w' := (createBackup now no_faults w).2 in
  let kept := backups (data w') in
  length kept = Nat.min MAX_BACKUPS (length all) /\
  (exists evicted,
      all ≡ₚ evicted ++ kept /\
      forall d b, d ∈ evicted -> b ∈ kept -> b_created d <= b_created b) /\
  (exists listed,
      (get_backups no_faults w').1 = Ret (Ok (summary <$> listed)) /\
      listed ≡ₚ kept /\ StronglySorted newer listed) /\
  NoDup (b_id <$> kept).
Proof.
  intros Hnd Ht all w' kept.
  destruct (mongo_createBackup_no_faults now w) as [cs E].
  subst w' kept. rewrite E, Ht. cbn [snd data backups set_backups]. fold all.
  pose proof (new_backup_NoDup now _ Hnd) as Hall. fold all in Hall.
  split; [by apply mongo_retain_length|]. split; [|split].
  - exists (oldest (length all - MAX_BACKUPS) all). split.
    + by apply mongo_retain_split.
    + intros d b Hd Hb. by apply (mongo_retain_newest all).
  - exists (merge_sort newer (retain all)). split; [done|]. split.
    + apply merge_sort_Permutation.
    + apply StronglySorted_merge_sort; apply _.
  - by apply mongo_retain_NoDup.
Qed.

(** *** Document writes *)

(** A [POST] of a document answers ok and stores the body whenever the
    write itself does not fail, whatever fails in the backup before it. *)
Lemma mongo_post_doc_ok key now body (orc : oracle) (w : world) :
  (forall n, orc n (StoreUpdateOne key) = false) ->
  exists cs,
    post_doc key now body orc w =
      (Ret (Ok tt),
       World cs (set_store (insert key body) (data (createBackup now orc w).2))).
Proof.
  intros Hok. unfold post_doc, try_catch. unfold bind at 1.
  destruct (mongo_createBackup_returns now orc w) as [[cs1 s1] E]. rewrite E.
  unfold bind, setDoc, call, attempt, ret. rewrite Hok. cbn. eauto.
Qed.

Lemma mongo_post_doc_store key now body (orc : oracle) (w : world) :
  (forall n, orc n (StoreUpdateOne key) = false) ->
  (post_doc key now body orc w).1 = Ret (Ok tt) /\
  store (data (post_doc key now body orc w).2) = <[key := body]> (store (data w)).
Proof.
  intros Hok. destruct (mongo_post_doc_ok key now body orc w Hok) as [cs ->].
  split; [done|]. cbn.
  by destruct (mongo_createBackup_frame now orc w) as (-> & _).
Qed.

Lemma mongo_get_doc_ok key (orc : oracle) (w : world) :
  (forall n, orc n (StoreFindOne key) = false) ->
  (get_doc key orc w).1 = Ret (Ok (snapshot key (data w))).
Proof. intros Hok. unfold_mongo. by rewrite Hok. Qed.

Lemma mongo_run_writes_snoc (orc : oracle) ws key now body (w : world) :
  run_writes orc (ws ++ [(key, now, body)]) w
  = (post_doc key now body orc (run_writes orc ws w)).2.
Proof.
  revert w. induction ws as [|[[k n] b] ws IH]; intros w; [done|]. cbn. apply IH.
Qed.

(** A document write keeps the ids of the backups unique and the number of
    backups within the bound, and brings it within the bound when it
    triggers a backup. *)
Lemma mongo_post_doc_bound key now body (w : world) :
  NoDup (b_id <$> backups (data w)) ->
  let s' := data (post_doc key now body no_faults w).2 in
  NoDup (b_id <$> backups s') /\
  (triggers (data w) = true \/ (length (backups (data w)) <= MAX_BACKUPS)%nat ->
   (length (backups s') <= MAX_BACKUPS)%nat).
Proof.
  intros Hnd.
  destruct (mongo_post_doc_ok key now body no_faults w) as [cs ->]; [done|].
  destruct (mongo_createBackup_no_faults now w) as [cs' ->].
  cbn [snd data]. destruct (triggers (data w)) eqn:Ht; cbn [backups set_store set_backups].
  - pose proof (new_backup_NoDup now _ Hnd) as Hall. split.
    + by apply mongo_retain_NoDup.
    + intros _. rewrite mongo_retain_length by done. lia.
  - split; [done|]. by intros [?|?].
Qed.

Lemma mongo_run_writes_bound ws (w : world) :
  NoDup (b_id <$> backups (data w)) ->
  (length (backups (data w)) <= MAX_BACKUPS)%nat ->
  let s' := data (run_writes no_faults ws w) in
  NoDup (b_id <$> backups s') /\ (length (backups s') <= MAX_BACKUPS)%nat.
Proof.
  revert w. induction ws as [|[[key now] body] ws IH]; intros w Hnd Hle; [done|].
  cbn [run_writes].
  destruct (mongo_post_doc_bound key now body w Hnd) as [Hnd' Hle'].
  apply IH; [done|]. apply Hle'. by right.
Qed.

(** *** Restore *)

Lemma mongo_restore_invalid fn (orc : oracle) (w : world) :
  is_backup_name fn = false ->
  post_restore fn orc w = (Ret (BadRequest "Invalid backup file"), w).
Proof.
  unfold is_backup_name, post_restore, try_catch, ret.
  by destruct (startsWith fn "backup-"), (endsWith fn ".json").
Qed.

Lemma mongo_restore_missing fn (orc : oracle) (w : world) :
  is_backup_name fn = true ->
  find_backup fn (backups (data w)) = None ->
  orc (length (calls w)) (BackupsFindOne fn) = false ->
  post_restore fn orc w =
    (Ret (NotFound "Backup not found"), World (BackupsFindOne fn :: calls w) (data w)).
Proof.
  unfold is_backup_name, post_restore, try_catch, bind, call, attempt, ret.
  intros [-> ->]%andb_prop Hfind Hok. cbn. by rewrite Hok, Hfind.
Qed.

(** Restore writes documents only: the backups, the feed and the photos
    stay as they are, whatever fails. *)
Lemma mongo_restore_frame fn (orc : oracle) (w : world) :
  let s' := data (post_restore fn orc w).2 in
  backups s' = backups (data w) /\ feed s' = feed (data w) /\
  photos s' = photos (data w) /\ uploads s' = uploads (data w).
Proof.
  destruct w as [cs s].
  unfold post_restore, setDoc, try_catch, bind, call, attempt, ret.
  destruct (negb _ || negb _); [done|]. cbn [calls data].
  destruct (orc _ _); [done|].
  destruct (find_backup fn (backups s)) as [b|]; [|done].
  destruct (truthy (b_settings b)), (truthy (b_appdata b)); cbn;
    repeat (destruct (orc _ _); cbn); done.
Qed.


(** *** The update feed *)

Lemma mongo_get_updates_ok (orc : oracle) (w : world) :
  (forall n, orc n (StoreFindOne "updates") = false) ->
  (get_updates orc w).1 = Ret (Ok (default [] (feed (data w)))).
Proof. intros Hok. unfold_mongo. by rewrite Hok. Qed.

(** An insert succeeds and puts the new record at the head of the feed
    whenever the two calls on the feed document succeed; the GridFS upload
    may fail or not. *)
Lemma mongo_post_update_ok e body file (orc : oracle) (w : world) :
  (forall n, orc n (StoreFindOne "updates") = false) ->
  (forall n, orc n (StoreUpdateOne "updates") = false) ->
  let u := new_update e body ((fun f => "/uploads/" +:+ f) <$> file) in
  let r := post_update e body file orc w in
  r.1 = Ret (Ok u) /\
  feed (data r.2) = Some (u :: default [] (feed (data w))) /\
  store (data r.2) = store (data w) /\ backups (data r.2) = backups (data w) /\
  uploads (data r.2) = uploads (data w) /\
  (photos (data r.2) = photos (data w) \/
   exists f g, file = Some f /\ g_filename g = f /\ photos (data r.2) = photos (data w) ++ [g]).
Proof.
  intros Hfind Hupd. destruct w as [cs s].
  unfold post_update, uploadToGridFS. unfold_mongo. cbn [calls data]. rewrite Hfind.
  destruct file as [f|]; cbn.
  - destruct (orc _ (GridUpload f)); cbn; rewrite Hupd; cbn; repeat split; eauto.
    right. eexists _, _. split; [done|]. split; [|done]. done.
  - rewrite Hupd. cbn. repeat split; eauto.
Qed.

(** When the GridFS upload throws, the record still carries the reference
    to the upload, and GridFS holds nothing new. *)
Lemma mongo_post_update_upload_fails e body f (orc : oracle) (w : world) :
  (forall n, orc n (StoreFindOne "updates") = false) ->
  (forall n, orc n (StoreUpdateOne "updates") = false) ->
  orc (S (length (calls w))) (GridUpload f) = true ->
  let u := new_update e body (Some ("/uploads/" +:+ f)) in
  let r := post_update e body (Some f) orc w in
  r.1 = Ret (Ok u) /\
  feed (data r.2) = Some (u :: default [] (feed (data w))) /\
  photos (data r.2) = photos (data w).
Proof.
  intros Hfind Hupd Hfail. destruct w as [cs s]. cbn [calls] in Hfail.
  unfold post_update, uploadToGridFS. unfold_mongo. cbn [calls data].
  rewrite Hfind. cbn. rewrite Hfail. cbn. rewrite Hupd. cbn. done.
Qed.

(** *** Deleting from the feed *)

Lemma grid_delete_run id (orc : oracle) (w : world) :
  grid_delete id orc w =
    if orc (length (calls w)) (GridDelete id)
    then (Throw (Failed (GridDelete id)), World (GridDelete id :: calls w) (data w))
    else (Ret tt, World (GridDelete id :: calls w)
                        (set_photos (filter (fun g => g_id g ≠ id)) (data w))).
Proof. reflexivity. Qed.

Lemma delete_files_frame files (orc : oracle) (w : world) :
  exists r cs ps,
    delete_files files orc w = (r, World cs (set_photos (fun _ => ps) (data w))) /\
    forall g, g ∈ ps -> g ∈ photos (data w).
Proof.
  revert w. induction files as [|file files IH]; intros [cs s].
  - exists (Ret tt), cs, (photos s). split; [by destruct s|done].
  - unfold delete_files in *. cbn [for_each]. unfold bind. rewrite grid_delete_run.
    cbn [calls data]. destruct (orc _ _).
    + eexists _, _, (photos s). split; [by destruct s|done].
    + destruct (IH (World (GridDelete (g_id file) :: cs)
                          (set_photos (filter (fun g => g_id g ≠ g_id file)) s)))
        as (r & cs' & ps & E & Hps).
      rewrite E.
      exists r, cs', ps. split; [done|].
      intros g Hg. apply Hps in Hg. cbn in Hg. by apply list_elem_of_filter in Hg as [_ ?].
Qed.



Lemma mongo_deleteFromGridFS_frame f (orc : oracle) (w : world) :
  exists cs ps,
    try_catch (deleteFromGridFS f) (fun _ => ret tt) orc w
    = (Ret tt, World cs (set_photos (fun _ => ps) (data w))).
Proof.
  destruct w as [cs s].
  unfold try_catch, deleteFromGridFS, grid_find, bind, call, attempt, ret. cbn [calls data].
  destruct (orc _ _).
  - exists (GridFind f :: cs), (photos s). by destruct s.
  - destruct (delete_files_frame (filter (fun g => g_filename g = f) (photos s)) orc
                (World (GridFind f :: cs) s)) as (r & cs' & ps & E & _).
    rewrite E. destruct r as [[]|e]; by eexists _, _.
Qed.

(** Deleting an id the feed does not have. *)
Lemma mongo_delete_absent x (w : world) :
  find_update x (default [] (feed (data w))) = None ->
  exists cs,
    delete_update x no_faults w =
      (Ret (Ok tt), World cs (set_feed (default [] (feed (data w))) (data w))).
Proof.
  intros Hfind. destruct w as [cs s]. cbn [data] in *.
  unfold delete_update. unfold_mongo. cbn [calls data no_faults].
  rewrite Hfind. cbn. rewrite remove_update_absent by done. eauto.
Qed.


(** The cleanup returns whenever the unlink of the local file does not
    throw, whatever GridFS does; it touches the photos and the uploads only. *)
Lemma mongo_delete_photo_frame photo (orc : oracle) (w : world) :
  (forall n f, orc n (FsUnlink f) = false) ->
  exists cs ps ups,
    delete_photo photo orc w =
      (Ret tt, World cs (set_photos (fun _ => ps) (set_uploads (fun _ => ups) (data w)))).
Proof.
  intros Hok. destruct w as [cs s]. unfold delete_photo.
  set (f := remove_first "/uploads/" photo).
  unfold bind at 1, probe at 1. cbn [calls data].
  set (w0 := World (FsExists f :: cs) s).
  assert (exists cs1 ups,
    (if bool_decide (is_Some (uploads s !! f))
     then call (FsUnlink f) (fun s => (tt, set_uploads (delete f) s))
     else ret tt) orc w0 = (Ret tt, World cs1 (set_uploads (fun _ => ups) s)))
    as (cs1 & ups & E1).
  { case_bool_decide.
    - rewrite call_ok_run by apply Hok. by eexists _, _.
    - exists (calls w0), (uploads s). by destruct s. }
  rewrite (bind_ret_run _ _ _ _ _ _ E1).
  destruct (mongo_deleteFromGridFS_frame f orc (World cs1 (set_uploads (fun _ => ups) s)))
    as (cs2 & ps & ->).
  eauto.
Qed.


(** The same delete answers ok and removes the records whenever the calls
    on the feed document and the unlink of the local file do not throw,
    whatever GridFS does. *)
Lemma mongo_delete_gridfs_faults x (orc : oracle) (w : world) :
  (forall n, orc n (StoreFindOne "updates") = false) ->
  (forall n, orc n (StoreUpdateOne "updates") = false) ->
  (forall n f, orc n (FsUnlink f) = false) ->
  exists cs ps ups,
    delete_update x orc w =
      (Ret (Ok tt),
       World cs (set_feed (remove_update x (default [] (feed (data w))))
                   (set_photos (fun _ => ps) (set_uploads (fun _ => ups) (data w))))).
Proof.
  intros Hfind Hupd Hunlink. destruct w as [cs s]. cbn [data] in *.
  unfold delete_update, try_catch at 1. unfold bind at 1.
  unfold getUpdates, try_catch at 1. rewrite call_ok_run by apply Hfind. cbn [fst snd calls data].
  set (w0 := World _ s).
  assert (exists cs1 ps ups,
    match find_update x (default [] (feed s)) ≫= photo_ref with
    | Some photo => delete_photo photo
    | None => ret tt
    end orc w0 = (Ret tt, World cs1 (set_photos (fun _ => ps) (set_uploads (fun _ => ups) s))))
    as (cs1 & ps & ups & E).
  { destruct (_ ≫= _) as [photo|].
    - apply (mongo_delete_photo_frame photo orc w0 Hunlink).
    - exists (calls w0), (photos s), (uploads s). by destruct s. }
  rewrite (bind_ret_run _ _ _ _ _ _ E).
  unfold setUpdates, bind, ret. rewrite call_ok_run by apply Hupd. cbn. eauto.
Qed.

End MongoFacts.

(** ** The file variant *)

Module FsFacts.
Import Fs.

#[global] Instance name_le_total : Total name_le.
Proof. intros a b. apply String.leb_total. Qed.

#[global] Instance name_le_antisym : AntiSymm (=) name_le.
Proof. intros a b. apply String.leb_antisym. Qed.

#[global] Instance name_le_trans : Transitive name_le.
Proof.
  intros a b c. unfold name_le, String.leb.
  destruct (String.compare a b) eqn:Eab; try done;
  destruct (String.compare b c) eqn:Ebc; try done; intros _ _.
  - apply String.compare_eq_iff in Eab. subst a. by rewrite Ebc.
  - apply String.compare_eq_iff in Eab. subst a. by rewrite Ebc.
  - apply String.compare_eq_iff in Ebc. subst c. by rewrite Eab.
  - by rewrite (string_compare_lt_trans _ _ _ Eab Ebc).
Qed.

(** *** The listing of the backup directory *)

Lemma lookup_delete_all names (d : gmap string json) x :
  delete_all names d !! x = if decide (x ∈ names) then None else d !! x.
Proof.
  unfold delete_all.
  revert d. induction names as [|f names IH]; intros d; cbn.
  - by rewrite decide_False by apply not_elem_of_nil.
  - rewrite IH. destruct (decide (x = f)) as [->|Hne].
    + rewrite lookup_delete_eq. rewrite (decide_True (P := f ∈ f :: names)) by left.
      by case_decide.
    + rewrite lookup_delete_ne by done.
      destruct (decide (x ∈ names)) as [Hin|Hnin].
      * by rewrite decide_True by (by right).
      * rewrite decide_False; [done|]. by intros [?|?]%elem_of_cons.
Qed.

Lemma elem_of_backup_names (d : gmap string json) x :
  x ∈ backup_names d <-> is_backup_name x = true /\ is_Some (d !! x).
Proof.
  unfold backup_names. rewrite merge_sort_Permutation, list_elem_of_filter.
  rewrite list_elem_of_fmap. split.
  - intros [? [[k v] [-> Hkv%elem_of_map_to_list]]]. eauto.
  - intros [? [v Hv]]. split; [done|]. exists (x, v). split; [done|].
    by apply elem_of_map_to_list.
Qed.

Lemma NoDup_backup_names (d : gmap string json) : NoDup (backup_names d).
Proof.
  unfold backup_names. rewrite merge_sort_Permutation.
  apply NoDup_filter, NoDup_fst_map_to_list.
Qed.

Lemma Sorted_backup_names (d : gmap string json) : StronglySorted name_le (backup_names d).
Proof. apply StronglySorted_merge_sort; apply _. Qed.

(** Unlinking the first [k] names of the sorted listing leaves the listing
    without its first [k] names. *)
Lemma backup_names_delete_take (d : gmap string json) k :
  backup_names (delete_all (take k (backup_names d)) d) = drop k (backup_names d).
Proof.
  pose proof (NoDup_backup_names d) as Hnd.
  pose proof (Sorted_backup_names d) as Hs.
  rewrite <- (take_drop k (backup_names d)) in Hnd, Hs.
  apply (Sorted_unique name_le).
  - apply StronglySorted_Sorted, Sorted_backup_names.
  - apply StronglySorted_Sorted. by apply StronglySorted_app_1_r in Hs.
  - apply NoDup_Permutation.
    + apply NoDup_backup_names.
    + by apply NoDup_app in Hnd as (_ & _ & ?).
    + intros x. rewrite elem_of_backup_names, lookup_delete_all.
      apply NoDup_app in Hnd as (_ & Hdisj & _).
      split.
      * intros [Hb Hsome]. case_decide as Hin; [by destruct Hsome|].
        assert (x ∈ backup_names d) as Hx by (by apply elem_of_backup_names).
        rewrite <- (take_drop k (backup_names d)) in Hx.
        by apply elem_of_app in Hx as [?|?].
      * intros Hx.
        assert (x ∈ backup_names d) as Hx'.
        { rewrite <- (take_drop k (backup_names d)). apply elem_of_app. by right. }
        apply elem_of_backup_names in Hx' as [Hb Hsome]. split; [done|].
        rewrite decide_False; [done|]. intros Hin. by apply (Hdisj x).
Qed.

Lemma backup_names_retain (d : gmap string json) :
  backup_names (retain d) = drop (length (backup_names d) - MAX_BACKUPS) (backup_names d).
Proof. apply backup_names_delete_take. Qed.

(** *** Reading a document *)

Lemma file_at_doc d s :
  file_at (doc_file d) s
  = Parsed <$> match d with Settings => settings_file s | AppData => appdata_file s end.
Proof. by destruct d. Qed.

Lemma read_or_null_missing p (orc : oracle) (w : world) :
  file_at p (data w) = None ->
  read_or_null p orc w = (Ret JNull, World (ExistsSync p :: calls w) (data w)).
Proof.
  intros Hnone.
  unfold read_or_null, bind, existsSync, probe, ret. cbn [calls data]. rewrite Hnone.
  rewrite bool_decide_eq_false_2; [done|]. by intros [? ?].
Qed.

Lemma read_or_null_parsed p j (orc : oracle) (w : world) :
  file_at p (data w) = Some (Parsed j) ->
  orc (S (length (calls w))) (ReadFileSync p) = false ->
  read_or_null p orc w
  = (Ret j, World (ReadFileSync p :: ExistsSync p :: calls w) (data w)).
Proof.
  intros Hsome Hok.
  unfold read_or_null, bind, existsSync, probe, readJson, attempt. cbn [calls data].
  rewrite Hsome, bool_decide_eq_true_2 by eauto. cbn [calls data length].
  by rewrite Hok, Hsome.
Qed.

Lemma read_or_null_no_faults d (w : world) :
  exists cs, read_or_null (doc_file d) no_faults w = (Ret (snapshot d (data w)), World cs (data w)).
Proof.
  unfold snapshot.
  destruct (match d with Settings => settings_file (data w) | AppData => appdata_file (data w) end)
    as [j|] eqn:E.
  - erewrite read_or_null_parsed; [by eexists| |done]. by rewrite file_at_doc, E.
  - erewrite read_or_null_missing; [by eexists|]. by rewrite file_at_doc, E.
Qed.

(** A read changes no file, whatever it returns or throws. *)
Lemma read_or_null_frame p (orc : oracle) (w : world) :
  exists r cs, read_or_null p orc w = (r, World cs (data w)).
Proof.
  destruct w as [cs s].
  unfold read_or_null, bind, existsSync, probe, readJson, attempt, ret. cbn [calls data].
  case_bool_decide; [|by eexists _, _].
  destruct (orc _ _); [by eexists _, _|].
  destruct (file_at p s) as [[j|b]|] eqn:E; cbn; rewrite ?E; by eexists _, _.
Qed.

(** *** [createBackup] *)

Lemma evict_no_faults files (w : world) :
  exists cs,
    evict files no_faults w =
      (Ret tt, World cs (set_backup_dir
                           (delete_all (take (length files - MAX_BACKUPS) files)) (data w))).
Proof.
  revert w. induction files as [|f rest IH]; intros [cs s].
  - cbn. destruct s; eauto.
  - cbn [evict]. destruct (Nat.ltb_spec MAX_BACKUPS (length (f :: rest))) as [Hlt|Hle].
    + unfold bind, call, attempt. cbn [calls data no_faults].
      destruct (IH (World (UnlinkSync (BACKUP_DIR ++ [f]) :: cs) (set_backup_dir (delete f) s)))
        as [cs' ->].
      exists cs'. f_equal. f_equal. cbn [data length].
      replace (S (length rest) - MAX_BACKUPS)%nat with (S (length rest - MAX_BACKUPS))
        by (cbn [length] in Hlt; lia).
      by destruct s.
    + replace (length (f :: rest) - MAX_BACKUPS)%nat with 0%nat by lia.
      cbn. destruct s; eauto.
Qed.

(** Whatever fails, the loop only unlinks entries of the backup directory. *)
Lemma evict_frame files (orc : oracle) (w : world) :
  exists r cs dir,
    evict files orc w = (r, World cs (set_backup_dir (fun _ => dir) (data w))) /\
    forall name j, dir !! name = Some j -> backup_dir (data w) !! name = Some j.
Proof.
  revert w. induction files as [|f rest IH]; intros [cs s].
  - exists (Ret tt), cs, (backup_dir s). split; [by destruct s|done].
  - cbn [evict]. destruct (MAX_BACKUPS <? length (f :: rest))%nat.
    + unfold bind, call, attempt. cbn [calls data].
      destruct (orc _ _).
      * eexists _, _, (backup_dir s). split; [by destruct s|done].
      * destruct (IH (World (UnlinkSync (BACKUP_DIR ++ [f]) :: cs)
                            (set_backup_dir (delete f) s))) as (r & cs' & dir & -> & Hdir).
        exists r, cs', dir. split; [done|].
        intros name j Hj. apply Hdir in Hj. cbn in Hj.
        by apply lookup_delete_Some in Hj as [_ ?].
    + exists (Ret tt), cs, (backup_dir s). split; [by destruct s|done].
Qed.

(** Whatever fails inside, [createBackup] returns. *)
Lemma fs_createBackup_returns now (orc : oracle) (w : world) :
  exists w', createBackup now orc w = (Ret tt, w').
Proof.
  unfold createBackup, try_catch, probe.
  destruct (createBackup_body now orc w) as [[[]|e] w']; eauto.
Qed.

(** Whatever fails, [createBackup] touches the backup directory only, and
    every file it leaves there is one it found or a new one with a truthy
    snapshot. *)
Lemma fs_createBackup_frame now (orc : oracle) (w : world) :
  exists cs dir,
    createBackup now orc w = (Ret tt, World cs (set_backup_dir (fun _ => dir) (data w))) /\
    forall name j, dir !! name = Some j ->
      backup_dir (data w) !! name = Some j \/ nonempty j = true.
Proof.
  destruct w as [cs s]. cbn [data].
  assert (forall cs', exists cs0 dir,
            probe (A := unit) (ConsoleError "Backup error") (fun _ => tt) orc (World cs' s)
            = (Ret tt, World cs0 (set_backup_dir (fun _ => dir) s)) /\
            forall name j, dir !! name = Some j ->
              backup_dir s !! name = Some j \/ nonempty j = true) as Hsame.
  { intros cs'. eexists _, (backup_dir s). split; [by destruct s|]. by left. }
  unfold createBackup, createBackup_body, try_catch. unfold bind at 1.
  destruct (read_or_null_frame SETTINGS_FILE orc (World cs s)) as ([sd|e] & cs1 & ->);
    cbn [data]; [|apply Hsame].
  unfold bind at 1.
  destruct (read_or_null_frame APPDATA_FILE orc (World cs1 s)) as ([ad|e] & cs2 & ->);
    cbn [data]; [|apply Hsame].
  destruct (negb (truthy sd) && negb (truthy ad)) eqn:Hempty.
  { eexists _, (backup_dir s). split; [by destruct s|]. by left. }
  assert (nonempty (backup_json sd ad) = true) as Hne.
  { unfold nonempty. cbn. by destruct (truthy sd), (truthy ad). }
  unfold bind at 1, call at 1, attempt. cbn [calls data].
  destruct (orc _ _); [apply Hsame|].
  unfold bind at 1, list_backup_names, call at 1, attempt. cbn [calls data].
  destruct (orc _ _).
  { destruct (Hsame (ReaddirSync BACKUP_DIR :: WriteFileSync (BACKUP_DIR ++ [backup_filename now])
                       :: cs2)) as (cs0 & dir & E & _).
    unfold probe in *. eexists _, _. split; [done|].
    cbn. intros name j [[_ <-]|[_ ?]]%lookup_insert_Some; auto. }
  match goal with |- context [evict ?fs orc ?w] =>
    destruct (evict_frame fs orc w) as (r & cs3 & dir & -> & Hdir) end.
  assert (forall name j, dir !! name = Some j ->
            backup_dir s !! name = Some j \/ nonempty j = true) as Hdir'.
  { intros name j Hj. apply Hdir in Hj. cbn in Hj.
    apply lookup_insert_Some in Hj as [[_ <-]|[_ ?]]; auto. }
  destruct r as [[]|e]; unfold probe; cbn; eexists _, dir; (split; [done|exact Hdir']).
Qed.

(** With no document file there, [createBackup] changes nothing, whatever
    fails. *)
Lemma fs_createBackup_absent now (orc : oracle) (w : world) :
  settings_file (data w) = None ->
  appdata_file (data w) = None ->
  exists cs, createBackup now orc w = (Ret tt, World cs (data w)).
Proof.
  intros Hs Ha. unfold createBackup, createBackup_body, try_catch.
  unfold bind at 1. rewrite read_or_null_missing by (by rewrite (file_at_doc Settings), Hs).
  unfold bind at 1.
  rewrite read_or_null_missing by (cbn [data]; by rewrite (file_at_doc AppData), Ha).
  cbn. eauto.
Qed.

(** The run of [createBackup] when no call fails. *)
Lemma fs_createBackup_no_faults now (w : world) :
  exists cs,
    createBackup now no_faults w =
      (Ret tt,
       World cs (if triggers (data w)
                 then set_backup_dir (fun _ => retain (written now (data w))) (data w)
                 else data w)).
Proof.
  destruct w as [cs s]. cbn [data].
  unfold createBackup, createBackup_body, try_catch.
  unfold bind at 1.
  destruct (read_or_null_no_faults Settings (World cs s)) as [cs1 E1].
  cbn [doc_file data] in E1. rewrite E1. unfold bind at 1.
  destruct (read_or_null_no_faults AppData (World cs1 s)) as [cs2 E2].
  cbn [doc_file data] in E2. rewrite E2. unfold triggers.
  destruct (truthy (snapshot Settings s)) eqn:Es, (truthy (snapshot AppData s)) eqn:Ea;
    cbn [negb andb orb].
  4: { unfold ret. eauto. }
  all: unfold bind, call, list_backup_names, call, attempt; cbn [calls data no_faults];
    match goal with |- context [evict ?fs no_faults ?w] =>
      destruct (evict_no_faults fs w) as [cs3 ->] end;
    exists cs3; f_equal; f_equal; by destruct s.
Qed.

(** The file [createBackup] writes is in the listing. *)
Lemma written_listed now s : backup_filename now ∈ backup_names (written now s).
Proof.
  apply elem_of_backup_names. split; [apply is_backup_name_backup_filename|].
  unfold written. rewrite lookup_insert_eq. eauto.
Qed.

Lemma fs_get_backups_no_faults (w : world) :
  get_backups no_faults w =
    (Ret (Ok (rev (backup_names (backup_dir (data w))))),
     World (ReaddirSync BACKUP_DIR :: calls w) (data w)).
Proof. reflexivity. Qed.

(** One backup step: at most [MAX_BACKUPS] backup files are left, the
    unlinked ones are the first in name order, and the listing shows what is
    left, last name first. *)
Lemma fs_rotation now (w : world) :
  triggers (data w) = true ->
  let all := backup_names (written now (data w)) in
  let w' := (createBackup now no_faults w).2 in
  let kept := backup_names (backup_dir (data w')) in
  length kept = Nat.min MAX_BACKUPS (length all) /\
  (exists evicted,
      all = evicted ++ kept /\
      forall d b, d ∈ evicted -> b ∈ kept -> name_le d b) /\
  (get_backups no_faults w').1 = Ret (Ok (rev kept)).
Proof.
  intros Ht all w' kept.
  destruct (fs_createBackup_no_faults now w) as [cs E].
  subst w' kept. rewrite E, Ht, fs_get_backups_no_faults.
  cbn [fst snd data backup_dir set_backup_dir].
  rewrite backup_names_retain. fold all.
  split; [rewrite length_drop; lia|]. split; [|done].
  exists (take (length all - MAX_BACKUPS) all). split; [by rewrite take_drop|].
  intros d b Hd Hb.
  eapply (StronglySorted_app_1_elem_of name_le); [|exact Hd|exact Hb].
  rewrite take_drop. apply Sorted_backup_names.
Qed.

(** *** Document writes *)

(** A [POST] of a document answers ok and stores the body whenever the
    write itself does not fail, whatever fails in the backup before it. *)
Lemma fs_post_doc_ok d now body (orc : oracle) (w : world) :
  (forall n, orc n (WriteFileSync (doc_file d)) = false) ->
  exists cs,
    post_doc d now body orc w =
      (Ret (Ok tt), World cs (stored d body (data (createBackup now orc w).2))).
Proof.
  intros Hok. unfold post_doc, try_catch. unfold bind at 1.
  destruct (fs_createBackup_returns now orc w) as [[cs1 s1] E]. rewrite E.
  unfold bind, write_doc, ret. rewrite call_ok_run by apply Hok. cbn. by destruct d; eauto.
Qed.

Lemma fs_post_doc_snapshot d now body (orc : oracle) (w : world) :
  (forall n, orc n (WriteFileSync (doc_file d)) = false) ->
  (post_doc d now body orc w).1 = Ret (Ok tt) /\
  snapshot d (data (post_doc d now body orc w).2) = body /\
  match d with
  | Settings => settings_file (data (post_doc d now body orc w).2) = Some body
  | AppData => appdata_file (data (post_doc d now body orc w).2) = Some body
  end.
Proof.
  intros Hok. destruct (fs_post_doc_ok d now body orc w Hok) as [cs ->].
  by destruct d.
Qed.

Lemma fs_get_doc_ok d (orc : oracle) (w : world) :
  (forall n, orc n (ReadFileSync (doc_file d)) = false) ->
  (get_doc d orc w).1 = Ret (Ok (snapshot d (data w))).
Proof.
  intros Hok. unfold get_doc, try_catch, snapshot. unfold bind at 1.
  destruct (match d with Settings => settings_file (data w) | AppData => appdata_file (data w) end)
    as [j|] eqn:E.
  - erewrite read_or_null_parsed; [done| |apply Hok]. by rewrite file_at_doc, E.
  - erewrite read_or_null_missing; [done|]. by rewrite file_at_doc, E.
Qed.

Lemma fs_run_writes_snoc (orc : oracle) ws d now body (w : world) :
  run_writes orc (ws ++ [(d, now, body)]) w
  = (post_doc d now body orc (run_writes orc ws w)).2.
Proof.
  revert w. induction ws as [|[[k n] b] ws IH]; intros w; [done|]. cbn. apply IH.
Qed.

(** A document write keeps the number of backup files within the bound,
    and brings it within the bound when it triggers a backup. *)
Lemma fs_post_doc_bound d now body (w : world) :
  triggers (data w) = true
  \/ (length (backup_names (backup_dir (data w))) <= MAX_BACKUPS)%nat ->
  (length (backup_names (backup_dir (data (post_doc d now body no_faults w).2)))
   <= MAX_BACKUPS)%nat.
Proof.
  intros H.
  destruct (fs_post_doc_ok d now body no_faults w) as [cs ->]; [done|].
  destruct (fs_createBackup_no_faults now w) as [cs' ->].
  cbn [snd data]. destruct (triggers (data w)) eqn:Ht.
  - replace (backup_dir (stored d body _)) with (retain (written now (data w)))
      by (by destruct d).
    rewrite backup_names_retain, length_drop. lia.
  - replace (backup_dir (stored d body (data w))) with (backup_dir (data w))
      by (by destruct d).
    by destruct H.
Qed.

Lemma fs_run_writes_bound ws (w : world) :
  (length (backup_names (backup_dir (data w))) <= MAX_BACKUPS)%nat ->
  (length (backup_names (backup_dir (data (run_writes no_faults ws w)))) <= MAX_BACKUPS)%nat.
Proof.
  revert w. induction ws as [|[[d now] body] ws IH]; intros w Hle; [done|].
  cbn [run_writes]. apply IH, fs_post_doc_bound. by right.
Qed.

(** *** Restore *)

Lemma file_at_backup name s :
  file_at (BACKUP_DIR ++ [name]) s = Parsed <$> backup_dir s !! name.
Proof.
  unfold file_at. rewrite !decide_False by done. cbn. by rewrite decide_True.
Qed.


Lemma unlink_at_upload name s :
  unlink_at (UPLOADS_DIR ++ [name]) s = set_uploads_dir (delete name) s.
Proof.
  unfold unlink_at. rewrite !decide_False by done. cbn.
  rewrite decide_False by (by intros [_ [=]]). by rewrite decide_True.
Qed.

Lemma fs_restore_invalid fn (orc : oracle) (w : world) :
  is_backup_name fn = false ->
  post_restore fn orc w = (Ret (BadRequest "Invalid backup file"), w).
Proof.
  unfold is_backup_name, post_restore, try_catch, ret.
  by destruct (startsWith fn "backup-"), (endsWith fn ".json").
Qed.

(** No file at the joined path: not found, after the one [existsSync]. *)
Lemma fs_restore_missing fn (orc : oracle) (w : world) :
  is_backup_name fn = true ->
  file_at (join BACKUP_DIR fn) (data w) = None ->
  post_restore fn orc w =
    (Ret (NotFound "Backup not found"),
     World (ExistsSync (join BACKUP_DIR fn) :: calls w) (data w)).
Proof.
  unfold is_backup_name, post_restore, try_catch, bind, existsSync, probe, ret.
  intros [-> ->]%andb_prop Hnone. cbn. rewrite Hnone.
  rewrite bool_decide_eq_false_2; [done|]. by intros [? ?].
Qed.


(** Restore writes the two document files only, whatever fails. *)
Lemma fs_restore_frame fn (orc : oracle) (w : world) :
  let s' := data (post_restore fn orc w).2 in
  backup_dir s' = backup_dir (data w) /\ updates_file s' = updates_file (data w) /\
  uploads_dir s' = uploads_dir (data w) /\ elsewhere s' = elsewhere (data w).
Proof.
  destruct w as [cs s].
  unfold post_restore, try_catch, bind, existsSync, probe, readJson, prop, write_doc, call,
    attempt, ret, throw.
  destruct (negb _ || negb _); [done|]. cbn [calls data].
  set (p := join BACKUP_DIR fn).
  destruct (file_at p s) as [[j|b]|] eqn:E; cbn; try done;
    (destruct (orc _ _); cbn; rewrite ?E; try done).
  destruct (js_prop "settings" j) as [sd|]; [|done].
  destruct (js_prop "appdata" j) as [ad|].
  - destruct (truthy sd), (truthy ad); cbn; repeat (destruct (orc _ _); cbn); done.
  - destruct (truthy sd); cbn; repeat (destruct (orc _ _); cbn); done.
Qed.

(** *** The update feed *)

Lemma file_at_updates s :
  file_at UPDATES_FILE s = (fun us => Parsed (JArr (update_json <$> us))) <$> updates_file s.
Proof. done. Qed.

Lemma fs_readUpdates_no_faults (w : world) :
  exists cs, readUpdates no_faults w = (Ret (default [] (updates_file (data w))), World cs (data w)).
Proof.
  destruct w as [cs s].
  unfold readUpdates, try_catch, bind, existsSync, probe, attempt, ret.
  cbn [calls data no_faults]. rewrite file_at_updates.
  destruct (updates_file s) as [us|] eqn:E; cbn; rewrite ?E; cbn; eauto.
Qed.

Lemma fs_get_updates_no_faults (w : world) :
  (get_updates no_faults w).1 = Ret (Ok (default [] (updates_file (data w)))).
Proof.
  unfold get_updates. destruct (fs_readUpdates_no_faults w) as [cs E].
  by rewrite (bind_ret_run _ _ _ _ _ _ E).
Qed.

(** An insert puts the new record at the head of the feed. *)
Lemma fs_post_update_no_faults e body file (w : world) :
  let u := new_update e body ((fun f => "/uploads/" +:+ f) <$> file) in
  exists cs,
    post_update e body file no_faults w =
      (Ret (Ok u), World cs (set_updates (Some (u :: default [] (updates_file (data w))))
                                         (data w))).
Proof.
  destruct (fs_readUpdates_no_faults w) as [cs E].
  unfold post_update, try_catch. rewrite (bind_ret_run _ _ _ _ _ _ E).
  unfold bind, writeUpdates, ret. rewrite call_ok_run by done. cbn. eauto.
Qed.

(** Deleting an id the feed does not have. *)
Lemma fs_delete_absent x (w : world) :
  find_update x (default [] (updates_file (data w))) = None ->
  exists cs,
    delete_update x no_faults w =
      (Ret (Ok tt), World cs (set_updates (Some (default [] (updates_file (data w)))) (data w))).
Proof.
  intros Hfind. destruct (fs_readUpdates_no_faults w) as [cs E].
  unfold delete_update, try_catch. rewrite (bind_ret_run _ _ _ _ _ _ E).
  rewrite Hfind. cbn [mbind option_bind].
  unfold bind, writeUpdates, ret. rewrite call_ok_run by done. cbn.
  rewrite remove_update_absent by done. eauto.
Qed.




Lemma fs_delete_photo_returns photo (w : world) :
  exists cs s1, delete_photo photo no_faults w = (Ret tt, World cs s1).
Proof.
  unfold delete_photo, bind, existsSync, probe, ret. cbn [calls data].
  case_bool_decide; [|by eexists _, _].
  rewrite call_ok_run by done. by eexists _, _.
Qed.

(** A delete answers ok and leaves the feed without records of that id. *)
Lemma fs_delete_no_faults x (w : world) :
  exists cs s1,
    delete_update x no_faults w =
      (Ret (Ok tt),
       World cs (set_updates (Some (remove_update x (default [] (updates_file (data w))))) s1)).
Proof.
  destruct (fs_readUpdates_no_faults w) as [cs E].
  unfold delete_update, try_catch. rewrite (bind_ret_run _ _ _ _ _ _ E).
  assert (exists cs1 s1,
    match find_update x (default [] (updates_file (data w))) ≫= photo_ref with
    | Some photo => delete_photo photo
    | None => ret tt
    end no_faults (World cs (data w)) = (Ret tt, World cs1 s1)) as (cs1 & s1 & E1).
  { destruct (_ ≫= _) as [photo|]; [apply fs_delete_photo_returns|by eexists _, _]. }
  rewrite (bind_ret_run _ _ _ _ _ _ E1).
  unfold bind, writeUpdates, ret. rewrite call_ok_run by done. cbn. eauto.
Qed.

End FsFacts.

(** * The claims *)

Import Samples.

(** C1.  A [createBackup] that finds a document (the write that calls it
    triggers a backup) leaves at most [MAX_BACKUPS] = 20 backups, whatever
    the backup store held before: as many as the smaller of 20 and the
    number of backups with the new one counted.  The evicted backups are the
    oldest: each of them was created no later than each backup that is kept
    (MongoDB variant, by [created]), resp. comes no later in the order of
    file names (file variant).  The listing of [GET /api/backups] is exactly
    the backups that are kept, newest first.  Along a sequence of document
    writes that starts with one that triggers a backup, or starts within the
    bound, the bound holds after every write.  The storage calls succeed
    ([no_faults]), and the [_id]s of the collection are unique. *)
Theorem C1_backup_rotation :
  (forall now (w : Mongo.world),
      NoDup (Mongo.b_id <$> Mongo.backups (data w)) ->
      Mongo.triggers (data w) = true ->
      let all := Mongo.backups (data w) ++ [Mongo.new_backup now (data w)] in
      let w' := (Mongo.createBackup now no_faults w).2 in
      let kept := Mongo.backups (data w') in
      (length kept <= MAX_BACKUPS)%nat /\
      length kept = Nat.min MAX_BACKUPS (length all) /\
      (exists evicted,
          all ≡ₚ evicted ++ kept /\
          forall d b, d ∈ evicted -> b ∈ kept -> Mongo.b_created d <= Mongo.b_created b) /\
      (exists listed,
          (Mongo.get_backups no_faults w').1 = Ret (Ok (Mongo.summary <$> listed)) /\
          listed ≡ₚ kept /\ StronglySorted Mongo.newer listed))
  /\
  (forall now (w : Fs.world),
      Fs.triggers (data w) = true ->
      let all := Fs.backup_names (Fs.written now (data w)) in
      let w' := (Fs.createBackup now no_faults w).2 in
      let kept := Fs.backup_names (Fs.backup_dir (data w')) in
      backup_filename now ∈ all /\
      (length kept <= MAX_BACKUPS)%nat /\
      length kept = Nat.min MAX_BACKUPS (length all) /\
      (exists evicted,
          all = evicted ++ kept /\
          forall d b, d ∈ evicted -> b ∈ kept -> Fs.name_le d b) /\
      (Fs.get_backups no_faults w').1 = Ret (Ok (rev kept)))
  /\
  (forall ws (w : Mongo.world),
      NoDup (Mongo.b_id <$> Mongo.backups (data w)) ->
      Mongo.triggers (data w) = true
      \/ (length (Mongo.backups (data w)) <= MAX_BACKUPS)%nat ->
      ws <> [] ->
      (length (Mongo.backups (data (Mongo.run_writes no_faults ws w))) <= MAX_BACKUPS)%nat)
  /\
  (forall ws (w : Fs.world),
      Fs.triggers (data w) = true
      \/ (length (Fs.backup_names (Fs.backup_dir (data w))) <= MAX_BACKUPS)%nat ->
      ws <> [] ->
      (length (Fs.backup_names (Fs.backup_dir (data (Fs.run_writes no_faults ws w))))
       <= MAX_BACKUPS)%nat).
Proof.
  split; [|split; [|split]].
  - intros now w Hnd Ht all w' kept.
    destruct (MongoFacts.mongo_rotation now w Hnd Ht) as (Hlen & Hev & Hls & _).
    fold all w' kept in Hlen, Hev, Hls. repeat split; try done. lia.
  - intros now w Ht all w' kept.
    destruct (FsFacts.fs_rotation now w Ht) as (Hlen & Hev & Hls).
    fold all w' kept in Hlen, Hev, Hls. repeat split; try done; [|lia].
    apply FsFacts.written_listed.
  - intros [|[[key now] body] ws] w Hnd H Hne; [done|]. cbn [Mongo.run_writes].
    destruct (MongoFacts.mongo_post_doc_bound key now body w Hnd) as [Hnd' Hle].
    by apply MongoFacts.mongo_run_writes_bound; [|apply Hle].
  - intros [|[[d now] body] ws] w H Hne; [done|]. cbn [Fs.run_writes].
    by apply FsFacts.fs_run_writes_bound, FsFacts.fs_post_doc_bound.
Qed.

(** C1 at the sample states: one backup there, both documents present. *)
Lemma C1_witness :
  (length (Mongo.backups (data (Mongo.createBackup 1710000000000 no_faults mongo_world).2))
   <= MAX_BACKUPS)%nat
  /\ (length (Fs.backup_names
                (Fs.backup_dir (data (Fs.createBackup 1710000000000 no_faults fs_world).2)))
      <= MAX_BACKUPS)%nat.
Proof.
  destruct C1_backup_rotation as (Hm & Hf & _).
  split.
  - apply (Hm 1710000000000 mongo_world); [|reflexivity].
    vm_compute. apply NoDup_singleton.
  - apply (Hf 1710000000000 fs_world). reflexivity.
Defined.



(** C3, as the claim states it, fails: with the GridFS upload throwing, the
    insert succeeds but the record it creates carries the photo reference
    [/uploads/<filename>]; its photo field is not null. *)
Lemma C3_counterexample :
  let r := Mongo.post_update request_env [("staff", "Asha")] (Some "1710003600001-p0q1r2.jpg")
                             mongo_gridfs_down mongo_world in
  mongo_gridfs_down 1%nat (Mongo.GridUpload "1710003600001-p0q1r2.jpg") = true /\
  Mongo.photos (data r.2) = Mongo.photos (data mongo_world) /\
  exists u, r.1 = Ret (Ok u) /\
            u_photo u = Some "/uploads/1710003600001-p0q1r2.jpg" /\ u_photo u <> None.
Proof.
  cbn zeta. split; [reflexivity|]. split; [reflexivity|].
  eexists. split; [vm_compute; reflexivity|]. split; [reflexivity|discriminate].
Qed.

(** C3, amended.  When photo bytes were supplied and the GridFS upload
    throws, the insert still succeeds: the record is created and is the
    head of the feed; its photo field is the reference [/uploads/<filename>]
    to the file multer wrote to the uploads directory, and GridFS holds
    nothing new.  The upload failure never fails the insert (the calls on
    the feed document are assumed to succeed). *)
Theorem C3_insert_survives_upload_failure :
  forall e body f (orc : Mongo.oracle) (w : Mongo.world),
    (forall n, orc n (Mongo.StoreFindOne "updates") = false) ->
    (forall n, orc n (Mongo.StoreUpdateOne "updates") = false) ->
    orc (S (length (calls w))) (Mongo.GridUpload f) = true ->
    let u := new_update e body (Some ("/uploads/" +:+ f)) in
    let r := Mongo.post_update e body (Some f) orc w in
    r.1 = Ret (Ok u) /\
    u_photo u = Some ("/uploads/" +:+ f) /\
    Mongo.feed (data r.2) = Some (u :: default [] (Mongo.feed (data w))) /\
    (Mongo.get_updates orc r.2).1 = Ret (Ok (u :: default [] (Mongo.feed (data w)))) /\
    Mongo.photos (data r.2) = Mongo.photos (data w).
Proof.
  intros e body f orc w Hfind Hupd Hfail u r.
  destruct (MongoFacts.mongo_post_update_upload_fails e body f orc w Hfind Hupd Hfail)
    as (Hr & Hfeed & Hphotos).
  fold u r in Hr, Hfeed, Hphotos.
  repeat split; try done.
  by rewrite MongoFacts.mongo_get_updates_ok, Hfeed.
Qed.

(** The amended C3 at the sample state, GridFS down. *)
Lemma C3_witness :
  (Mongo.post_update request_env [("staff", "Asha")] (Some "1710003600001-p0q1r2.jpg")
                     mongo_gridfs_down mongo_world).1
  = Ret (Ok (new_update request_env [("staff", "Asha")]
                        (Some "/uploads/1710003600001-p0q1r2.jpg"))).
Proof.
  apply (C3_insert_survives_upload_failure request_env [("staff", "Asha")]
           "1710003600001-p0q1r2.jpg" mongo_gridfs_down mongo_world); reflexivity.
Defined.

(** C4.  With the settings document and the appdata document both absent,
    [createBackup] returns and changes nothing, whatever fails; and,
    whatever the state and whatever fails, a backup that is in the store
    after [createBackup] was there before or has a truthy snapshot: no
    backup is created with both snapshots empty. *)
Theorem C4_no_empty_backup :
  (forall now (orc : Mongo.oracle) (w : Mongo.world),
      Mongo.store (data w) !! "settings" = None ->
      Mongo.store (data w) !! "appdata" = None ->
      (Mongo.createBackup now orc w).1 = Ret tt /\
      data (Mongo.createBackup now orc w).2 = data w)
  /\
  (forall now (orc : Fs.oracle) (w : Fs.world),
      Fs.settings_file (data w) = None ->
      Fs.appdata_file (data w) = None ->
      (Fs.createBackup now orc w).1 = Ret tt /\
      data (Fs.createBackup now orc w).2 = data w)
  /\
  (forall now (orc : Mongo.oracle) (w : Mongo.world) b,
      b ∈ Mongo.backups (data (Mongo.createBackup now orc w).2) ->
      b ∈ Mongo.backups (data w) \/ Mongo.nonempty b = true)
  /\
  (forall now (orc : Fs.oracle) (w : Fs.world) name j,
      Fs.backup_dir (data (Fs.createBackup now orc w).2) !! name = Some j ->
      Fs.backup_dir (data w) !! name = Some j \/ Fs.nonempty j = true).
Proof.
  split; [|split; [|split]].
  - intros now orc w Hs Ha.
    destruct (MongoFacts.mongo_createBackup_absent now orc w Hs Ha) as [cs E]. rewrite E. by split.
  - intros now orc w Hs Ha.
    destruct (FsFacts.fs_createBackup_absent now orc w Hs Ha) as [cs E]. rewrite E. by split.
  - intros now orc w b.
    destruct (MongoFacts.mongo_createBackup_frame now orc w) as (_ & _ & _ & _ & H).
    apply H.
  - intros now orc w name j.
    destruct (FsFacts.fs_createBackup_frame now orc w) as (cs & dir & -> & H).
    apply H.
Qed.

(** C4 at the fresh states. *)
Lemma C4_witness :
  data (Mongo.createBackup 1710000000000 no_faults mongo_fresh).2 = data mongo_fresh
  /\ data (Fs.createBackup 1710000000000 no_faults fs_fresh).2 = data fs_fresh.
Proof.
  destruct C4_no_empty_backup as (Hm & Hf & _).
  split.
  - apply (Hm 1710000000000 no_faults mongo_fresh); reflexivity.
  - apply (Hf 1710000000000 no_faults fs_fresh); reflexivity.
Defined.

(** C5, where the file variant departs from the claim.  The file name
    [backup-/../../appdata.json] (the route parameter of
    [POST /api/backups/restore/backup-%2F..%2F..%2Fappdata.json]) passes the
    name test, [path.join(BACKUP_DIR, filename)] is the appdata document,
    and with no backup at all the restore answers ok, not 404, and
    overwrites the settings document with the [settings] property of the
    appdata document. *)
Theorem C5_restore_follows_dot_dot :
  let fn := "backup-/../../appdata.json" in
  let r := Fs.post_restore fn no_faults fs_no_backups in
  is_backup_name fn = true /\
  Fs.backup_dir (data fs_no_backups) = ∅ /\
  Fs.join Fs.BACKUP_DIR fn = Fs.APPDATA_FILE /\
  r.1 = Ret (Ok tt) /\
  Fs.settings_file (data fs_no_backups) = Some settings2 /\
  Fs.settings_file (data r.2) = Some settings1.
Proof. cbn zeta. repeat split; vm_compute; reflexivity. Qed.

(** The MongoDB variant does what C5 says: a name that fails the test is
    answered 400 before any call (the calls and the data are as before), and
    a well-formed name that no backup has is answered 404, after the one
    [findOne] and with the data as before. *)
Theorem mongo_restore_rejects :
  (forall fn (orc : Mongo.oracle) (w : Mongo.world),
      is_backup_name fn = false ->
      Mongo.post_restore fn orc w = (Ret (BadRequest "Invalid backup file"), w))
  /\
  (forall fn (orc : Mongo.oracle) (w : Mongo.world),
      is_backup_name fn = true ->
      Mongo.find_backup fn (Mongo.backups (data w)) = None ->
      orc (length (calls w)) (Mongo.BackupsFindOne fn) = false ->
      Mongo.post_restore fn orc w
      = (Ret (NotFound "Backup not found"), World (Mongo.BackupsFindOne fn :: calls w) (data w))).
Proof.
  split.
  - apply MongoFacts.mongo_restore_invalid.
  - apply MongoFacts.mongo_restore_missing.
Qed.

Lemma mongo_restore_rejects_witness :
  Mongo.post_restore "../etc/passwd" no_faults mongo_world
  = (Ret (BadRequest "Invalid backup file"), mongo_world)
  /\ (Mongo.post_restore "backup-2020.json" no_faults mongo_world).1
     = Ret (NotFound "Backup not found").
Proof.
  destruct mongo_restore_rejects as [Hbad Hmiss]. split.
  - apply Hbad. reflexivity.
  - rewrite Hmiss; reflexivity.
Defined.

(** The file variant does what C5 says for a name that fails the test, and
    for a well-formed name that is a single path component and names no
    file of the backup directory. *)
Theorem fs_restore_rejects :
  (forall fn (orc : Fs.oracle) (w : Fs.world),
      is_backup_name fn = false ->
      Fs.post_restore fn orc w = (Ret (BadRequest "Invalid backup file"), w))
  /\
  (forall fn (orc : Fs.oracle) (w : Fs.world),
      is_backup_name fn = true ->
      plain_name fn = true ->
      Fs.backup_dir (data w) !! fn = None ->
      Fs.post_restore fn orc w
      = (Ret (NotFound "Backup not found"),
         World (Fs.ExistsSync (Fs.BACKUP_DIR ++ [fn]) :: calls w) (data w))).
Proof.
  split.
  - apply FsFacts.fs_restore_invalid.
  - intros fn orc w Hname Hplain Hnone.
    rewrite <- (PathFacts.join_plain Fs.BACKUP_DIR fn) by done.
    apply FsFacts.fs_restore_missing; [done|].
    rewrite PathFacts.join_plain by done. by rewrite FsFacts.file_at_backup, Hnone.
Qed.

Lemma fs_restore_rejects_witness :
  Fs.post_restore "../etc/passwd" no_faults fs_world
  = (Ret (BadRequest "Invalid backup file"), fs_world)
  /\ (Fs.post_restore "backup-2020.json" no_faults fs_world).1
     = Ret (NotFound "Backup not found").
Proof.
  destruct fs_restore_rejects as [Hbad Hmiss]. split.
  - apply Hbad. reflexivity.
  - rewrite Hmiss; reflexivity.
Defined.




(** C7.  An insert with no photo and with the fields staff, message, type
    and day blank (not sent, or empty) creates the record with staff
    "Anonymous", message "", type "general", day 0, photo null, and the id
    and timestamp the server makes from its clock and [Math.random],
    whatever else the form holds; after the insert the record is element 0
    of [list()], followed by the records that were there, in their order.
    The storage calls succeed. *)
Theorem C7_insert_defaults :
  forall e body,
    blank "staff" body -> blank "message" body -> blank "type" body -> blank "day" body ->
    let u := Update (new_id e) "Anonymous" "" "general" 0 None (toISOString (date_ms e)) in
    (forall w : Mongo.world,
        let r := Mongo.post_update e body None no_faults w in
        r.1 = Ret (Ok u) /\
        exists before,
          (Mongo.get_updates no_faults w).1 = Ret (Ok before) /\
          (Mongo.get_updates no_faults r.2).1 = Ret (Ok (u :: before)))
    /\
    (forall w : Fs.world,
        let r := Fs.post_update e body None no_faults w in
        r.1 = Ret (Ok u) /\
        exists before,
          (Fs.get_updates no_faults w).1 = Ret (Ok before) /\
          (Fs.get_updates no_faults r.2).1 = Ret (Ok (u :: before))).
Proof.
  intros e body Hs Hm Ht Hd u. split.
  - intros w r.
    destruct (MongoFacts.mongo_post_update_ok e body None no_faults w)
      as (Hr & Hfeed & _); [done..|].
    cbn [fmap option_fmap option_map] in Hr, Hfeed.
    rewrite new_update_blank in Hr, Hfeed by done. fold u r in Hr, Hfeed.
    split; [done|]. exists (default [] (Mongo.feed (data w))).
    rewrite !MongoFacts.mongo_get_updates_ok by done. by rewrite Hfeed.
  - intros w r.
    destruct (FsFacts.fs_post_update_no_faults e body None w) as [cs E].
    cbn [fmap option_fmap option_map] in E.
    rewrite new_update_blank in E by done. fold u in E.
    subst r. rewrite E. split; [done|]. exists (default [] (Fs.updates_file (data w))).
    by rewrite !FsFacts.fs_get_updates_no_faults.
Qed.

(** C7 for a form that sends an empty day and an id of its own. *)
Lemma C7_witness :
  (Mongo.post_update request_env [("day", ""); ("id", "mine")] None no_faults mongo_world).1
  = Ret (Ok (Update (new_id request_env) "Anonymous" "" "general" 0 None
                    (toISOString (date_ms request_env)))).
Proof.
  apply (C7_insert_defaults request_env [("day", ""); ("id", "mine")]);
    first [by left | by right].
Defined.

(** C8.  After a sequence of document writes that ends with a write of
    [body] to the settings, the settings document is [body] and
    [GET /api/settings] returns [body]: the last write wins, whatever the
    earlier values were.  Only the reads and writes of the settings document
    itself must succeed; the backups before the writes may fail. *)
Theorem C8_last_write_wins :
  (forall (orc : Mongo.oracle) ws now body (w : Mongo.world),
      (forall n, orc n (Mongo.StoreUpdateOne "settings") = false) ->
      (forall n, orc n (Mongo.StoreFindOne "settings") = false) ->
      let before := Mongo.run_writes orc ws w in
      let after := Mongo.run_writes orc (ws ++ [("settings", now, body)]) w in
      (Mongo.post_doc "settings" now body orc before).1 = Ret (Ok tt) /\
      Mongo.store (data after) !! "settings" = Some body /\
      (Mongo.get_doc "settings" orc after).1 = Ret (Ok body))
  /\
  (forall (orc : Fs.oracle) ws now body (w : Fs.world),
      (forall n, orc n (Fs.WriteFileSync Fs.SETTINGS_FILE) = false) ->
      (forall n, orc n (Fs.ReadFileSync Fs.SETTINGS_FILE) = false) ->
      let before := Fs.run_writes orc ws w in
      let after := Fs.run_writes orc (ws ++ [(Fs.Settings, now, body)]) w in
      (Fs.post_doc Fs.Settings now body orc before).1 = Ret (Ok tt) /\
      Fs.settings_file (data after) = Some body /\
      (Fs.get_doc Fs.Settings orc after).1 = Ret (Ok body)).
Proof.
  split.
  - intros orc ws now body w Hupd Hfind before after.
    destruct (MongoFacts.mongo_post_doc_store "settings" now body orc before Hupd)
      as [Hok Hstore].
    assert (Mongo.store (data after) !! "settings" = Some body) as Hlook.
    { subst after. rewrite MongoFacts.mongo_run_writes_snoc. fold before.
      by rewrite Hstore, lookup_insert_eq. }
    repeat split; try done.
    rewrite MongoFacts.mongo_get_doc_ok by done. unfold Mongo.snapshot. by rewrite Hlook.
  - intros orc ws now body w Hupd Hfind before after.
    destruct (FsFacts.fs_post_doc_snapshot Fs.Settings now body orc before Hupd)
      as (Hok & Hsnap & Hfile).
    subst after. rewrite FsFacts.fs_run_writes_snoc. fold before.
    repeat split; try done.
    rewrite FsFacts.fs_get_doc_ok by done. by rewrite Hsnap.
Qed.

(** C8 for three writes, with every call on the backups failing. *)
Lemma C8_witness :
  (Mongo.get_doc "settings" mongo_backups_down
     (Mongo.run_writes mongo_backups_down
        ([("settings", 1710000000000, settings1); ("appdata", 1710000001000, appdata1)]
         ++ [("settings", 1710000002000, settings2)]) mongo_fresh)).1
  = Ret (Ok settings2)
  /\ (Fs.get_doc Fs.Settings fs_backups_down
        (Fs.run_writes fs_backups_down
           ([(Fs.Settings, 1710000000000, settings1); (Fs.AppData, 1710000001000, appdata1)]
            ++ [(Fs.Settings, 1710000002000, settings2)]) fs_fresh)).1
     = Ret (Ok settings2).
Proof.
  destruct C8_last_write_wins as [Hm Hf]. split.
  - apply Hm; reflexivity.
  - apply Hf; reflexivity.
Defined.

(** C9.  Deleting an id that no record of the feed has answers ok and
    leaves [list()] as it was, and the photos too; and deleting any id a
    second time answers ok and leaves [list()] as the first delete left it.
    The storage calls succeed. *)
Theorem C9_delete_absent_id :
  (forall x (w : Mongo.world),
      (forall u, u ∈ default [] (Mongo.feed (data w)) -> u_id u ≠ x) ->
      let r := Mongo.delete_update x no_faults w in
      r.1 = Ret (Ok tt) /\
      (Mongo.get_updates no_faults r.2).1 = (Mongo.get_updates no_faults w).1 /\
      Mongo.photos (data r.2) = Mongo.photos (data w) /\
      Mongo.uploads (data r.2) = Mongo.uploads (data w))
  /\
  (forall x (w : Fs.world),
      (forall u, u ∈ default [] (Fs.updates_file (data w)) -> u_id u ≠ x) ->
      let r := Fs.delete_update x no_faults w in
      r.1 = Ret (Ok tt) /\
      (Fs.get_updates no_faults r.2).1 = (Fs.get_updates no_faults w).1 /\
      Fs.uploads_dir (data r.2) = Fs.uploads_dir (data w))
  /\
  (forall x (w : Mongo.world),
      let once := Mongo.delete_update x no_faults w in
      let twice := Mongo.delete_update x no_faults once.2 in
      once.1 = Ret (Ok tt) /\ twice.1 = Ret (Ok tt) /\
      (Mongo.get_updates no_faults twice.2).1 = (Mongo.get_updates no_faults once.2).1)
  /\
  (forall x (w : Fs.world),
      let once := Fs.delete_update x no_faults w in
      let twice := Fs.delete_update x no_faults once.2 in
      once.1 = Ret (Ok tt) /\ twice.1 = Ret (Ok tt) /\
      (Fs.get_updates no_faults twice.2).1 = (Fs.get_updates no_faults once.2).1).
Proof.
  split; [|split; [|split]].
  - intros x w Habsent r.
    destruct (MongoFacts.mongo_delete_absent x w (find_update_none _ _ Habsent)) as [cs E].
    subst r. rewrite E. rewrite !MongoFacts.mongo_get_updates_ok by done. done.
  - intros x w Habsent r.
    destruct (FsFacts.fs_delete_absent x w (find_update_none _ _ Habsent)) as [cs E].
    subst r. rewrite E. by rewrite !FsFacts.fs_get_updates_no_faults.
  - intros x w once twice.
    destruct (MongoFacts.mongo_delete_gridfs_faults x no_faults w) as (cs & ps & ups & E);
      [done..|].
    subst twice once. rewrite E. cbn [fst snd].
    match goal with |- context [Mongo.delete_update x no_faults ?w1] =>
      destruct (MongoFacts.mongo_delete_absent x w1) as [cs' E'];
        [apply find_update_removed|] end.
    rewrite E'. rewrite !MongoFacts.mongo_get_updates_ok by done. done.
  - intros x w once twice.
    destruct (FsFacts.fs_delete_no_faults x w) as (cs & s1 & E).
    subst twice once. rewrite E. cbn [fst snd].
    match goal with |- context [Fs.delete_update x no_faults ?w1] =>
      destruct (FsFacts.fs_delete_absent x w1) as [cs' E'] end.
    { destruct s1. apply find_update_removed. }
    rewrite E'. rewrite !FsFacts.fs_get_updates_no_faults. by destruct s1.
Qed.

(** C9 at the sample states. *)
Lemma C9_witness :
  (Mongo.delete_update "nosuchid" no_faults mongo_world).1 = Ret (Ok tt)
  /\ (Fs.delete_update "nosuchid" no_faults fs_world).1 = Ret (Ok tt).
Proof.
  destruct C9_delete_absent_id as (Hm & Hf & _). split.
  - apply (Hm "nosuchid" mongo_world). intros u Hu.
    apply elem_of_cons in Hu as [->|Hu]; [discriminate|].
    apply elem_of_cons in Hu as [->|Hu]; [discriminate|].
    by apply elem_of_nil in Hu.
  - apply (Hf "nosuchid" fs_world). intros u Hu.
    apply elem_of_cons in Hu as [->|Hu]; [discriminate|].
    apply elem_of_cons in Hu as [->|Hu]; [discriminate|].
    by apply elem_of_nil in Hu.
Defined.

(** C10.  [createBackup] returns, whatever storage call fails inside it;
    so a [POST] of a document answers ok and stores the body whenever its
    own write does not fail. *)
Theorem C10_backup_never_blocks :
  (forall now (orc : Mongo.oracle) (w : Mongo.world),
      exists w', Mongo.createBackup now orc w = (Ret tt, w'))
  /\
  (forall now (orc : Fs.oracle) (w : Fs.world),
      exists w', Fs.createBackup now orc w = (Ret tt, w'))
  /\
  (forall key now body (orc : Mongo.oracle) (w : Mongo.world),
      (forall n, orc n (Mongo.StoreUpdateOne key) = false) ->
      (Mongo.post_doc key now body orc w).1 = Ret (Ok tt) /\
      Mongo.store (data (Mongo.post_doc key now body orc w).2) !! key = Some body)
  /\
  (forall d now body (orc : Fs.oracle) (w : Fs.world),
      (forall n, orc n (Fs.WriteFileSync (Fs.doc_file d)) = false) ->
      (Fs.post_doc d now body orc w).1 = Ret (Ok tt) /\
      Fs.snapshot d (data (Fs.post_doc d now body orc w).2) = body).
Proof.
  split; [|split; [|split]].
  - apply MongoFacts.mongo_createBackup_returns.
  - apply FsFacts.fs_createBackup_returns.
  - intros key now body orc w Hok.
    destruct (MongoFacts.mongo_post_doc_store key now body orc w Hok) as [-> ->].
    by rewrite lookup_insert_eq.
  - intros d now body orc w Hok.
    by destruct (FsFacts.fs_post_doc_snapshot d now body orc w Hok) as (-> & -> & _).
Qed.

(** C10 at the sample states, with every call on the backups failing. *)
Lemma C10_witness :
  (Mongo.post_doc "settings" 1710000000000 settings1 mongo_backups_down mongo_world).1
  = Ret (Ok tt)
  /\ (Fs.post_doc Fs.Settings 1710000000000 settings1 fs_backups_down fs_world).1
     = Ret (Ok tt).
Proof.
  destruct C10_backup_never_blocks as (_ & _ & Hm & Hf). split.
  - apply Hm. reflexivity.
  - apply Hf. reflexivity.
Defined.

(** * More of the code *)

(** ** Dates in order *)

Lemma doe_table : ascending (Z.to_nat 146097) 0 0 = true.
Proof. vm_compute. reflexivity. Qed.

Lemma ascending_spec n doe prev k :
  ascending n doe prev = true -> doe <= k < doe + Z.of_nat n ->
  date_ok (civil_of_doe k) = true /\
  (doe < k -> date_num (civil_of_doe (k - 1)) < date_num (civil_of_doe k)).
Proof.
  revert doe prev. induction n as [|n IH]; intros doe prev H Hk; [lia|].
  cbn [ascending] in H. apply andb_true_iff in H as [H Hrest].
  apply andb_true_iff in H as [Hok Hprev].
  destruct (decide (k = doe)) as [->|Hne]; [split; [done|lia]|].
  destruct (IH (doe + 1) _ Hrest) as [Hk1 Hk2]; [lia|]. split; [done|].
  intros _. destruct (decide (k = doe + 1)) as [->|Hne'].
  - replace (doe + 1 - 1) with doe by lia.
    destruct n as [|n]; [lia|]. cbn [ascending] in Hrest.
    apply andb_true_iff in Hrest as [H _]. apply andb_true_iff in H as [_ H]. lia.
  - apply Hk2. lia.
Qed.

Lemma civil_of_doe_ok k : 0 <= k < 146097 -> date_ok (civil_of_doe k) = true.
Proof. intros Hk. apply (ascending_spec _ _ _ k doe_table). lia. Qed.

Lemma civil_of_doe_mono a b :
  0 <= a -> a < b -> b < 146097 -> date_num (civil_of_doe a) < date_num (civil_of_doe b).
Proof.
  intros Ha Hab. pattern b. apply (Zlt_lower_bound_ind _ (a + 1)); [|lia].
  clear b Hab. intros b IH Hb Hlt.
  assert (date_num (civil_of_doe (b - 1)) < date_num (civil_of_doe b)) as Hstep.
  { apply (ascending_spec _ _ _ b doe_table); lia. }
  destruct (decide (b = a + 1)) as [->|Hne].
  - by replace (a + 1 - 1) with a in Hstep by lia.
  - specialize (IH (b - 1)). lia.
Qed.

Lemma civil_of_days_era days :
  civil_of_days days
  = let '(y, m, d) := civil_of_doe ((days + 719468) mod 146097) in
    (y + (days + 719468) / 146097 * 400, m, d).
Proof.
  unfold civil_of_days, civil_of_doe. cbv zeta.
  rewrite Z.mod_eq by lia.
  replace ((days + 719468) / 146097 * 146097) with (146097 * ((days + 719468) / 146097)) by lia.
  f_equal. f_equal. lia.
Qed.

Lemma date_num_civil_of_days days :
  date_num (civil_of_days days)
  = date_num (civil_of_doe ((days + 719468) mod 146097))
    + (days + 719468) / 146097 * 166400.
Proof.
  rewrite civil_of_days_era.
  destruct (civil_of_doe _) as [[y m] d]. unfold date_num. lia.
Qed.

Lemma civil_of_days_ok days : date_ok (civil_of_days days) = true.
Proof.
  rewrite civil_of_days_era.
  pose proof (civil_of_doe_ok ((days + 719468) mod 146097)) as H.
  destruct (civil_of_doe _) as [[y m] d]. apply H.
  apply Z.mod_pos_bound. lia.
Qed.

Lemma civil_of_days_mono a b :
  a < b -> date_num (civil_of_days a) < date_num (civil_of_days b).
Proof.
  intros Hab. rewrite !date_num_civil_of_days.
  set (za := a + 719468). set (zb := b + 719468).
  assert (za < zb) as Hz by lia.
  pose proof (Z.mod_pos_bound za 146097 ltac:(lia)) as Ha.
  pose proof (Z.mod_pos_bound zb 146097 ltac:(lia)) as Hb.
  pose proof (Z.div_mod za 146097 ltac:(lia)) as Ea.
  pose proof (Z.div_mod zb 146097 ltac:(lia)) as Eb.
  destruct (decide (za / 146097 = zb / 146097)) as [Heq|Hne].
  - rewrite Heq. apply Z.add_lt_mono_r. apply civil_of_doe_mono; lia.
  - assert (za / 146097 + 1 <= zb / 146097) as Hera by nia.
    assert (date_num (civil_of_doe (za mod 146097)) <= date_num (civil_of_doe 146096)) as H1.
    { destruct (decide (za mod 146097 = 146096)) as [->|?]; [lia|].
      apply Z.lt_le_incl, civil_of_doe_mono; lia. }
    assert (date_num (civil_of_doe 0) <= date_num (civil_of_doe (zb mod 146097))) as H2.
    { destruct (decide (zb mod 146097 = 0)) as [->|?]; [lia|].
      apply Z.lt_le_incl, civil_of_doe_mono; lia. }
    assert (date_num (civil_of_doe 146096) < date_num (civil_of_doe 0) + 166400) as H3
      by (vm_compute; reflexivity).
    nia.
Qed.

(** ** Comparing fixed-width fields *)

Lemma ascii_compare_refl c : Ascii.compare c c = Eq.
Proof. unfold Ascii.compare. apply N.compare_refl. Qed.

Lemma compare_refl s : String.compare s s = Eq.
Proof. induction s as [|c s IH]; [done|]. cbn. by rewrite ascii_compare_refl. Qed.

Lemma compare_app_l p a b : String.compare (p +:+ a) (p +:+ b) = String.compare a b.
Proof.
  induction p as [|c p IH]; [done|]. rewrite !append_cons. cbn [String.compare].
  by rewrite ascii_compare_refl.
Qed.

Lemma compare_app_len a1 a2 b1 b2 :
  String.length a1 = String.length a2 ->
  String.compare (a1 +:+ b1) (a2 +:+ b2)
  = match String.compare a1 a2 with Eq => String.compare b1 b2 | c => c end.
Proof.
  revert a2. induction a1 as [|c1 a1 IH]; intros [|c2 a2] Hlen; try done.
  rewrite !append_cons. cbn [String.compare].
  destruct (Ascii.compare c1 c2); [|done..]. apply IH. by injection Hlen.
Qed.

Lemma length_pad w n : String.length (pad w n) = w.
Proof.
  revert n. induction w as [|w IH]; intros n; [done|].
  cbn [pad]. rewrite length_append, IH. cbn. lia.
Qed.

Lemma compare_digit_char x y :
  0 <= x < 10 -> 0 <= y < 10 -> Ascii.compare (digit_char x) (digit_char y) = (x ?= y).
Proof.
  intros Hx Hy.
  assert (x = 0 \/ x = 1 \/ x = 2 \/ x = 3 \/ x = 4 \/ x = 5 \/ x = 6 \/ x = 7 \/ x = 8 \/ x = 9)
    as Hx' by lia.
  assert (y = 0 \/ y = 1 \/ y = 2 \/ y = 3 \/ y = 4 \/ y = 5 \/ y = 6 \/ y = 7 \/ y = 8 \/ y = 9)
    as Hy' by lia.
  clear Hx Hy.
  repeat (destruct Hx' as [->|Hx']; [|]); repeat (destruct Hy' as [->|Hy']; [|]); subst;
    reflexivity.
Qed.

Lemma compare_div_mod k x y :
  0 < k ->
  (x ?= y) = match (x / k ?= y / k) with Eq => (x mod k ?= y mod k) | c => c end.
Proof.
  intros Hk.
  pose proof (Z.div_mod x k ltac:(lia)). pose proof (Z.div_mod y k ltac:(lia)).
  pose proof (Z.mod_pos_bound x k Hk). pose proof (Z.mod_pos_bound y k Hk).
  destruct (Z.compare_spec (x / k) (y / k)) as [E|L|G].
  - destruct (Z.compare_spec (x mod k) (y mod k)); [apply Z.compare_eq_iff|apply Z.compare_lt_iff|apply Z.compare_gt_iff]; nia.
  - apply Z.compare_lt_iff. nia.
  - apply Z.compare_gt_iff. nia.
Qed.

Lemma compare_pad w x y :
  0 <= x < 10 ^ Z.of_nat w -> 0 <= y < 10 ^ Z.of_nat w ->
  String.compare (pad w x) (pad w y) = (x ?= y).
Proof.
  revert x y. induction w as [|w IH]; intros x y Hx Hy.
  - cbn in *. symmetry. apply Z.compare_eq_iff. lia.
  - cbn [pad]. rewrite compare_app_len by (by rewrite !length_pad).
    rewrite Nat2Z.inj_succ, Z.pow_succ_r in Hx, Hy by lia.
    rewrite IH.
    2,3: split; [apply Z.div_pos; lia|apply Z.div_lt_upper_bound; lia].
    rewrite (compare_div_mod 10 x y) by lia.
    destruct (x / 10 ?= y / 10); [|done..].
    cbn [String.compare]. rewrite compare_digit_char by (apply Z.mod_pos_bound; lia).
    by destruct (x mod 10 ?= y mod 10).
Qed.

(** ** The file name of a backup *)

Lemma replace_colon_dot_app a b :
  replace_colon_dot (a +:+ b) = replace_colon_dot a +:+ replace_colon_dot b.
Proof. induction a as [|c a IH]; [done|]. rewrite append_cons. cbn [replace_colon_dot]. by rewrite IH. Qed.

Lemma replace_colon_dot_pad w n : replace_colon_dot (pad w n) = pad w n.
Proof.
  revert n. induction w as [|w IH]; intros n; [done|].
  cbn [pad]. rewrite replace_colon_dot_app, IH. f_equal.
  pose proof (Z.mod_pos_bound n 10 ltac:(lia)) as H.
  assert (n mod 10 = 0 \/ n mod 10 = 1 \/ n mod 10 = 2 \/ n mod 10 = 3 \/ n mod 10 = 4 \/
          n mod 10 = 5 \/ n mod 10 = 6 \/ n mod 10 = 7 \/ n mod 10 = 8 \/ n mod 10 = 9) as H' by lia.
  repeat (destruct H' as [->|H']; [reflexivity|]). by rewrite H'.
Qed.

Lemma civil_year_range ms y m d :
  in_years ms -> civil_of_days (ms / 86400000) = (y, m, d) -> 0 <= y <= 9999.
Proof.
  intros [Hlo Hhi] E.
  assert (-719528 <= ms / 86400000) as Hd1 by (Z.div_mod_to_equations; lia).
  assert (ms / 86400000 <= 2932896) as Hd2 by (Z.div_mod_to_equations; lia).
  pose proof (civil_of_days_ok (ms / 86400000)) as Hok.
  assert (date_num (civil_of_days (-719528)) <= date_num (civil_of_days (ms / 86400000))) as H1.
  { destruct (decide (ms / 86400000 = -719528)) as [->|?]; [lia|].
    apply Z.lt_le_incl, civil_of_days_mono. lia. }
  assert (date_num (civil_of_days (ms / 86400000)) <= date_num (civil_of_days 2932896)) as H2.
  { destruct (decide (ms / 86400000 = 2932896)) as [->|?]; [lia|].
    apply Z.lt_le_incl, civil_of_days_mono. lia. }
  rewrite E in *. 
  change (date_num (civil_of_days (-719528))) with 33 in H1.
  change (date_num (civil_of_days 2932896)) with ((9999 * 13 + 12) * 32 + 31) in H2.
  unfold date_num, date_ok in *. lia.
Qed.

Lemma backup_filename_stamp ms y m d :
  in_years ms -> civil_of_days (ms / 86400000) = (y, m, d) ->
  backup_filename ms
  = "backup-" +:+ stamp y m d (ms mod 86400000 / 3600000) (ms mod 86400000 / 60000 mod 60)
                        (ms mod 86400000 / 1000 mod 60) (ms mod 86400000 mod 1000)
    +:+ ".json".
Proof.
  intros Hin E. pose proof (civil_year_range ms y m d Hin E) as Hy.
  unfold backup_filename, toISOString, stamp. rewrite E. cbv zeta.
  assert ((0 <=? y) && (y <=? 9999) = true) as -> by lia.
  rewrite !replace_colon_dot_app, !replace_colon_dot_pad. reflexivity.
Qed.

Lemma compare_stamp y1 m1 d1 h1 mi1 s1 ms1 y2 m2 d2 h2 mi2 s2 ms2 :
  0 <= y1 <= 9999 -> 0 <= y2 <= 9999 -> 0 <= m1 < 100 -> 0 <= m2 < 100 ->
  0 <= d1 < 100 -> 0 <= d2 < 100 -> 0 <= h1 < 100 -> 0 <= h2 < 100 ->
  0 <= mi1 < 100 -> 0 <= mi2 < 100 -> 0 <= s1 < 100 -> 0 <= s2 < 100 ->
  0 <= ms1 < 1000 -> 0 <= ms2 < 1000 ->
  String.compare (stamp y1 m1 d1 h1 mi1 s1 ms1) (stamp y2 m2 d2 h2 mi2 s2 ms2)
  = match y1 ?= y2 with Eq =>
      match m1 ?= m2 with Eq =>
        match d1 ?= d2 with Eq =>
          match h1 ?= h2 with Eq =>
            match mi1 ?= mi2 with Eq =>
              match s1 ?= s2 with Eq => ms1 ?= ms2 | c => c end
            | c => c end
          | c => c end
        | c => c end
      | c => c end
    | c => c end.
Proof.
  intros. unfold stamp.
  repeat (rewrite compare_app_len by (by rewrite !length_pad);
          rewrite compare_pad by (cbn; lia);
          rewrite ?(compare_app_l "-"), ?(compare_app_l "T")).
  by destruct (ms1 ?= ms2).
Qed.

Lemma length_stamp y m d h mi s ms : String.length (stamp y m d h mi s ms) = 24%nat.
Proof. unfold stamp. rewrite !length_append, !length_pad. reflexivity. Qed.

(** ** Upload names *)

Lemma has_slash_substring a n s : has_slash s = false -> has_slash (substring a n s) = false.
Proof.
  revert a n. induction s as [|c s IH]; intros a n Hs.
  - by destruct a, n.
  - cbn in Hs. apply orb_false_iff in Hs as [Hc Hs].
    destruct a as [|a]; [|by apply IH].
    destruct n as [|n]; [done|]. cbn. by rewrite Hc, IH.
Qed.

(** The characters of [s] from [a] up to [b] have no [/] among them. *)
Lemma has_slash_slice a b s :
  (forall j, (a <= j < b)%nat -> list_ascii_of_string s !! j ≠ Some "/"%char) ->
  has_slash (slice a b s) = false.
Proof.
  unfold slice. revert a b. induction s as [|c s IH]; intros a b H.
  - by destruct (b - a)%nat, a.
  - destruct a as [|a].
    + destruct b as [|b]; [done|]. cbn.
      specialize (IH 0%nat b). rewrite Nat.sub_0_r in IH. rewrite IH.
      * rewrite orb_false_r. apply Ascii.eqb_neq. intros ->.
        by apply (H 0%nat); [lia|].
      * intros j Hj. apply (H (S j)). lia.
    + cbn [substring]. replace (b - S a)%nat with (Nat.pred b - a)%nat by lia. apply IH.
      intros j Hj. apply (H (S j)). lia.
Qed.

Lemma extname_loop_marked cs before after st :
  cs = rev before ++ after ->
  marked cs (length before) st ->
  exists n, marked cs n (extname_loop before st).
Proof.
  revert after st. induction before as [|code rest IH]; intros after st Hcs Hst; [by eexists|].
  cbn [extname_loop].
  assert (cs = rev rest ++ code :: after) as Hcs'.
  { rewrite Hcs. cbn [rev]. by rewrite <- app_assoc. }
  assert (cs !! length rest = Some code) as Hcode.
  { rewrite Hcs'. rewrite lookup_app_r by (rewrite length_rev; lia).
    by rewrite length_rev, Nat.sub_diag. }
  unfold marked in Hst. cbn [length] in Hst.
  destruct (Ascii.eqb code "/") eqn:Hslash.
  - destruct (scan_end st) as [e|] eqn:He.
    + destruct Hst as (Hm & Hrest). rewrite Hm. cbn [negb].
      exists (S (length rest)). unfold marked. cbn. done.
    + destruct Hst as (Hd & Hm). rewrite Hm. cbn [negb].
      apply (IH (code :: after)); [done|]. unfold marked. by rewrite He.
  - apply Ascii.eqb_neq in Hslash.
    apply (IH (code :: after)); [done|].
    assert (forall j e, (forall j, (S (length rest) <= j < e)%nat -> cs !! j ≠ Some "/"%char) ->
                        (length rest <= j < e)%nat -> cs !! j ≠ Some "/"%char) as Hext.
    { intros j e H Hj. destruct (decide (j = length rest)) as [->|?]; [congruence|].
      apply H. lia. }
    unfold marked.
    destruct (scan_end st) as [e|] eqn:He.
    + destruct Hst as (Hm & Hle & Hns & Hsd).
      destruct (Ascii.eqb code "."); destruct (startDot st) as [sd|] eqn:Hd; cbn;
        rewrite ?He; try (destruct (negb _)); cbn; rewrite ?He, ?Hd;
        (split; [done|]); (split; [lia|]); (split; [by eauto|]);
        intros sd' [= <-]; try (specialize (Hsd _ eq_refl)); lia.
    + destruct Hst as [Hd Hm]. rewrite Hd.
      destruct (Ascii.eqb code "."); cbn;
        (split; [done|]); (split; [lia|]);
        (split; [intros j Hj; replace j with (length rest) by lia; congruence|]);
        intros sd' [=]; lia.
Qed.

Lemma has_slash_extname p : has_slash (extname p) = false.
Proof.
  unfold extname.
  destruct (extname_loop_marked (list_ascii_of_string p) (rev (list_ascii_of_string p)) []
              (Scan None 0 None true 0)) as [n Hn].
  { by rewrite rev_involutive, app_nil_r. }
  { done. }
  destruct (startDot _) as [sd|] eqn:Hd; [|done].
  destruct (scan_end _) as [e|] eqn:He; [|done].
  destruct (_ || _); [done|].
  apply has_slash_slice. intros j Hj.
  unfold marked in Hn. rewrite He in Hn. destruct Hn as (_ & _ & Hns & Hsd).
  specialize (Hsd _ Hd). apply Hns. lia.
Qed.

Lemma digit_char_digit d :
  0 <= d < 10 ->
  Ascii.eqb (digit_char d) "/" = false /\ Ascii.eqb (digit_char d) "." = false.
Proof.
  intros Hd.
  assert (d = 0 \/ d = 1 \/ d = 2 \/ d = 3 \/ d = 4 \/ d = 5 \/ d = 6 \/ d = 7 \/ d = 8 \/ d = 9)
    as H by lia.
  repeat (destruct H as [->|H]; [done|]). by subst.
Qed.

Lemma base10_digits_plain fuel n acc :
  has_slash acc = false -> no_dot_head acc \/ (0 < fuel)%nat ->
  has_slash (base10_digits fuel n acc) = false /\ no_dot_head (base10_digits fuel n acc).
Proof.
  revert n acc. induction fuel as [|fuel IH]; intros n acc Hacc Hhead.
  - cbn. split; [done|]. destruct Hhead; [done|lia].
  - cbn [base10_digits].
    destruct (digit_char_digit (n mod 10)) as [Hs Hd]; [apply Z.mod_pos_bound; lia|].
    assert (has_slash (String (digit_char (n mod 10)) acc) = false) as Hacc'
      by (cbn; by rewrite Hs).
    destruct (n <? 10); [done|]. apply IH; [done|by left].
Qed.

Lemma toString10_plain n : has_slash (toString10 n) = false /\ no_dot_head (toString10 n).
Proof.
  unfold toString10. destruct (n <? 0).
  - rewrite append_cons. cbn [has_slash no_dot_head]. split; [|done].
    apply (base10_digits_plain _ _ ""); [done|right; lia].
  - apply base10_digits_plain; [done|right; lia].
Qed.

Lemma plain_name_no_dot_head s : has_slash s = false -> no_dot_head s -> plain_name s = true.
Proof.
  unfold plain_name. intros -> Hhead. destruct s as [|c s]; [done|]. cbn in Hhead.
  cbn [String.eqb]. by rewrite Hhead.
Qed.

(** Whatever the original name, the name multer stores a photo under is
    one path component. *)
Lemma upload_filename_plain e originalname :
  has_slash (random36 e) = false -> plain_name (upload_filename e originalname) = true.
Proof.
  intros Hrandom. unfold upload_filename.
  destruct (toString10_plain (now_ms e)) as [Hs Hhead].
  apply plain_name_no_dot_head.
  - rewrite !has_slash_app, Hs. cbn [orb has_slash]. unfold slice.
    rewrite has_slash_substring by done. cbn.
    destruct (String.eqb _ ""); [done|apply has_slash_extname].
  - destruct (toString10 (now_ms e)); [done|]. by rewrite append_cons.
Qed.

(** ** Update ids *)

Lemma digit_char_inj x y : 0 <= x < 36 -> 0 <= y < 36 -> digit_char x = digit_char y -> x = y.
Proof.
  intros Hx Hy H. unfold digit_char in H.
  apply (f_equal nat_of_ascii) in H.
  rewrite !nat_ascii_embedding in H by (repeat case_match; lia).
  repeat case_match; lia.
Qed.

Lemma base36_digits_length k :
  forall fuel n acc,
    36 ^ Z.of_nat k <= n < 36 ^ Z.of_nat (S k) -> (k < fuel)%nat ->
    String.length (base36_digits fuel n acc) = (S k + String.length acc)%nat.
Proof.
  induction k as [|k IH]; intros fuel n acc Hn Hfuel.
  - destruct fuel as [|fuel]; [lia|]. cbn [base36_digits].
    change (36 ^ Z.of_nat 1) with 36 in Hn. by assert ((n <? 36) = true) as -> by lia.
  - destruct fuel as [|fuel]; [lia|]. cbn [base36_digits].
    rewrite !Nat2Z.inj_succ, !Z.pow_succ_r in Hn by lia.
    rewrite Nat2Z.inj_succ, Z.pow_succ_r in IH by lia.
    assert (0 < 36 ^ Z.of_nat k) by (apply Z.pow_pos_nonneg; lia).
    assert ((n <? 36) = false) as -> by nia.
    rewrite IH; [cbn; lia| |lia].
    split; [apply Z.div_le_lower_bound; lia|apply Z.div_lt_upper_bound; lia].
Qed.

Lemma base36_digits_inj k :
  forall fuel1 fuel2 n1 n2 acc1 acc2,
    36 ^ Z.of_nat k <= n1 < 36 ^ Z.of_nat (S k) ->
    36 ^ Z.of_nat k <= n2 < 36 ^ Z.of_nat (S k) ->
    (k < fuel1)%nat -> (k < fuel2)%nat ->
    base36_digits fuel1 n1 acc1 = base36_digits fuel2 n2 acc2 ->
    String.length acc1 = String.length acc2 ->
    n1 = n2 /\ acc1 = acc2.
Proof.
  induction k as [|k IH]; intros fuel1 fuel2 n1 n2 acc1 acc2 Hn1 Hn2 Hf1 Hf2 Heq Hlen.
  - destruct fuel1 as [|fuel1], fuel2 as [|fuel2]; try lia. cbn [base36_digits] in Heq.
    change (36 ^ Z.of_nat 1) with 36 in Hn1, Hn2. change (36 ^ Z.of_nat 0) with 1 in Hn1, Hn2.
    assert ((n1 <? 36) = true) as E1 by lia. assert ((n2 <? 36) = true) as E2 by lia.
    rewrite E1, E2 in Heq. injection Heq as Hd ->. split; [|done].
    apply digit_char_inj in Hd; [|apply Z.mod_pos_bound; lia..].
    rewrite !Z.mod_small in Hd by lia. done.
  - destruct fuel1 as [|fuel1], fuel2 as [|fuel2]; try lia. cbn [base36_digits] in Heq.
    rewrite !Nat2Z.inj_succ, !Z.pow_succ_r in Hn1, Hn2 by lia.
    rewrite Nat2Z.inj_succ, Z.pow_succ_r in IH by lia.
    assert (0 < 36 ^ Z.of_nat k) by (apply Z.pow_pos_nonneg; lia).
    assert ((n1 <? 36) = false) as E1 by nia. assert ((n2 <? 36) = false) as E2 by nia.
    rewrite E1, E2 in Heq.
    apply IH in Heq as [Hq Hacc]; try lia.
    + injection Hacc as Hd ->. split; [|done].
      apply digit_char_inj in Hd; [|apply Z.mod_pos_bound; lia..].
      rewrite (Z.div_mod n1 36), (Z.div_mod n2 36) by lia. congruence.
    + split; [apply Z.div_le_lower_bound; lia|apply Z.div_lt_upper_bound; lia].
    + split; [apply Z.div_le_lower_bound; lia|apply Z.div_lt_upper_bound; lia].
    + cbn. by rewrite Hlen.
Qed.

Lemma append_inj_length a1 a2 b1 b2 :
  String.length a1 = String.length a2 -> a1 +:+ b1 = a2 +:+ b2 -> a1 = a2.
Proof.
  revert a2. induction a1 as [|c a1 IH]; intros [|c2 a2] Hlen H; try done.
  rewrite !append_cons in H. injection H as -> H. f_equal. apply IH; [by injection Hlen|done].
Qed.

Lemma toString36_eight n :
  eight_digits n ->
  toString36 n = base36_digits (S (Z.to_nat (Z.log2 n))) n "" /\
  (7 < S (Z.to_nat (Z.log2 n)))%nat.
Proof.
  unfold eight_digits. intros Hn. unfold toString36.
  assert ((n <? 0) = false) as -> by lia. split; [done|].
  assert (36 <= Z.log2 n); [|lia].
  apply Z.log2_le_pow2; [lia|]. change (2 ^ 36) with 68719476736. lia.
Qed.

Lemma new_id_inj e1 e2 :
  eight_digits (now_ms e1) -> eight_digits (now_ms e2) ->
  new_id e1 = new_id e2 -> now_ms e1 = now_ms e2.
Proof.
  intros H1 H2 Heq. unfold new_id in Heq.
  destruct (toString36_eight _ H1) as [E1 Hf1], (toString36_eight _ H2) as [E2 Hf2].
  pose proof (base36_digits_length 7 _ (now_ms e1) "" H1 Hf1) as L1.
  pose proof (base36_digits_length 7 _ (now_ms e2) "" H2 Hf2) as L2.
  apply append_inj_length in Heq; [|by rewrite E1, E2, L1, L2].
  rewrite E1, E2 in Heq.
  by apply (base36_digits_inj 7) in Heq as [? _].
Qed.

(** ** Photo references *)

Lemma photo_ref_new_update e body photo :
  photo_ref (new_update e body photo) = photo ≫= fun p => if String.eqb p "" then None else Some p.
Proof. by destruct photo. Qed.

Lemma feed_refs_nil : feed_refs [].
Proof. intros u photo Hu. by apply elem_of_nil in Hu. Qed.

Lemma feed_refs_cons u us :
  (forall photo, photo_ref u = Some photo -> upload_ref photo) ->
  feed_refs us -> feed_refs (u :: us).
Proof.
  intros Hu Hus v photo [->|Hv]%elem_of_cons Hphoto; [by apply Hu|by apply (Hus v)].
Qed.

Lemma feed_refs_remove x us : feed_refs us -> feed_refs (remove_update x us).
Proof.
  intros Hus u photo Hu Hphoto. apply (Hus u); [|done].
  by apply list_elem_of_filter in Hu as [_ ?].
Qed.

Lemma upload_ref_new e body file photo :
  (forall f, file = Some f -> plain_name f = true) ->
  photo_ref (new_update e body ((fun f => "/uploads/" +:+ f) <$> file)) = Some photo ->
  upload_ref photo.
Proof.
  intros Hfile. rewrite photo_ref_new_update. destruct file as [f|]; [|done]. cbn.
  intros [= <-]. exists f. split; [by apply Hfile|done].
Qed.



(** ** The MongoDB variant, route by route *)

Module MongoRoutes.
Import Mongo MongoFacts MongoApp.

(** A read of a document returns, and changes nothing: it yields the
    stored value, or null when the read throws. *)
Lemma mongo_getDoc_run key (orc : oracle) (w : world) :
  exists v cs,
    getDoc key orc w = (Ret v, World cs (data w)) /\
    (v = snapshot key (data w) \/ v = JNull).
Proof.
  destruct w as [cs s]. unfold getDoc, snapshot, try_catch, call, attempt, probe. cbn.
  destruct (orc _ _); cbn; eauto.
Qed.

Lemma mongo_getUpdates_run (orc : oracle) (w : world) :
  exists us cs,
    getUpdates orc w = (Ret us, World cs (data w)) /\ (us = feed (data w) \/ us = None).
Proof.
  destruct w as [cs s]. unfold getUpdates, try_catch, call, attempt, probe. cbn.
  destruct (orc _ _); cbn; eauto.
Qed.

(** The restore of a backup, when no call fails: each truthy snapshot is
    written over its document. *)
Lemma mongo_restore_no_faults fn b (w : world) :
  is_backup_name fn = true ->
  find_backup fn (backups (data w)) = Some b ->
  exists cs,
    post_restore fn no_faults w =
      (Ret (Ok tt),
       World cs
         (set_store
            (fun m =>
               let m := if truthy (b_settings b) then <["settings" := b_settings b]> m else m in
               if truthy (b_appdata b) then <["appdata" := b_appdata b]> m else m)
            (data w))).
Proof.
  unfold is_backup_name, post_restore, setDoc, try_catch, bind, call, attempt, ret.
  intros [-> ->]%andb_prop Hfind. cbn. rewrite Hfind. destruct w as [cs s]. cbn.
  destruct (truthy (b_settings b)), (truthy (b_appdata b)); cbn; eauto.
  destruct s; eauto.
Qed.

(** The write of a document when no call fails. *)
Lemma mongo_post_doc_no_faults key now body (w : world) :
  exists cs,
    post_doc key now body no_faults w =
      (Ret (Ok tt),
       World cs (set_store (insert key body)
                   (if triggers (data w)
                    then set_backups (fun bs => retain (bs ++ [new_backup now (data w)])) (data w)
                    else data w))).
Proof.
  destruct (mongo_post_doc_ok key now body no_faults w) as [cs E]; [done|].
  destruct (mongo_createBackup_no_faults now w) as [cs' E'].
  rewrite E' in E. eauto.
Qed.

(** The newest backup is not the one evicted. *)
Lemma mongo_retain_new bs b :
  NoDup (b_id <$> (bs ++ [b])) ->
  (forall d, d ∈ bs -> b_created d < b_created b) ->
  b ∈ retain (bs ++ [b]).
Proof.
  intros Hnd Hnew. set (all := bs ++ [b]) in *.
  pose proof (mongo_retain_split all Hnd) as Hsplit.
  pose proof (mongo_retain_length all Hnd) as Hlen.
  assert (b ∈ oldest (length all - MAX_BACKUPS) all ++ retain all) as Hin.
  { rewrite <- Hsplit. apply elem_of_app. right. by apply list_elem_of_singleton. }
  apply elem_of_app in Hin as [Hold|]; [|done]. exfalso.
  assert (exists k, k ∈ retain all) as [k Hk].
  { assert (length all = S (length bs)) as Hall by (unfold all; rewrite length_app; cbn; lia).
    rewrite Hall in Hlen. unfold MAX_BACKUPS in Hlen.
    destruct (retain all) as [|k kept]; [cbn [length] in Hlen; lia|]. exists k. left. }
  pose proof (mongo_retain_newest all b k Hnd Hold Hk) as Hle. unfold older in Hle.
  assert (k ∈ all) as Hkall by (rewrite Hsplit; apply elem_of_app; by right).
  apply elem_of_app in Hkall as [Hkbs|Hkb%list_elem_of_singleton].
  - specialize (Hnew k Hkbs). lia.
  - subst k. rewrite Hsplit, fmap_app in Hnd. apply NoDup_app in Hnd as (_ & Hdis & _).
    apply (Hdis (b_id b)); by apply list_elem_of_fmap_2.
Qed.

Lemma find_backup_app_new fn bs b :
  (forall d, d ∈ bs -> b_filename d ≠ fn) -> b_filename b = fn ->
  forall kept, kept `sublist_of` bs ++ [b] -> b ∈ kept -> find_backup fn kept = Some b.
Proof.
  intros Hold Hb kept Hsub Hin. unfold find_backup.
  induction kept as [|k kept IH]; [by apply elem_of_nil in Hin|].
  assert (k ∈ bs ++ [b]) as Hk by (eapply elem_of_sublist; [left|done]).
  cbn. destruct (decide (b_filename k = fn)) as [Hname|Hname].
  - rewrite bool_decide_eq_true_2 by done.
    apply elem_of_app in Hk as [Hk|Hk%list_elem_of_singleton]; [by apply Hold in Hk|by subst].
  - rewrite bool_decide_eq_false_2 by done. apply IH.
    + trans (k :: kept); [by constructor|done].
    + apply elem_of_cons in Hin as [?|?]; [congruence|done].
Qed.

Lemma retain_sublist all : retain all `sublist_of` all.
Proof.
  unfold retain. destruct (_ <? _)%nat; [|done]. unfold delete_ids. apply sublist_filter.
Qed.

Lemma mongo_truthy_snapshot key s :
  truthy (snapshot key s) = true -> store s !! key = Some (snapshot key s).
Proof. unfold snapshot. by destruct (store s !! key). Qed.

(** A write, then the restore of the backup the write made. *)
Lemma mongo_undo key now body (w : world) :
  NoDup (b_id <$> backups (data w)) ->
  (forall d, d ∈ backups (data w) -> b_created d < now) ->
  (forall d, d ∈ backups (data w) -> b_filename d ≠ backup_filename now) ->
  triggers (data w) = true ->
  let w1 := (post_doc key now body no_faults w).2 in
  let r := post_restore (backup_filename now) no_faults w1 in
  r.1 = Ret (Ok tt) /\
  forall k, k = "settings" \/ k = "appdata" ->
    store (data r.2) !! k
    = if truthy (snapshot k (data w)) then store (data w) !! k else store (data w1) !! k.
Proof.
  intros Hnd Hnew Hname Ht w1 r.
  destruct (mongo_post_doc_no_faults key now body w) as [cs E].
  rewrite Ht in E. subst r w1. rewrite E. cbn [snd].
  set (nb := new_backup now (data w)) in *.
  assert (find_backup (backup_filename now) (retain (backups (data w) ++ [nb])) = Some nb)
    as Hfind.
  { apply (find_backup_app_new _ (backups (data w))); [done|done|apply retain_sublist|].
    apply mongo_retain_new; [by apply new_backup_NoDup|done]. }
  match goal with |- context [post_restore ?fn no_faults ?w1] =>
    destruct (mongo_restore_no_faults fn nb w1) as [cs' E'];
      [apply is_backup_name_backup_filename|apply Hfind|] end.
  rewrite E'. split; [done|]. cbn.
  intros k [->| ->].
  - destruct (truthy (snapshot "settings" (data w))) eqn:Hs.
    + apply mongo_truthy_snapshot in Hs. rewrite Hs.
      destruct (truthy (snapshot "appdata" (data w)));
        [rewrite lookup_insert_ne by done|]; by rewrite lookup_insert_eq.
    + destruct (truthy (snapshot "appdata" (data w))); [by rewrite lookup_insert_ne|done].
  - destruct (truthy (snapshot "appdata" (data w))) eqn:Ha.
    + apply mongo_truthy_snapshot in Ha. by rewrite Ha, lookup_insert_eq.
    + destruct (truthy (snapshot "settings" (data w))); [by rewrite lookup_insert_ne|done].
Qed.

(** *** What a route leaves alone, whatever fails *)

Lemma mongo_get_doc_run key (orc : oracle) (w : world) :
  exists v cs,
    get_doc key orc w = (Ret (Ok v), World cs (data w)) /\
    (v = snapshot key (data w) \/ v = JNull).
Proof.
  destruct (mongo_getDoc_run key orc w) as (v & cs & E & Hv).
  exists v, cs. split; [|done].
  unfold get_doc, try_catch, bind, ret. by rewrite E.
Qed.

Lemma mongo_get_updates_run (orc : oracle) (w : world) :
  exists us cs,
    get_updates orc w = (Ret (Ok us), World cs (data w)) /\
    (us = default [] (feed (data w)) \/ us = []).
Proof.
  destruct (mongo_getUpdates_run orc w) as (us & cs & E & Hus).
  exists (default [] us), cs. split.
  - unfold get_updates, try_catch, bind, ret. by rewrite E.
  - destruct Hus as [-> | ->]; auto.
Qed.

Lemma mongo_get_backups_run (orc : oracle) (w : world) :
  exists l cs,
    get_backups orc w = (Ret (Ok l), World cs (data w)) /\
    (l = summary <$> merge_sort newer (backups (data w)) \/ l = []).
Proof.
  destruct w as [cs s]. unfold get_backups, try_catch, bind, call, attempt, ret. cbn [calls data].
  destruct (orc _ _); cbn; eauto.
Qed.

Lemma mongo_get_upload_frame f (orc : oracle) (w : world) :
  data (get_upload f orc w).2 = data w.
Proof.
  destruct w as [cs s].
  unfold get_upload, grid_find, try_catch, bind, probe, call, attempt, ret. cbn [calls data].
  destruct (uploads s !! f); [done|]. destruct (orc _ _); [done|]. cbn. by destruct (last _).
Qed.

(** A document write, whatever fails: the backup step returns, then the
    write of the document decides the answer. *)
Lemma mongo_post_doc_run key now body (orc : oracle) (w : world) :
  let w1 := (createBackup now orc w).2 in
  post_doc key now body orc w =
    if orc (length (calls w1)) (StoreUpdateOne key)
    then (Ret (ServerError (Failed (StoreUpdateOne key))),
          World (StoreUpdateOne key :: calls w1) (data w1))
    else (Ret (Ok tt),
          World (StoreUpdateOne key :: calls w1) (set_store (insert key body) (data w1))).
Proof.
  cbn zeta. destruct (mongo_createBackup_returns now orc w) as [w1 E].
  unfold post_doc, try_catch. unfold bind at 1. rewrite E. cbn [snd].
  unfold setDoc, bind, call, attempt, ret. by destruct (orc _ _).
Qed.

Lemma mongo_post_doc_frame key now body (orc : oracle) (w : world) :
  let s := data w in
  let s' := data (post_doc key now body orc w).2 in
  feed s' = feed s /\ photos s' = photos s /\ uploads s' = uploads s /\
  (store s' = store s \/ store s' = <[key := body]> (store s)) /\
  forall b, b ∈ backups s' -> b ∈ backups s \/ nonempty b = true.
Proof.
  cbn zeta. rewrite mongo_post_doc_run.
  pose proof (mongo_createBackup_frame now orc w) as H. cbn zeta in H.
  destruct H as (Hst & Hf & Hp & Hu & Hb).
  destruct (orc _ _); cbn; rewrite ?Hst; auto 10.
Qed.

Lemma mongo_post_update_frame e body file (orc : oracle) (w : world) :
  let s := data w in
  let s' := data (post_update e body file orc w).2 in
  let u := new_update e body ((fun f => "/uploads/" +:+ f) <$> file) in
  store s' = store s /\ backups s' = backups s /\ uploads s' = uploads s /\
  (feed s' = feed s \/ feed s' = Some (u :: default [] (feed s)) \/ feed s' = Some [u]) /\
  (photos s' = photos s \/
   exists f g, file = Some f /\ g_filename g = f /\ photos s' = photos s ++ [g]).
Proof.
  destruct w as [cs s].
  unfold post_update, uploadToGridFS. unfold_mongo. cbn [calls data].
  destruct file as [f|]; cbn; repeat (destruct (orc _ _); cbn); repeat split; eauto 10.
  all: right; eexists _, _; split; [done|]; split; [|done]; done.
Qed.

Lemma mongo_deleteFromGridFS_any f (orc : oracle) (w : world) :
  exists cs ps,
    try_catch (deleteFromGridFS f) (fun _ => ret tt) orc w
    = (Ret tt, World cs (set_photos (fun _ => ps) (data w))) /\
    forall g, g ∈ ps -> g ∈ photos (data w).
Proof.
  destruct w as [cs s].
  unfold try_catch, deleteFromGridFS, grid_find, bind, call, attempt, ret. cbn [calls data].
  destruct (orc _ _).
  - exists (GridFind f :: cs), (photos s). split; [by destruct s|done].
  - destruct (delete_files_frame (filter (fun g => g_filename g = f) (photos s)) orc
                (World (GridFind f :: cs) s)) as (r & cs' & ps & E & Hps).
    rewrite E. destruct r as [[]|e]; by eexists _, _.
Qed.

(** The cleanup of a photo touches the uploads and the GridFS files only,
    and only removes. *)
Lemma mongo_delete_photo_any photo (orc : oracle) (w : world) :
  exists r cs ps ups,
    delete_photo photo orc w =
      (r, World cs (set_photos (fun _ => ps) (set_uploads (fun _ => ups) (data w)))) /\
    (forall g, g ∈ ps -> g ∈ photos (data w)) /\ ups ⊆ uploads (data w).
Proof.
  destruct w as [cs s]. unfold delete_photo.
  set (f := remove_first "/uploads/" photo).
  unfold bind at 1, probe at 1. cbn [calls data].
  case_bool_decide.
  - unfold bind at 1, call, attempt. cbn [calls data].
    destruct (orc _ _).
    + exists (Throw (Failed (FsUnlink f))), (FsUnlink f :: FsExists f :: cs), (photos s),
        (uploads s).
      split; [by destruct s|done].
    + destruct (mongo_deleteFromGridFS_any f orc
                  (World (FsUnlink f :: FsExists f :: cs) (set_uploads (delete f) s)))
        as (cs2 & ps & E & Hps).
      rewrite E. exists (Ret tt), cs2, ps, (delete f (uploads s)).
      split; [done|]. split; [done|apply delete_subseteq].
  - unfold bind at 1. unfold ret at 1.
    destruct (mongo_deleteFromGridFS_any f orc (World (FsExists f :: cs) s))
      as (cs2 & ps & E & Hps).
    rewrite E. exists (Ret tt), cs2, ps, (uploads s).
    split; [by destruct s|done].
Qed.

Lemma mongo_delete_update_any x (orc : oracle) (w : world) :
  exists r cs fd ps ups,
    delete_update x orc w
    = (r, World cs (State (store (data w)) fd (backups (data w)) ps ups)) /\
    (forall g, g ∈ ps -> g ∈ photos (data w)) /\ ups ⊆ uploads (data w) /\
    (fd = feed (data w) \/ fd = Some (remove_update x (default [] (feed (data w))))
     \/ fd = Some []).
Proof.
  destruct w as [cs s]. cbn [data].
  unfold delete_update, try_catch at 1. unfold bind at 1.
  destruct (mongo_getUpdates_run orc (World cs s)) as (us & cs0 & E0 & Hus). rewrite E0.
  cbn [data] in *.
  set (w0 := World cs0 s).
  assert (exists r cs1 ps ups,
    match find_update x (default [] us) ≫= photo_ref with
    | Some photo => delete_photo photo
    | None => ret tt
    end orc w0 = (r, World cs1 (set_photos (fun _ => ps) (set_uploads (fun _ => ups) s))) /\
    (forall g, g ∈ ps -> g ∈ photos s) /\ ups ⊆ uploads s)
    as (r & cs1 & ps & ups & E & Hps & Hups).
  { destruct (_ ≫= _) as [photo|].
    - apply (mongo_delete_photo_any photo orc w0).
    - exists (Ret tt), cs0, (photos s), (uploads s). split; [by destruct s|done]. }
  unfold bind at 1. rewrite E. destruct r as [[]|err].
  - unfold setUpdates, bind, call, attempt, ret. cbn [calls data].
    destruct (orc _ _); cbn; eexists _, _, _, ps, ups; (split; [reflexivity|]); auto.
    repeat split; auto. destruct Hus as [-> | ->]; auto.
  - unfold ret. eexists _, _, _, ps, ups. split; [reflexivity|]. auto.
Qed.

Lemma mongo_delete_update_frame x (orc : oracle) (w : world) :
  let s := data w in
  let s' := data (delete_update x orc w).2 in
  store s' = store s /\ backups s' = backups s /\
  (forall g, g ∈ photos s' -> g ∈ photos s) /\ uploads s' ⊆ uploads s /\
  (feed s' = feed s \/ feed s' = Some (remove_update x (default [] (feed s)))
   \/ feed s' = Some []).
Proof.
  cbn zeta. destruct (mongo_delete_update_any x orc w) as (r & cs & fd & ps & ups & E & H).
  rewrite E. cbn. tauto.
Qed.

(** When the read of the feed throws, the insert goes on with an empty
    feed and writes it back. *)
Lemma mongo_post_update_read_fails e body file (orc : oracle) (w : world) :
  orc (length (calls w)) (StoreFindOne "updates") = true ->
  (forall n, orc n (StoreUpdateOne "updates") = false) ->
  let u := new_update e body ((fun f => "/uploads/" +:+ f) <$> file) in
  let r := post_update e body file orc w in
  r.1 = Ret (Ok u) /\ feed (data r.2) = Some [u].
Proof.
  intros Hfail Hupd. destruct w as [cs s]. cbn [calls] in Hfail.
  unfold post_update, uploadToGridFS. unfold_mongo. cbn [calls data].
  rewrite Hfail. destruct file as [f|]; cbn.
  - destruct (orc _ (GridUpload f)); cbn; rewrite Hupd; cbn; done.
  - rewrite Hupd. done.
Qed.

Lemma mongo_delete_update_read_fails x (orc : oracle) (w : world) :
  orc (length (calls w)) (StoreFindOne "updates") = true ->
  (forall n, orc n (StoreUpdateOne "updates") = false) ->
  let r := delete_update x orc w in
  r.1 = Ret (Ok tt) /\ feed (data r.2) = Some [] /\
  photos (data r.2) = photos (data w) /\ uploads (data r.2) = uploads (data w).
Proof.
  intros Hfail Hupd. destruct w as [cs s]. cbn [calls] in Hfail.
  unfold delete_update. unfold_mongo. cbn [calls data].
  rewrite Hfail. cbn. rewrite Hupd. done.
Qed.

(** A photo that went to GridFS is served from there when the uploads
    directory no longer has it. *)
Lemma mongo_post_update_photos e body f (w : world) :
  photos (data (post_update e body (Some f) no_faults w).2)
  = photos (data w)
    ++ [GridFile (fresh_id (g_id <$> photos (data w))) f (default "" (uploads (data w) !! f))].
Proof. reflexivity. Qed.

Lemma mongo_get_upload_no_faults f (w : world) :
  (get_upload f no_faults w).1
  = match uploads (data w) !! f with
    | Some bytes => Ret (Ok bytes)
    | None =>
        match last (filter (fun g => g_filename g = f) (photos (data w))) with
        | Some g => Ret (Ok (g_bytes g))
        | None => Ret (NotFound "File not found")
        end
    end.
Proof.
  destruct w as [cs s].
  unfold get_upload, grid_find, try_catch, bind, probe, call, attempt, ret. cbn [calls data].
  destruct (uploads s !! f); [done|]. cbn. by destruct (last _).
Qed.


(** Restore writes documents; it removes none. *)
Lemma mongo_restore_docs fn (orc : oracle) (w : world) k :
  is_Some (store (data w) !! k) -> is_Some (store (data (post_restore fn orc w).2) !! k).
Proof.
  destruct w as [cs s].
  unfold post_restore, setDoc, try_catch, bind, call, attempt, ret.
  destruct (negb _ || negb _); [done|]. cbn [calls data].
  destruct (orc _ _); [done|].
  destruct (find_backup fn (backups s)) as [b|]; [|done].
  intros Hk.
  destruct (truthy (b_settings b)), (truthy (b_appdata b)); cbn;
    repeat (destruct (orc _ _); cbn); try done;
    rewrite ?lookup_insert_is_Some;
    destruct (decide ("settings" = k)), (decide ("appdata" = k)); auto.
Qed.

Lemma mongo_keeps_refl s : keeps s s.
Proof. unfold keeps. auto. Qed.

Lemma mongo_keeps_trans s1 s2 s3 : keeps s1 s2 -> keeps s2 s3 -> keeps s1 s3.
Proof. intros (Hs & Hsd) (Hs' & Hsd'). unfold keeps. auto. Qed.

Lemma mongo_keeps_intro s s' :
  (forall k, is_Some (store s !! k) -> is_Some (store s' !! k)) -> sound s' -> keeps s s'.
Proof. unfold keeps. auto. Qed.

Lemma mongo_serve_keeps r (orc : oracle) (w : world) :
  valid r -> sound (data w) -> keeps (data w) (data (serve r orc w)).
Proof.
  intros Hvalid Hsound. destruct r as [key|key now body| |fn| |e body photo|x|name]; cbn [serve].
  - destruct (mongo_get_doc_run key orc w) as (v & cs & -> & _). apply mongo_keeps_refl.
  - destruct (mongo_post_doc_frame key now body orc w) as (Hf & Hp & Hu & Hst & Hb).
    destruct Hsound as [Hrefs Hbk]. apply mongo_keeps_intro.
    + intros k Hk. destruct Hst as [-> | ->]; [done|].
      rewrite lookup_insert_is_Some. destruct (decide (key = k)); auto.
    + split; [by rewrite Hf|]. intros b Hin. destruct (Hb b Hin); auto.
  - destruct (mongo_get_backups_run orc w) as (l & cs & -> & _). apply mongo_keeps_refl.
  - destruct (mongo_restore_frame fn orc w) as (Hb & Hf & Hp & Hu).
    apply mongo_keeps_intro; [intros k; apply mongo_restore_docs|].
    unfold sound. by rewrite Hb, Hf.
  - destruct (mongo_get_updates_run orc w) as (us & cs & -> & _). apply mongo_keeps_refl.
  - assert (forall file (w0 : world),
              (forall f, file = Some f -> plain_name f = true) ->
              sound (data w0) -> keeps (data w0) (data (post_update e body file orc w0).2))
      as Hpost.
    { intros file w0 Hfile [Hrefs Hbk].
      destruct (mongo_post_update_frame e body file orc w0) as (Hst & Hb & Hu & Hfd & Hp).
      apply mongo_keeps_intro; [by rewrite Hst|]. split; [|by rewrite Hb].
      destruct Hfd as [->|[->| ->]]; [done|..]; cbn.
      - apply feed_refs_cons; [|done]. intros ref. by apply upload_ref_new.
      - apply feed_refs_cons; [|apply feed_refs_nil]. intros ref. by apply upload_ref_new. }
    destruct photo as [p|]; [|by apply Hpost].
    destruct (_ <? _); [apply mongo_keeps_refl|].
    set (w1 := World _ _).
    assert (sound (data w1)) as Hsound1 by (by destruct Hsound).
    apply (mongo_keeps_trans _ (data w1)); [by apply mongo_keeps_intro|].
    apply Hpost; [|done]. intros f [= <-]. by apply upload_filename_plain.
  - destruct (mongo_delete_update_frame x orc w) as (Hst & Hb & Hp & Hu & Hfd).
    destruct Hsound as [Hrefs Hbk].
    apply mongo_keeps_intro; [by rewrite Hst|]. split; [|by rewrite Hb].
    destruct Hfd as [->|[->| ->]]; [done|by apply feed_refs_remove|apply feed_refs_nil].
  - rewrite mongo_get_upload_frame. apply mongo_keeps_refl.
Qed.

Lemma mongo_run_keeps rs (orc : oracle) (w : world) :
  Forall valid rs -> sound (data w) -> keeps (data w) (data (run orc rs w)).
Proof.
  revert w. induction rs as [|r rs IH]; intros w Hvalid Hsound; [apply mongo_keeps_refl|].
  apply Forall_cons in Hvalid as [Hr Hrs]. cbn [run].
  pose proof (mongo_serve_keeps r orc w Hr Hsound) as Hstep.
  apply (mongo_keeps_trans _ _ _ Hstep). apply IH; [done|]. by apply Hstep.
Qed.

End MongoRoutes.

(** ** The file variant, route by route *)

Module FsRoutes.
Import Fs FsFacts FsApp.

(** The restore of a backup file that [createBackup] wrote, when no call
    fails: each truthy snapshot is written over its document. *)
Lemma fs_restore_no_faults fn settingsData appData (w : world) :
  is_backup_name fn = true ->
  plain_name fn = true ->
  backup_dir (data w) !! fn = Some (backup_json settingsData appData) ->
  exists cs,
    post_restore fn no_faults w =
      (Ret (Ok tt),
       World cs
         ((if truthy appData then set_appdata (Some appData) else id)
            ((if truthy settingsData then set_settings (Some settingsData) else id)
               (data w)))).
Proof.
  unfold is_backup_name.
  intros [Hsw Hew]%andb_prop Hplain Hfile.
  destruct w as [cs s]. cbn [data] in *.
  unfold post_restore, try_catch. rewrite Hsw, Hew. cbn [negb orb].
  rewrite PathFacts.join_plain by done.
  unfold bind at 1, existsSync, probe. cbn [calls data].
  rewrite file_at_backup, Hfile, bool_decide_eq_true_2 by (cbn; eauto). cbn [negb].
  unfold bind at 1, readJson, attempt. cbn [calls data no_faults].
  rewrite file_at_backup, Hfile. cbn [fmap option_fmap option_map].
  unfold bind, prop, write_doc, ret. cbn.
  destruct (truthy settingsData), (truthy appData); cbn; eauto.
Qed.

(** The write of a document when no call fails. *)
Lemma fs_post_doc_no_faults d now body (w : world) :
  exists cs,
    post_doc d now body no_faults w =
      (Ret (Ok tt),
       World cs (stored d body
                   (if triggers (data w)
                    then set_backup_dir (fun _ => retain (written now (data w))) (data w)
                    else data w))).
Proof.
  destruct (fs_post_doc_ok d now body no_faults w) as [cs E]; [done|].
  destruct (fs_createBackup_no_faults now w) as [cs' E'].
  rewrite E' in E. eauto.
Qed.

Lemma last_drop {A} (l : list A) k : (k < length l)%nat -> last (drop k l) = last l.
Proof.
  revert k. induction l as [|x l IH]; intros k Hk; [cbn in Hk; lia|].
  destruct k as [|k]; [done|]. cbn [drop]. cbn in Hk. rewrite IH by lia.
  destruct l; [cbn in Hk; lia|done].
Qed.

(** The listing is sorted, so a name that comes after every other name of
    the directory is its last entry, and the retention loop keeps it. *)
Lemma fs_retain_new (dir : gmap string json) name :
  name ∈ backup_names dir ->
  (forall f, f ∈ backup_names dir -> f ≠ name -> String.compare f name = Lt) ->
  retain dir !! name = dir !! name.
Proof.
  intros Hin Hnew.
  assert (last (backup_names dir) = Some name) as Hlast.
  { pose proof (Sorted_backup_names dir) as Hs.
    destruct (last (backup_names dir)) as [x|] eqn:El.
    2: { apply last_None in El. rewrite El in Hin. by apply elem_of_nil in Hin. }
    apply last_Some in El as [l' El]. rewrite El in Hs, Hin.
    destruct (decide (x = name)) as [->|Hne]; [done|]. exfalso.
    apply elem_of_app in Hin as [Hin|Hin%list_elem_of_singleton]; [|done].
    pose proof (StronglySorted_app_1_elem_of _ _ _ name x Hs Hin ltac:(left)) as Hle.
    unfold name_le, String.leb in Hle.
    assert (String.compare x name = Lt) as Hlt.
    { apply Hnew; [|done]. rewrite El. apply elem_of_app. right. by left. }
    rewrite String.compare_antisym, Hlt in Hle. done. }
  assert (name ∈ backup_names (retain dir)) as Hkept.
  { rewrite backup_names_retain.
    assert (length (backup_names dir) - MAX_BACKUPS < length (backup_names dir))%nat as Hk.
    { destruct (backup_names dir); [done|]. cbn. unfold MAX_BACKUPS. lia. }
    pose proof (last_drop (backup_names dir) _ Hk) as Hd. rewrite Hlast in Hd.
    apply last_Some in Hd as [l' ->]. apply elem_of_app. right. by left. }
  apply elem_of_backup_names in Hkept as [_ [j Hj]].
  unfold retain in *. rewrite lookup_delete_all in Hj |- *.
  by case_decide.
Qed.

(** A write, then the restore of the backup file the write made. *)
Lemma fs_undo d now body (w : world) :
  (forall f, f ∈ backup_names (backup_dir (data w)) -> String.compare f (backup_filename now) = Lt) ->
  triggers (data w) = true ->
  let w1 := (post_doc d now body no_faults w).2 in
  let r := post_restore (backup_filename now) no_faults w1 in
  r.1 = Ret (Ok tt) /\
  forall k,
    snapshot k (data r.2)
    = if truthy (snapshot k (data w)) then snapshot k (data w) else snapshot k (data w1).
Proof.
  intros Hnew Ht w1 r.
  destruct (fs_post_doc_no_faults d now body w) as [cs E].
  rewrite Ht in E. subst r w1. rewrite E. cbn [snd].
  set (name := backup_filename now).
  set (j := backup_json (snapshot Settings (data w)) (snapshot AppData (data w))).
  assert (retain (written now (data w)) !! name = Some j) as Hfile.
  { rewrite fs_retain_new.
    - unfold written. apply lookup_insert_eq.
    - apply written_listed.
    - intros f Hf Hne. apply Hnew. apply elem_of_backup_names in Hf as [Hb Hsome].
      apply elem_of_backup_names. split; [done|].
      unfold written in Hsome. by rewrite lookup_insert_ne in Hsome. }
  match goal with |- context [post_restore name no_faults ?w1] =>
    destruct (fs_restore_no_faults name (snapshot Settings (data w))
                (snapshot AppData (data w)) w1) as [cs' E'];
      [apply is_backup_name_backup_filename|apply backup_filename_plain| |] end.
  { cbn [data]. by destruct d. }
  rewrite E'. split; [done|]. cbn [snd data].
  intros k. unfold snapshot.
  destruct (truthy (default JNull (settings_file (data w)))) eqn:Hs,
           (truthy (default JNull (appdata_file (data w)))) eqn:Ha;
    destruct k, d; cbn; rewrite ?Hs, ?Ha; done.
Qed.

(** *** What a route leaves alone, whatever fails *)

Lemma fs_readUpdates_run (orc : oracle) (w : world) :
  exists us cs,
    readUpdates orc w = (Ret us, World cs (data w)) /\
    (us = default [] (updates_file (data w)) \/ us = []).
Proof.
  destruct w as [cs s].
  unfold readUpdates, try_catch, bind, existsSync, probe, attempt, ret.
  cbn [calls data]. rewrite file_at_updates.
  destruct (updates_file s) as [us|] eqn:E; cbn; [|eauto].
  destruct (orc _ _); cbn; rewrite ?E; cbn; eauto.
Qed.





(** A document write, whatever fails: the backup step returns, then the
    write of the document decides the answer. *)
Lemma fs_post_doc_run d now body (orc : oracle) (w : world) :
  let w1 := (createBackup now orc w).2 in
  post_doc d now body orc w =
    if orc (length (calls w1)) (WriteFileSync (doc_file d))
    then (Ret (ServerError (Failed (WriteFileSync (doc_file d)))),
          World (WriteFileSync (doc_file d) :: calls w1) (data w1))
    else (Ret (Ok tt),
          World (WriteFileSync (doc_file d) :: calls w1) (stored d body (data w1))).
Proof.
  cbn zeta. destruct (fs_createBackup_returns now orc w) as [w1 E].
  unfold post_doc, try_catch. unfold bind at 1. rewrite E. cbn [snd].
  unfold write_doc, stored, bind, call, attempt, ret. destruct (orc _ _); [done|].
  by destruct d.
Qed.

Lemma fs_post_update_any e body file (orc : oracle) (w : world) :
  let u := new_update e body ((fun f => "/uploads/" +:+ f) <$> file) in
  exists r cs fd,
    post_update e body file orc w = (r, World cs (set_updates fd (data w))) /\
    (fd = updates_file (data w) \/ fd = Some (u :: default [] (updates_file (data w)))
     \/ fd = Some [u]).
Proof.
  cbn zeta. destruct (fs_readUpdates_run orc w) as (us & cs & E & Hus).
  unfold post_update, try_catch. rewrite (bind_ret_run _ _ _ _ _ _ E).
  unfold bind, writeUpdates, call, attempt, ret. cbn [calls data].
  destruct (orc _ _).
  - eexists _, _, (updates_file (data w)). split; [|by left]. by destruct (data w).
  - eexists _, _, _. split; [reflexivity|]. destruct Hus as [-> | ->]; auto.
Qed.

(** The cleanup of a photo that is an upload removes that upload, or
    nothing. *)
Lemma fs_delete_photo_any photo (orc : oracle) (w : world) :
  upload_ref photo ->
  exists r cs ups,
    delete_photo photo orc w = (r, World cs (set_uploads_dir (fun _ => ups) (data w))) /\
    ups ⊆ uploads_dir (data w).
Proof.
  intros (f & Hplain & ->). destruct w as [cs s].
  unfold delete_photo. rewrite PathFacts.join_upload by done.
  unfold bind, existsSync, probe, call, attempt, ret. cbn [calls data].
  case_bool_decide as Hsome.
  - destruct (orc _ _).
    + eexists _, _, (uploads_dir s). split; [by destruct s|done].
    + rewrite unlink_at_upload. eexists _, _, (delete f (uploads_dir s)).
      split; [done|apply delete_subseteq].
  - eexists _, _, (uploads_dir s). split; [by destruct s|done].
Qed.

Lemma fs_delete_update_any x (orc : oracle) (w : world) :
  feed_refs (default [] (updates_file (data w))) ->
  exists r cs fd ups,
    delete_update x orc w
    = (r, World cs (set_updates fd (set_uploads_dir (fun _ => ups) (data w)))) /\
    ups ⊆ uploads_dir (data w) /\
    (fd = updates_file (data w)
     \/ fd = Some (remove_update x (default [] (updates_file (data w))))
     \/ fd = Some []).
Proof.
  intros Hrefs. destruct (fs_readUpdates_run orc w) as (us & cs & E & Hus).
  unfold delete_update, try_catch. rewrite (bind_ret_run _ _ _ _ _ _ E).
  assert (exists r cs1 ups,
    match find_update x us ≫= photo_ref with
    | Some photo => delete_photo photo
    | None => ret tt
    end orc (World cs (data w)) = (r, World cs1 (set_uploads_dir (fun _ => ups) (data w))) /\
    ups ⊆ uploads_dir (data w)) as (r & cs1 & ups & E1 & Hups).
  { destruct (find_update x us) as [u|] eqn:Hfind; cbn [mbind option_bind].
    2: { eexists _, _, (uploads_dir (data w)). split; [by destruct (data w)|done]. }
    destruct (photo_ref u) as [photo|] eqn:Hphoto.
    2: { eexists _, _, (uploads_dir (data w)). split; [by destruct (data w)|done]. }
    apply (fs_delete_photo_any photo orc (World cs (data w))). apply (Hrefs u); [|done].
    destruct Hus as [-> | ->]; [|done].
    apply find_some in Hfind as [Hin _]. by apply list_elem_of_In. }
  unfold bind at 1. rewrite E1. destruct r as [[]|err].
  - unfold bind, writeUpdates, call, attempt, ret. cbn [calls data].
    destruct (orc _ _).
    + eexists _, _, (updates_file (data w)), ups. split; [|auto]. by destruct (data w).
    + eexists _, _, _, ups. split; [reflexivity|]. split; [done|].
      destruct Hus as [-> | ->]; auto.
  - eexists _, _, (updates_file (data w)), ups. split; [|auto]. by destruct (data w).
Qed.

Lemma fs_readUpdates_fails (orc : oracle) (w : world) :
  is_Some (updates_file (data w)) ->
  orc (S (length (calls w))) (ReadFileSync UPDATES_FILE) = true ->
  readUpdates orc w
  = (Ret [], World (ReadFileSync UPDATES_FILE :: ExistsSync UPDATES_FILE :: calls w) (data w)).
Proof.
  intros [us Hus] Hfail. destruct w as [cs s]. cbn [calls data] in *.
  unfold readUpdates, try_catch, bind, existsSync, probe, attempt, ret.
  cbn [calls data]. rewrite file_at_updates, Hus. cbn. by rewrite Hfail.
Qed.

Lemma fs_post_update_read_fails e body file (orc : oracle) (w : world) :
  is_Some (updates_file (data w)) ->
  orc (S (length (calls w))) (ReadFileSync UPDATES_FILE) = true ->
  (forall n, orc n (WriteFileSync UPDATES_FILE) = false) ->
  let u := new_update e body ((fun f => "/uploads/" +:+ f) <$> file) in
  let r := post_update e body file orc w in
  r.1 = Ret (Ok u) /\ updates_file (data r.2) = Some [u].
Proof.
  intros Hsome Hfail Hwr. cbn zeta.
  unfold post_update, try_catch.
  rewrite (bind_ret_run _ _ _ _ _ _ (fs_readUpdates_fails orc w Hsome Hfail)).
  unfold bind, writeUpdates, ret. rewrite call_ok_run by apply Hwr. done.
Qed.

Lemma fs_delete_update_read_fails x (orc : oracle) (w : world) :
  is_Some (updates_file (data w)) ->
  orc (S (length (calls w))) (ReadFileSync UPDATES_FILE) = true ->
  (forall n, orc n (WriteFileSync UPDATES_FILE) = false) ->
  let r := delete_update x orc w in
  r.1 = Ret (Ok tt) /\ updates_file (data r.2) = Some [] /\
  uploads_dir (data r.2) = uploads_dir (data w).
Proof.
  intros Hsome Hfail Hwr. cbn zeta.
  unfold delete_update, try_catch.
  rewrite (bind_ret_run _ _ _ _ _ _ (fs_readUpdates_fails orc w Hsome Hfail)).
  cbn [find_update List.find mbind option_bind].
  unfold bind, writeUpdates, ret. rewrite call_ok_run by apply Hwr. done.
Qed.


(** Whatever fails, the retention loop unlinks names of its list only. *)
Lemma evict_others files (orc : oracle) (w : world) :
  exists r cs dir,
    evict files orc w = (r, World cs (set_backup_dir (fun _ => dir) (data w))) /\
    forall name, name ∉ files -> dir !! name = backup_dir (data w) !! name.
Proof.
  revert w. induction files as [|f rest IH]; intros [cs s].
  - exists (Ret tt), cs, (backup_dir s). split; [by destruct s|done].
  - cbn [evict]. destruct (MAX_BACKUPS <? length (f :: rest))%nat.
    + unfold bind, call, attempt. cbn [calls data].
      destruct (orc _ _).
      * eexists _, _, (backup_dir s). split; [by destruct s|done].
      * destruct (IH (World (UnlinkSync (BACKUP_DIR ++ [f]) :: cs)
                            (set_backup_dir (delete f) s))) as (r & cs' & dir & -> & Hdir).
        exists r, cs', dir. split; [done|].
        intros name Hname. apply not_elem_of_cons in Hname as [Hne Hname].
        rewrite Hdir by done. cbn. by apply lookup_delete_ne.
    + exists (Ret tt), cs, (backup_dir s). split; [by destruct s|done].
Qed.

(** Whatever fails, [createBackup] touches the backup directory only, and
    there only entries whose names are backup names. *)
Lemma fs_createBackup_others now (orc : oracle) (w : world) :
  exists cs dir,
    createBackup now orc w = (Ret tt, World cs (set_backup_dir (fun _ => dir) (data w))) /\
    forall name, is_backup_name name = false -> dir !! name = backup_dir (data w) !! name.
Proof.
  destruct w as [cs s]. cbn [data].
  assert (forall cs', exists cs0 dir,
            probe (A := unit) (ConsoleError "Backup error") (fun _ => tt) orc (World cs' s)
            = (Ret tt, World cs0 (set_backup_dir (fun _ => dir) s)) /\
            forall name, is_backup_name name = false -> dir !! name = backup_dir s !! name)
    as Hsame.
  { intros cs'. eexists _, (backup_dir s). split; [by destruct s|done]. }
  unfold createBackup, createBackup_body, try_catch. unfold bind at 1.
  destruct (read_or_null_frame SETTINGS_FILE orc (World cs s)) as ([sd|e] & cs1 & ->);
    cbn [data]; [|apply Hsame].
  unfold bind at 1.
  destruct (read_or_null_frame APPDATA_FILE orc (World cs1 s)) as ([ad|e] & cs2 & ->);
    cbn [data]; [|apply Hsame].
  destruct (negb (truthy sd) && negb (truthy ad)) eqn:Hempty.
  { eexists _, (backup_dir s). split; [by destruct s|done]. }
  assert (forall name, is_backup_name name = false -> name ≠ backup_filename now) as Hnew.
  { intros name Hname ->. by rewrite is_backup_name_backup_filename in Hname. }
  unfold bind at 1, call at 1, attempt. cbn [calls data].
  destruct (orc _ _); [apply Hsame|].
  unfold bind at 1, list_backup_names, call at 1, attempt. cbn [calls data].
  destruct (orc _ _).
  { unfold probe. eexists _, _. split; [done|].
    cbn. intros name Hname. apply lookup_insert_ne. by intros <-; apply (Hnew _ Hname). }
  match goal with |- context [evict ?fs orc ?w] =>
    destruct (evict_others fs orc w) as (r & cs3 & dir & -> & Hdir) end.
  assert (forall name, is_backup_name name = false -> dir !! name = backup_dir s !! name)
    as Hdir'.
  { intros name Hname. rewrite Hdir.
    - cbn. apply lookup_insert_ne. by intros <-; apply (Hnew _ Hname).
    - intros [Hb _]%elem_of_backup_names. congruence. }
  destruct r as [[]|e]; unfold probe; cbn; eexists _, dir; (split; [done|exact Hdir']).
Qed.

Lemma legacy_post_doc_run d body (orc : oracle) (w : world) :
  Legacy.post_doc d body orc w =
    if orc (length (calls w)) (WriteFileSync (doc_file d))
    then (Ret (ServerError (Failed (WriteFileSync (doc_file d)))),
          World (WriteFileSync (doc_file d) :: calls w) (data w))
    else (Ret (Ok tt),
          World (WriteFileSync (doc_file d) :: calls w) (stored d body (data w))).
Proof.
  unfold Legacy.post_doc, try_catch, write_doc, stored, bind, call, attempt, ret.
  destruct (orc _ _); [done|]. by destruct d.
Qed.







End FsRoutes.

(** ** Runs of writes *)

(** Of two times in the years 0 to 9999 the earlier gives the backup file
    name that comes first in the order of strings. *)
Lemma backup_filename_lt a b :
  in_years a -> in_years b -> a < b ->
  String.compare (backup_filename a) (backup_filename b) = Lt.
Proof.
  intros Ha Hb Hab.
  destruct (civil_of_days (a / 86400000)) as [[y1 m1] d1] eqn:E1.
  destruct (civil_of_days (b / 86400000)) as [[y2 m2] d2] eqn:E2.
  rewrite (backup_filename_stamp a y1 m1 d1), (backup_filename_stamp b y2 m2 d2) by done.
  rewrite compare_app_l, compare_app_len by (by rewrite !length_stamp).
  pose proof (civil_year_range a _ _ _ Ha E1) as Hy1.
  pose proof (civil_year_range b _ _ _ Hb E2) as Hy2.
  pose proof (civil_of_days_ok (a / 86400000)) as Hok1.
  pose proof (civil_of_days_ok (b / 86400000)) as Hok2.
  rewrite E1 in Hok1. rewrite E2 in Hok2. unfold date_ok in Hok1, Hok2.
  set (ta := a mod 86400000). set (tb := b mod 86400000).
  assert (0 <= ta < 86400000) as Hta by (apply Z.mod_pos_bound; lia).
  assert (0 <= tb < 86400000) as Htb by (apply Z.mod_pos_bound; lia).
  rewrite compare_stamp; try lia; try (Z.div_mod_to_equations; lia).
  assert (a / 86400000 < b / 86400000 \/ a / 86400000 = b / 86400000 /\ ta < tb) as [Hd|[Hd Ht]].
  { subst ta tb. Z.div_mod_to_equations. lia. }
  - apply civil_of_days_mono in Hd. rewrite E1, E2 in Hd. unfold date_num in Hd.
    destruct (Z.compare_spec y1 y2); [|done|lia].
    destruct (Z.compare_spec m1 m2); [|done|lia].
    destruct (Z.compare_spec d1 d2); [lia|done|lia].
  - rewrite Hd in E1. rewrite E1 in E2. injection E2 as -> -> ->.
    rewrite !Z.compare_refl.
    apply Z.compare_lt_iff in Ht.
    rewrite (compare_div_mod 1000 ta tb), (compare_div_mod 60 (ta / 1000) (tb / 1000)),
      (compare_div_mod 60 (ta / 1000 / 60) (tb / 1000 / 60)) in Ht by lia.
    rewrite !Z.div_div in Ht by lia.
    change (1000 * (60 * 60)) with 3600000 in Ht. change (1000 * 60) with 60000 in Ht.
    destruct (ta / 3600000 ?= tb / 3600000); [|done..].
    destruct (ta / 60000 mod 60 ?= tb / 60000 mod 60); [|done..].
    destruct (ta / 1000 mod 60 ?= tb / 1000 mod 60); [|done..].
    by rewrite Ht.
Qed.

Lemma newest_snoc {A} (l : list A) x : newest (newest l ++ [x]) = newest (l ++ [x]).
Proof.
  unfold newest. rewrite !length_app, length_drop. cbn [length]. unfold MAX_BACKUPS.
  destruct (decide (length l <= 20)%nat) as [Hle|Hgt].
  - replace (length l - 20)%nat with 0%nat by lia. by rewrite drop_0, Nat.sub_0_r.
  - rewrite drop_app_le by (rewrite length_drop; lia).
    rewrite drop_drop. rewrite (drop_app_le l) by lia. do 2 f_equal. lia.
Qed.

Lemma newest_fmap {A B} (f : A -> B) (l : list A) : newest (f <$> l) = f <$> newest l.
Proof. unfold newest. by rewrite length_fmap, fmap_drop. Qed.

Lemma elem_of_newest {A} (l : list A) x : x ∈ newest l -> x ∈ l.
Proof. unfold newest. apply subseteq_drop. Qed.

Lemma newest_short {A} (l : list A) : (length l <= MAX_BACKUPS)%nat -> newest l = l.
Proof. intros H. unfold newest. replace (length l - MAX_BACKUPS)%nat with 0%nat by lia. apply drop_0. Qed.

Module FsRuns.
Import Fs FsFacts FsRoutes.

(** A new name that comes after every name of the listing goes to its end. *)
Lemma backup_names_insert (dir : gmap string json) name j :
  is_backup_name name = true ->
  (forall f, f ∈ backup_names dir -> String.compare f name = Lt) ->
  backup_names (<[name := j]> dir) = backup_names dir ++ [name].
Proof.
  intros Hname Hnew.
  apply (Sorted_unique name_le).
  - apply StronglySorted_Sorted, Sorted_backup_names.
  - apply StronglySorted_Sorted, StronglySorted_app_2.
    + intros f x Hf Hx%list_elem_of_singleton. subst x.
      unfold name_le, String.leb. by rewrite (Hnew f Hf).
    + apply Sorted_backup_names.
    + repeat constructor.
  - apply NoDup_Permutation.
    + apply NoDup_backup_names.
    + apply NoDup_app. split; [apply NoDup_backup_names|]. split; [|apply NoDup_singleton].
      intros f Hf Hx%list_elem_of_singleton. subst f. specialize (Hnew name Hf).
      by rewrite compare_refl in Hnew.
    + intros f. rewrite elem_of_app, list_elem_of_singleton, !elem_of_backup_names.
      rewrite lookup_insert_is_Some. split.
      * intros [Hb [->|[Hne Hsome]]]; auto.
      * intros [[Hb Hsome]| ->]; [|auto]. split; [done|].
        destruct (decide (name = f)); auto.
Qed.

(** One write: the new backup goes to the end of the listing, and the
    listing is cut to its last [MAX_BACKUPS] names. *)
Lemma fs_post_doc_names d now body (w : world) :
  triggers (data w) = true ->
  (forall f, f ∈ backup_names (backup_dir (data w)) ->
             String.compare f (backup_filename now) = Lt) ->
  backup_names (backup_dir (data (post_doc d now body no_faults w).2))
  = newest (backup_names (backup_dir (data w)) ++ [backup_filename now]).
Proof.
  intros Ht Hnew. destruct (fs_post_doc_no_faults d now body w) as [cs ->]. rewrite Ht.
  cbn [snd data].
  replace (backup_dir (stored d body _)) with (retain (written now (data w)))
    by (by destruct d).
  rewrite backup_names_retain. unfold written.
  rewrite backup_names_insert; [done|apply is_backup_name_backup_filename|done].
Qed.

Lemma fs_post_doc_triggers d now body (w : world) :
  truthy body = true -> triggers (data (post_doc d now body no_faults w).2) = true.
Proof.
  intros Hbody. destruct (fs_post_doc_no_faults d now body w) as [cs ->].
  unfold triggers, snapshot. destruct d; cbn; rewrite Hbody; [done|apply orb_true_r].
Qed.

Lemma fs_run_writes_names ws (w : world) :
  triggers (data w) = true ->
  (length (backup_names (backup_dir (data w))) <= MAX_BACKUPS)%nat ->
  Forall (fun x : write => in_years x.1.2 /\ truthy x.2 = true) ws ->
  StronglySorted Z.lt (fs_times ws) ->
  Forall (fun f => Forall (fun t => String.compare f (backup_filename t) = Lt) (fs_times ws))
         (backup_names (backup_dir (data w))) ->
  triggers (data (run_writes no_faults ws w)) = true /\
  backup_names (backup_dir (data (run_writes no_faults ws w)))
  = newest (backup_names (backup_dir (data w)) ++ (backup_filename <$> fs_times ws)).
Proof.
  intros Ht Hlen.
  induction ws as [|[[d now] body] ws IH] using rev_ind; intros Hws Hsorted Hfirst.
  { cbn. by rewrite app_nil_r, newest_short. }
  apply Forall_app in Hws as [Hws Hlast]. apply Forall_singleton in Hlast as [Hnow Hbody].
  cbn in Hnow, Hbody.
  unfold fs_times in Hsorted, Hfirst. rewrite fmap_app in Hsorted, Hfirst.
  cbn in Hsorted, Hfirst.
  destruct IH as [Ht' Hnames]; [done|by apply StronglySorted_app_1_l in Hsorted| |].
  { eapply Forall_impl; [exact Hfirst|]. by intros f [Hf _]%Forall_app. }
  rewrite fs_run_writes_snoc. split; [by apply fs_post_doc_triggers|].
  rewrite fs_post_doc_names; [|done|].
  - rewrite Hnames, newest_snoc. unfold fs_times. by rewrite !fmap_app, app_assoc.
  - intros f Hf. rewrite Hnames in Hf. apply elem_of_newest, elem_of_app in Hf as [Hf|Hf].
    + rewrite Forall_forall in Hfirst. apply Hfirst in Hf.
      rewrite Forall_forall in Hf. apply Hf, elem_of_app. right.
      by apply list_elem_of_singleton.
    + apply list_elem_of_fmap in Hf as (t & -> & Hin).
      apply backup_filename_lt; [|done|].
      * apply list_elem_of_fmap in Hin as ([[d' t'] b'] & -> & Hin).
        rewrite Forall_forall in Hws. by destruct (Hws _ Hin).
      * apply (StronglySorted_app_1_elem_of _ _ _ _ _ Hsorted Hin). by left.
Qed.

End FsRuns.

Lemma fmap_rev {A B} (f : A -> B) (l : list A) : f <$> rev l = rev (f <$> l).
Proof. induction l as [|x l IH]; [done|]. cbn. by rewrite fmap_app, IH. Qed.

Section SortedFacts.
Context {A B : Type} (f : A -> B) (R : relation B).

Lemma StronglySorted_on (R' : relation A) (l : list A) :
  (forall a b, R (f a) (f b) -> R' a b) ->
  StronglySorted R (f <$> l) -> StronglySorted R' l.
Proof.
  intros HR. induction l as [|x l IH]; cbn; [constructor|].
  intros [Hl Hx]%StronglySorted_inv. constructor; [by apply IH|].
  rewrite Forall_forall in Hx. apply Forall_forall. intros y Hy.
  apply HR, Hx. by apply list_elem_of_fmap_2.
Qed.

Lemma StronglySorted_rev (l : list B) :
  StronglySorted R l -> StronglySorted (flip R) (rev l).
Proof.
  induction 1 as [|x l Hl IH Hx]; cbn; [constructor|].
  apply StronglySorted_app_2; [|done|repeat constructor].
  intros a b Ha%list_elem_of_In%in_rev%list_elem_of_In Hb%list_elem_of_singleton. subst b.
  rewrite Forall_forall in Hx. by apply Hx.
Qed.

Lemma StronglySorted_drop (l : list B) k : StronglySorted R l -> StronglySorted R (drop k l).
Proof.
  intros Hl. rewrite <- (take_drop k l) in Hl. by apply StronglySorted_app_1_r in Hl.
Qed.

Lemma sublist_StronglySorted (l1 l2 : list B) :
  l1 `sublist_of` l2 -> StronglySorted R l2 -> StronglySorted R l1.
Proof.
  induction 1 as [|x l1 l2 Hsub IH|x l1 l2 Hsub IH]; [done|..].
  - intros [Hl Hx]%StronglySorted_inv. constructor; [by apply IH|].
    rewrite Forall_forall in Hx. apply Forall_forall. intros y Hy.
    by apply Hx, (elem_of_sublist l1 l2 y).
  - intros [Hl Hx]%StronglySorted_inv. by apply IH.
Qed.
End SortedFacts.

Lemma filter_keys_take {A} (key : A -> nat) (l : list A) k :
  NoDup (key <$> l) ->
  filter (fun x => key x ∉ key <$> take k l) l = drop k l.
Proof.
  intros Hnd. remember (key <$> take k l) as ids eqn:Hids.
  rewrite <- (take_drop k l) in Hnd. rewrite fmap_app in Hnd.
  apply NoDup_app in Hnd as (_ & Hdisj & _).
  rewrite <- (take_drop k l) at 1.
  rewrite filter_app, filter_all_out, filter_all_in; [done| |].
  - intros x Hx Hin. subst ids. apply (Hdisj (key x)); [done|].
    by apply list_elem_of_fmap_2.
  - intros x Hx Hnot. apply Hnot. subst ids. by apply list_elem_of_fmap_2.
Qed.

Module MongoRuns.
Import Mongo MongoFacts MongoRoutes.

(** Of backups in the order of their creation, no two at the same time. *)
Lemma created_inj bs a b :
  StronglySorted Z.lt (b_created <$> bs) ->
  a ∈ bs -> b ∈ bs -> b_created a = b_created b -> a = b.
Proof.
  induction bs as [|x bs IH]; cbn; [by intros _ ?%elem_of_nil|].
  intros [Hbs Hx]%StronglySorted_inv Ha Hb E.
  rewrite Forall_fmap, Forall_forall in Hx.
  apply elem_of_cons in Ha as [->|Ha], Hb as [->|Hb]; [done| | |by apply IH].
  - specialize (Hx _ Hb). cbn in Hx. lia.
  - specialize (Hx _ Ha). cbn in Hx. lia.
Qed.

Lemma sort_older_created bs :
  StronglySorted Z.lt (b_created <$> bs) -> merge_sort older bs = bs.
Proof.
  intros Hbs. apply (StronglySorted_unique_strong older).
  - intros x1 x2 H1 H2 Ho1 Ho2. rewrite merge_sort_Permutation in H1.
    apply (created_inj bs); [done..|]. unfold older in *. lia.
  - apply StronglySorted_merge_sort; apply _.
  - eapply StronglySorted_on; [|exact Hbs]. intros a b Hab. unfold older. lia.
  - apply merge_sort_Permutation.
Qed.

Lemma sort_newer_created bs :
  StronglySorted Z.lt (b_created <$> bs) -> merge_sort newer bs = rev bs.
Proof.
  intros Hbs. apply (StronglySorted_unique_strong newer).
  - intros x1 x2 H1 H2 Ho1 Ho2. rewrite merge_sort_Permutation in H1.
    apply list_elem_of_In, in_rev, list_elem_of_In in H2.
    apply (created_inj bs); [done..|]. unfold newer in *. lia.
  - apply StronglySorted_merge_sort; apply _.
  - apply (StronglySorted_rev older).
    eapply StronglySorted_on; [|exact Hbs]. intros a b Hab. unfold older. lia.
  - rewrite merge_sort_Permutation. apply Permutation_rev.
Qed.

(** Of backups in the order of their creation the retention step keeps
    the last [MAX_BACKUPS]. *)
Lemma retain_created all :
  NoDup (b_id <$> all) -> StronglySorted Z.lt (b_created <$> all) ->
  retain all = newest all.
Proof.
  intros Hnd Hall. unfold retain, newest.
  destruct (Nat.ltb_spec MAX_BACKUPS (length all)) as [Hlt|Hle].
  - unfold delete_ids, oldest. rewrite sort_older_created by done.
    by apply filter_keys_take.
  - replace (length all - MAX_BACKUPS)%nat with 0%nat by lia. by rewrite drop_0.
Qed.

Lemma mongo_post_doc_triggers key now body (w : world) :
  key = "settings" \/ key = "appdata" -> truthy body = true ->
  triggers (data (post_doc key now body no_faults w).2) = true.
Proof.
  intros Hkey Hbody. destruct (mongo_post_doc_no_faults key now body w) as [cs ->].
  unfold triggers, snapshot. cbn [snd data].
  assert (forall s, store (set_store (insert key body) s) !! key = Some body) as E.
  { intros s. destruct s. cbn. apply lookup_insert_eq. }
  destruct Hkey as [-> | ->]; rewrite E; cbn; rewrite Hbody; [done|apply orb_true_r].
Qed.

Lemma mongo_post_doc_backups key now body (w : world) :
  triggers (data w) = true ->
  NoDup (b_id <$> backups (data w)) ->
  StronglySorted Z.lt ((b_created <$> backups (data w)) ++ [now]) ->
  let s' := data (post_doc key now body no_faults w).2 in
  NoDup (b_id <$> backups s') /\
  meta <$> backups s' = newest ((meta <$> backups (data w)) ++ [made now]).
Proof.
  intros Ht Hnd Hsorted. cbn zeta. split; [by apply mongo_post_doc_bound|].
  destruct (mongo_post_doc_no_faults key now body w) as [cs ->]. rewrite Ht.
  cbn [snd data].
  replace (backups (set_store _ _)) with (retain (backups (data w) ++ [new_backup now (data w)]))
    by (by destruct (data w)).
  rewrite retain_created.
  - by rewrite <- newest_fmap, fmap_app.
  - by apply new_backup_NoDup.
  - by rewrite fmap_app.
Qed.

Lemma created_meta (bs : list backup) : b_created <$> bs = snd <$> (meta <$> bs).
Proof. by rewrite <- list_fmap_compose. Qed.

Lemma mongo_run_writes_backups ws (w : world) :
  triggers (data w) = true ->
  NoDup (b_id <$> backups (data w)) ->
  (length (backups (data w)) <= MAX_BACKUPS)%nat ->
  Forall (fun x : write => (x.1.1 = "settings" \/ x.1.1 = "appdata") /\ truthy x.2 = true) ws ->
  StronglySorted Z.lt ((b_created <$> backups (data w)) ++ mongo_times ws) ->
  let s' := data (run_writes no_faults ws w) in
  triggers s' = true /\ NoDup (b_id <$> backups s') /\
  meta <$> backups s' = newest ((meta <$> backups (data w)) ++ (made <$> mongo_times ws)).
Proof.
  intros Ht Hnd Hlen. cbn zeta.
  induction ws as [|[[key now] body] ws IH] using rev_ind; intros Hws Hsorted.
  { cbn. rewrite app_nil_r, newest_short by (by rewrite length_fmap). done. }
  apply Forall_app in Hws as [Hws Hlast]. apply Forall_singleton in Hlast as [Hkey Hbody].
  cbn in Hkey, Hbody.
  unfold mongo_times in Hsorted. rewrite fmap_app, app_assoc in Hsorted. cbn in Hsorted.
  destruct (IH Hws (StronglySorted_app_1_l _ _ _ Hsorted)) as (Ht' & Hnd' & Hmeta).
  rewrite mongo_run_writes_snoc. split; [by apply mongo_post_doc_triggers|].
  destruct (mongo_post_doc_backups key now body (run_writes no_faults ws w)) as [Hnd'' Hmeta''];
    [done|done| |].
  - rewrite created_meta, Hmeta, <- newest_fmap.
    rewrite fmap_app, <- created_meta, <- list_fmap_compose.
    change (snd ∘ made) with (@id Z). rewrite list_fmap_id.
    eapply (sublist_StronglySorted); [|exact Hsorted].
    apply sublist_app; [apply sublist_drop|done].
  - split; [done|]. rewrite Hmeta'', Hmeta, newest_snoc.
    unfold mongo_times. by rewrite !fmap_app, app_assoc.
Qed.
End MongoRuns.

(** * Further properties *)

Import MoreSamples.

(** ** Documents and backups *)

(** The file names of backups sort as their times do: for two times in
    the years 0 to 9999 (where [toISOString] writes the year with four
    digits) the file names [createBackup] makes compare, as strings, the way
    the times compare as numbers: the earlier time gives the smaller name,
    and only equal times give the same name.  So the [sort()] of file names
    by which the file variant evicts and lists backups is the order of
    their creation. *)
Theorem backup_filename_chronological a b :
  in_years a -> in_years b ->
  String.compare (backup_filename a) (backup_filename b) = Z.compare a b.
Proof.
  intros Ha Hb. destruct (Z.compare_spec a b) as [->|Hlt|Hgt].
  - apply compare_refl.
  - by apply backup_filename_lt.
  - rewrite String.compare_antisym. by rewrite backup_filename_lt.
Qed.

Lemma backup_filename_chronological_witness :
  String.compare (backup_filename 1709990000000) (backup_filename 1710000000000) = Lt.
Proof.
  apply (backup_filename_chronological 1709990000000 1710000000000); unfold in_years; lia.
Defined.

(** A write of a document, then the restore of the backup that write made,
    when no call fails and the backup step found a document.  The restore
    answers ok, and each of the two documents that had a truthy value before
    the write has that value again; a document that was absent before the
    write (or null, [false], [0], [""]) is not in the backup, and stays as
    the write left it: the undo does not remove a document.  The backup is
    the one the restore finds when the clock has moved on since the earlier
    backups: in the MongoDB variant they are older than [now] and have other
    file names ([_id]s unique); in the file variant their names sort before
    the new name. *)
Theorem write_then_restore_undoes :
  (forall key now body (w : Mongo.world),
      NoDup (Mongo.b_id <$> Mongo.backups (data w)) ->
      (forall d, d ∈ Mongo.backups (data w) -> Mongo.b_created d < now) ->
      (forall d, d ∈ Mongo.backups (data w) -> Mongo.b_filename d ≠ backup_filename now) ->
      Mongo.triggers (data w) = true ->
      let w1 := (Mongo.post_doc key now body no_faults w).2 in
      let r := Mongo.post_restore (backup_filename now) no_faults w1 in
      r.1 = Ret (Ok tt) /\
      forall k, k = "settings" \/ k = "appdata" ->
        Mongo.store (data r.2) !! k
        = if truthy (Mongo.snapshot k (data w))
          then Mongo.store (data w) !! k
          else Mongo.store (data w1) !! k)
  /\
  (forall d now body (w : Fs.world),
      (forall f, f ∈ Fs.backup_names (Fs.backup_dir (data w)) ->
                 String.compare f (backup_filename now) = Lt) ->
      Fs.triggers (data w) = true ->
      let w1 := (Fs.post_doc d now body no_faults w).2 in
      let r := Fs.post_restore (backup_filename now) no_faults w1 in
      r.1 = Ret (Ok tt) /\
      forall k,
        Fs.snapshot k (data r.2)
        = if truthy (Fs.snapshot k (data w))
          then Fs.snapshot k (data w)
          else Fs.snapshot k (data w1)).
Proof.
  split.
  - apply MongoRoutes.mongo_undo.
  - apply FsRoutes.fs_undo.
Qed.

(** The undo at the sample states: the settings are written over, and the
    restore of the backup of that write brings the old settings back. *)
Lemma write_then_restore_undoes_witness :
  Mongo.store
    (data (Mongo.post_restore (backup_filename 1710000000000) no_faults
             (Mongo.post_doc "settings" 1710000000000 settings1 no_faults mongo_world).2).2)
    !! "settings" = Some settings2
  /\ Fs.snapshot Fs.Settings
       (data (Fs.post_restore (backup_filename 1710000000000) no_faults
                (Fs.post_doc Fs.Settings 1710000000000 settings1 no_faults fs_world).2).2)
     = settings2.
Proof.
  destruct write_then_restore_undoes as [Hm Hf]. split.
  - destruct (Hm "settings" 1710000000000 settings1 mongo_world) as [_ H].
    + vm_compute. apply NoDup_singleton.
    + intros d Hd. apply list_elem_of_singleton in Hd as ->. reflexivity.
    + intros d Hd. apply list_elem_of_singleton in Hd as ->. vm_compute. discriminate.
    + reflexivity.
    + rewrite (H "settings") by (by left). reflexivity.
  - destruct (Hf Fs.Settings 1710000000000 settings1 fs_world) as [_ H].
    + intros f Hf'. apply FsFacts.elem_of_backup_names in Hf' as [_ [j Hj]].
      cbn in Hj. apply lookup_insert_Some in Hj as [[<- _]|[_ Hj]]; [vm_compute; reflexivity|].
      by rewrite lookup_empty in Hj.
    + reflexivity.
    + rewrite (H Fs.Settings). reflexivity.
Defined.



(** The backup step touches the backups only, whatever fails in it: the
    documents, the feed and the photos are as before; and in the file
    variant an entry of the backup directory whose name is not a backup name
    ([backup-*.json]) is neither written nor unlinked, so the rotation never
    removes a file it did not make. *)
Theorem backup_step_touches_backups_only :
  (forall now (orc : Mongo.oracle) (w : Mongo.world),
      let s' := data (Mongo.createBackup now orc w).2 in
      Mongo.store s' = Mongo.store (data w) /\ Mongo.feed s' = Mongo.feed (data w) /\
      Mongo.photos s' = Mongo.photos (data w) /\ Mongo.uploads s' = Mongo.uploads (data w))
  /\
  (forall now (orc : Fs.oracle) (w : Fs.world),
      let s' := data (Fs.createBackup now orc w).2 in
      Fs.settings_file s' = Fs.settings_file (data w) /\
      Fs.appdata_file s' = Fs.appdata_file (data w) /\
      Fs.updates_file s' = Fs.updates_file (data w) /\
      Fs.uploads_dir s' = Fs.uploads_dir (data w) /\
      Fs.elsewhere s' = Fs.elsewhere (data w) /\
      forall name, is_backup_name name = false ->
        Fs.backup_dir s' !! name = Fs.backup_dir (data w) !! name).
Proof.
  split.
  - intros now orc w.
    destruct (MongoFacts.mongo_createBackup_frame now orc w) as (? & ? & ? & ? & _). done.
  - intros now orc w.
    destruct (FsRoutes.fs_createBackup_others now orc w) as (cs & dir & -> & Hdir). done.
Qed.

(** A file [notes.txt] in the backup directory survives a backup step. *)
Lemma backup_step_touches_backups_only_witness :
  let w := World [] (Fs.set_backup_dir (insert "notes.txt" (JStr "keep")) fs_state) in
  Fs.backup_dir (data (Fs.createBackup 1710000000000 no_faults w).2) !! "notes.txt"
  = Some (JStr "keep").
Proof.
  destruct backup_step_touches_backups_only as [_ Hf]. cbn zeta.
  destruct (Hf 1710000000000 no_faults
              (World [] (Fs.set_backup_dir (insert "notes.txt" (JStr "keep")) fs_state)))
    as (_ & _ & _ & _ & _ & H).
  rewrite H by reflexivity. reflexivity.
Defined.

(** The older copy of the file variant (the second half of [server.js])
    writes a document as the current one does, without the backup: when the
    write of the document file fares the same whenever it is made, the two
    give the same answer and leave the same documents, feed and uploads; the
    older copy leaves the backup directory as it is. *)
Theorem legacy_copy_agrees :
  forall d now body (orc : Fs.oracle) (w : Fs.world),
    (forall n m, orc n (Fs.WriteFileSync (Fs.doc_file d))
                 = orc m (Fs.WriteFileSync (Fs.doc_file d))) ->
    let old := Legacy.post_doc d body orc w in
    let new := Fs.post_doc d now body orc w in
    old.1 = new.1 /\
    Fs.settings_file (data old.2) = Fs.settings_file (data new.2) /\
    Fs.appdata_file (data old.2) = Fs.appdata_file (data new.2) /\
    Fs.updates_file (data old.2) = Fs.updates_file (data new.2) /\
    Fs.uploads_dir (data old.2) = Fs.uploads_dir (data new.2) /\
    Fs.elsewhere (data old.2) = Fs.elsewhere (data new.2) /\
    Fs.backup_dir (data old.2) = Fs.backup_dir (data w).
Proof.
  intros d now body orc w Hsame old new. subst old new.
  rewrite FsRoutes.legacy_post_doc_run, FsRoutes.fs_post_doc_run.
  destruct (FsFacts.fs_createBackup_frame now orc w) as (cs & dir & -> & _).
  cbn [snd calls data].
  rewrite (Hsame (length cs) (length (calls w))).
  destruct (orc _ _); cbn; [done|]. by destruct d.
Qed.

Lemma legacy_copy_agrees_witness :
  (Legacy.post_doc Fs.Settings settings1 no_faults fs_world).1
  = (Fs.post_doc Fs.Settings 1710000000000 settings1 no_faults fs_world).1.
Proof.
  apply (legacy_copy_agrees Fs.Settings 1710000000000 settings1 no_faults fs_world).
  reflexivity.
Defined.

(** ** Reading *)


(** ** The feed *)

(** When the read of the feed throws, the routes that change the feed go
    on as if it were empty and write that back: an insert answers ok and
    leaves a feed of the new record alone, a delete answers ok and leaves an
    empty feed.  The records that were there are lost (the photos stay). *)
Theorem failed_feed_read_empties_feed :
  (forall e body file (orc : Mongo.oracle) (w : Mongo.world),
      orc (length (calls w)) (Mongo.StoreFindOne "updates") = true ->
      (forall n, orc n (Mongo.StoreUpdateOne "updates") = false) ->
      let u := new_update e body ((fun f => "/uploads/" +:+ f) <$> file) in
      let r := Mongo.post_update e body file orc w in
      r.1 = Ret (Ok u) /\ Mongo.feed (data r.2) = Some [u])
  /\
  (forall x (orc : Mongo.oracle) (w : Mongo.world),
      orc (length (calls w)) (Mongo.StoreFindOne "updates") = true ->
      (forall n, orc n (Mongo.StoreUpdateOne "updates") = false) ->
      let r := Mongo.delete_update x orc w in
      r.1 = Ret (Ok tt) /\ Mongo.feed (data r.2) = Some [] /\
      Mongo.photos (data r.2) = Mongo.photos (data w) /\
      Mongo.uploads (data r.2) = Mongo.uploads (data w))
  /\
  (forall e body file (orc : Fs.oracle) (w : Fs.world),
      is_Some (Fs.updates_file (data w)) ->
      orc (S (length (calls w))) (Fs.ReadFileSync Fs.UPDATES_FILE) = true ->
      (forall n, orc n (Fs.WriteFileSync Fs.UPDATES_FILE) = false) ->
      let u := new_update e body ((fun f => "/uploads/" +:+ f) <$> file) in
      let r := Fs.post_update e body file orc w in
      r.1 = Ret (Ok u) /\ Fs.updates_file (data r.2) = Some [u])
  /\
  (forall x (orc : Fs.oracle) (w : Fs.world),
      is_Some (Fs.updates_file (data w)) ->
      orc (S (length (calls w))) (Fs.ReadFileSync Fs.UPDATES_FILE) = true ->
      (forall n, orc n (Fs.WriteFileSync Fs.UPDATES_FILE) = false) ->
      let r := Fs.delete_update x orc w in
      r.1 = Ret (Ok tt) /\ Fs.updates_file (data r.2) = Some [] /\
      Fs.uploads_dir (data r.2) = Fs.uploads_dir (data w)).
Proof.
  split; [|split; [|split]].
  - apply MongoRoutes.mongo_post_update_read_fails.
  - apply MongoRoutes.mongo_delete_update_read_fails.
  - apply FsRoutes.fs_post_update_read_fails.
  - apply FsRoutes.fs_delete_update_read_fails.
Qed.

(** At the sample states, which hold two records: after the insert the
    feed holds one. *)
Lemma failed_feed_read_empties_feed_witness :
  Mongo.feed (data (Mongo.post_update request_env [("staff", "Asha")] None
                      mongo_feed_unreadable mongo_world).2)
  = Some [new_update request_env [("staff", "Asha")] None]
  /\ Fs.updates_file (data (Fs.post_update request_env [("staff", "Asha")] None
                              fs_feed_unreadable fs_world).2)
     = Some [new_update request_env [("staff", "Asha")] None].
Proof.
  destruct failed_feed_read_empties_feed as (Hm & _ & Hf & _). split.
  - apply (Hm request_env [("staff", "Asha")] None mongo_feed_unreadable mongo_world);
      reflexivity.
  - apply (Hf request_env [("staff", "Asha")] None fs_feed_unreadable fs_world);
      [by eexists|reflexivity|reflexivity].
Defined.



(** The ids of two updates made at different milliseconds are different,
    whatever [Math.random] gives, as long as both times have base-36
    numerals of eight digits (from June 1972 to May 2059). *)
Theorem update_ids_differ :
  forall e1 e2,
    eight_digits (now_ms e1) -> eight_digits (now_ms e2) ->
    now_ms e1 <> now_ms e2 -> new_id e1 <> new_id e2.
Proof. intros e1 e2 H1 H2 Hne Heq. by apply Hne, new_id_inj. Qed.

Lemma update_ids_differ_witness :
  new_id (Env 1710003600000 "0.f4k2p9x1c" 0) <> new_id (Env 1710003600001 "0.f4k2p9x1c" 0).
Proof.
  apply update_ids_differ; cbn [now_ms]; unfold eight_digits; lia.
Defined.

(** ** Photos *)

(** Whatever name the client gives the photo, the name multer stores it
    under is one path component: no slash in it, and not empty, [.] or
    [..].  So the file is an entry of the uploads directory, and the
    reference [/uploads/<name>] that the insert writes resolves, in the
    delete, to that entry.  The name ends with the extension of the
    original name, or with [.jpg] when that has none. *)
Theorem upload_names_are_plain :
  forall e originalname,
    has_slash (random36 e) = false ->
    let name := upload_filename e originalname in
    plain_name name = true /\
    Fs.join Fs.UPLOADS_DIR name = Fs.UPLOADS_DIR ++ [name] /\
    Fs.join Fs.DATA_DIR ("/uploads/" +:+ name) = Fs.UPLOADS_DIR ++ [name] /\
    remove_first "/uploads/" ("/uploads/" +:+ name) = name /\
    has_slash (extname originalname) = false /\
    endsWith name (if String.eqb (extname originalname) "" then ".jpg"
                   else extname originalname) = true.
Proof.
  intros e originalname Hrandom name.
  pose proof (upload_filename_plain e originalname Hrandom) as Hplain. fold name in Hplain.
  repeat split; try done.
  - by apply PathFacts.join_plain.
  - by apply PathFacts.join_upload.
  - apply remove_first_prefix.
  - apply has_slash_extname.
  - subst name. unfold upload_filename. cbv zeta.
    rewrite <- !append_assoc. apply endsWith_app.
Qed.

(** A photo that the client calls [../../data/settings.json]. *)
Lemma upload_names_are_plain_witness :
  upload_filename request_env "../../data/settings.json" = "1710003600000-f4k2p9.json"
  /\ plain_name (upload_filename request_env "../../data/settings.json") = true.
Proof.
  split; [reflexivity|].
  apply (upload_names_are_plain request_env "../../data/settings.json"). reflexivity.
Defined.

(** MongoDB variant: a photo that came with an insert is served from GridFS
    when the uploads directory no longer has it (after a redeploy, say),
    with the bytes multer had stored; while the local file is there, that is
    what is served.  No call fails. *)
Theorem photo_survives_in_gridfs :
  forall e body f bytes (w : Mongo.world),
    Mongo.uploads (data w) !! f = Some bytes ->
    let w1 := (Mongo.post_update e body (Some f) no_faults w).2 in
    forall w2 : Mongo.world,
      Mongo.photos (data w2) = Mongo.photos (data w1) ->
      (Mongo.get_upload f no_faults w2).1
      = Ret (Ok (default bytes (Mongo.uploads (data w2) !! f))).
Proof.
  intros e body f bytes w Hbytes w1 w2 Hphotos.
  rewrite MongoRoutes.mongo_get_upload_no_faults, Hphotos.
  destruct (Mongo.uploads (data w2) !! f); [done|].
  subst w1. rewrite MongoRoutes.mongo_post_update_photos, Hbytes.
  rewrite filter_app, filter_cons_True, filter_nil by done. by rewrite last_snoc.
Qed.

Lemma photo_survives_in_gridfs_witness :
  (Mongo.get_upload photo1 no_faults
     (redeployed (Mongo.post_update request_env [] (Some photo1) no_faults mongo_world).2)).1
  = Ret (Ok "JFIF").
Proof.
  apply (photo_survives_in_gridfs request_env [] photo1 "JFIF" mongo_world); reflexivity.
Defined.

(** ** What a route leaves alone *)

(** Each writing route keeps to its own data, whatever fails in it.  A
    write or a restore of a document leaves the feed and the photos as they
    are; an insert or a delete of an update leaves the documents and the
    backups as they are.  In the file variant the delete unlinks the path
    that the record's photo reference joins to, so this holds for feeds
    whose references are uploads ([feed_refs]), as the insert writes them. *)
Theorem routes_keep_to_their_data :
  (forall key now body (orc : Mongo.oracle) (w : Mongo.world),
      let s' := data (Mongo.post_doc key now body orc w).2 in
      Mongo.feed s' = Mongo.feed (data w) /\ Mongo.photos s' = Mongo.photos (data w) /\
      Mongo.uploads s' = Mongo.uploads (data w))
  /\
  (forall fn (orc : Mongo.oracle) (w : Mongo.world),
      let s' := data (Mongo.post_restore fn orc w).2 in
      Mongo.feed s' = Mongo.feed (data w) /\ Mongo.photos s' = Mongo.photos (data w) /\
      Mongo.uploads s' = Mongo.uploads (data w))
  /\
  (forall e body file (orc : Mongo.oracle) (w : Mongo.world),
      let s' := data (Mongo.post_update e body file orc w).2 in
      Mongo.store s' = Mongo.store (data w) /\ Mongo.backups s' = Mongo.backups (data w) /\
      Mongo.uploads s' = Mongo.uploads (data w))
  /\
  (forall x (orc : Mongo.oracle) (w : Mongo.world),
      let s' := data (Mongo.delete_update x orc w).2 in
      Mongo.store s' = Mongo.store (data w) /\ Mongo.backups s' = Mongo.backups (data w))
  /\
  (forall d now body (orc : Fs.oracle) (w : Fs.world),
      let s' := data (Fs.post_doc d now body orc w).2 in
      Fs.updates_file s' = Fs.updates_file (data w) /\
      Fs.uploads_dir s' = Fs.uploads_dir (data w) /\
      Fs.elsewhere s' = Fs.elsewhere (data w))
  /\
  (forall fn (orc : Fs.oracle) (w : Fs.world),
      let s' := data (Fs.post_restore fn orc w).2 in
      Fs.updates_file s' = Fs.updates_file (data w) /\
      Fs.uploads_dir s' = Fs.uploads_dir (data w) /\
      Fs.elsewhere s' = Fs.elsewhere (data w))
  /\
  (forall e body file (orc : Fs.oracle) (w : Fs.world),
      let s' := data (Fs.post_update e body file orc w).2 in
      Fs.settings_file s' = Fs.settings_file (data w) /\
      Fs.appdata_file s' = Fs.appdata_file (data w) /\
      Fs.backup_dir s' = Fs.backup_dir (data w) /\
      Fs.uploads_dir s' = Fs.uploads_dir (data w) /\
      Fs.elsewhere s' = Fs.elsewhere (data w))
  /\
  (forall x (orc : Fs.oracle) (w : Fs.world),
      feed_refs (default [] (Fs.updates_file (data w))) ->
      let s' := data (Fs.delete_update x orc w).2 in
      Fs.settings_file s' = Fs.settings_file (data w) /\
      Fs.appdata_file s' = Fs.appdata_file (data w) /\
      Fs.backup_dir s' = Fs.backup_dir (data w) /\
      Fs.elsewhere s' = Fs.elsewhere (data w)).
Proof.
  split; [|split; [|split; [|split; [|split; [|split; [|split]]]]]].
  - intros key now body orc w.
    destruct (MongoRoutes.mongo_post_doc_frame key now body orc w) as (? & ? & ? & _). done.
  - intros fn orc w. destruct (MongoFacts.mongo_restore_frame fn orc w) as (_ & ? & ? & ?). done.
  - intros e body file orc w.
    destruct (MongoRoutes.mongo_post_update_frame e body file orc w) as (? & ? & ? & _). done.
  - intros x orc w.
    destruct (MongoRoutes.mongo_delete_update_frame x orc w) as (? & ? & _). done.
  - intros d now body orc w. cbn zeta. rewrite FsRoutes.fs_post_doc_run.
    destruct (FsFacts.fs_createBackup_frame now orc w) as (cs & dir & -> & _).
    destruct (orc _ _); [done|]. by destruct d.
  - intros fn orc w. destruct (FsFacts.fs_restore_frame fn orc w) as (_ & ? & ? & ?). done.
  - intros e body file orc w.
    destruct (FsRoutes.fs_post_update_any e body file orc w) as (r & cs & fd & -> & _). done.
  - intros x orc w Hrefs.
    destruct (FsRoutes.fs_delete_update_any x orc w Hrefs) as (r & cs & fd & ups & -> & _). done.
Qed.

(** The delete of the first sample record, with the unlink throwing. *)
Lemma routes_keep_to_their_data_witness :
  Fs.settings_file (data (Fs.delete_update (u_id update1) fs_unlink_fails fs_world).2)
  = Some settings2.
Proof.
  destruct routes_keep_to_their_data as (_ & _ & _ & _ & _ & _ & _ & Hf).
  destruct (Hf (u_id update1) fs_unlink_fails fs_world) as (-> & _); [|reflexivity].
  intros u photo Hu Hphoto.
  apply elem_of_cons in Hu as [->|Hu].
  - injection Hphoto as <-. exists photo1. by split.
  - apply elem_of_cons in Hu as [->|Hu]; [discriminate|]. by apply elem_of_nil in Hu.
Defined.

(** ** Any sequence of requests *)



(** MongoDB variant.  From a sound database, any sequence of requests, with
    any storage calls failing, leaves a sound database, and every document
    of the store that was there is still there: no request deletes one. *)
Theorem mongo_requests_keep_documents :
  forall rs (orc : Mongo.oracle) (w : Mongo.world),
    Forall MongoApp.valid rs -> MongoApp.sound (data w) ->
    let s' := data (MongoApp.run orc rs w) in
    MongoApp.sound s' /\
    forall k, is_Some (Mongo.store (data w) !! k) -> is_Some (Mongo.store s' !! k).
Proof.
  intros rs orc w Hvalid Hsound.
  destruct (MongoRoutes.mongo_run_keeps rs orc w Hvalid Hsound) as (Hs & Hsd). auto.
Qed.

Lemma mongo_requests_keep_documents_witness :
  MongoApp.sound (data (MongoApp.run mongo_gridfs_down mongo_requests mongo_fresh)).
Proof.
  apply (mongo_requests_keep_documents mongo_requests mongo_gridfs_down mongo_fresh).
  - repeat constructor.
  - split.
    + intros u photo Hu. by apply elem_of_nil in Hu.
    + intros b Hb. by apply elem_of_nil in Hb.
Defined.

(** ** Runs of writes *)

(** The file variant after a run of document writes, no call failing.  The
    writes come at increasing times of the years 0 to 9999, each with a
    truthy body; the backup directory holds at most [MAX_BACKUPS] backup
    files at the start, with names that sort before the names of the run.
    Then [GET /api/backups] lists, newest first, the last [MAX_BACKUPS] of
    the files of the start followed by one file for each write, in the
    order of the writes: the rotation, which goes by file names, evicts
    the backups that are oldest in time, and for each write whose backup is
    listed the listing has the name made from its time.  When no document
    is there at the start, the first write makes no backup. *)
Theorem fs_listing_after_writes ws (w : Fs.world) :
  (length (Fs.backup_names (Fs.backup_dir (data w))) <= MAX_BACKUPS)%nat ->
  Forall (fun x : Fs.write => in_years x.1.2 /\ truthy x.2 = true) ws ->
  StronglySorted Z.lt (fs_times ws) ->
  Forall (fun f => Forall (fun t => String.compare f (backup_filename t) = Lt) (fs_times ws))
         (Fs.backup_names (Fs.backup_dir (data w))) ->
  let ts := if Fs.triggers (data w) then fs_times ws else tail (fs_times ws) in
  (Fs.get_backups no_faults (Fs.run_writes no_faults ws w)).1
  = Ret (Ok (rev (newest (Fs.backup_names (Fs.backup_dir (data w))
                          ++ (backup_filename <$> ts))))).
Proof.
  intros Hlen Hws Hsorted Hfirst. cbn zeta.
  rewrite FsFacts.fs_get_backups_no_faults. cbn [fst]. do 3 f_equal.
  destruct (Fs.triggers (data w)) eqn:Ht.
  { by apply FsRuns.fs_run_writes_names. }
  destruct ws as [|[[d now] body] ws].
  { cbn. by rewrite app_nil_r, newest_short. }
  apply Forall_cons in Hws as [[_ Hbody] Hws]. cbn in Hbody.
  cbn in Hsorted. apply StronglySorted_inv in Hsorted as [Hsorted _].
  cbn [Fs.run_writes fs_times fmap list_fmap tail].
  pose proof (FsRuns.fs_post_doc_triggers d now body w Hbody) as Ht1.
  destruct (FsRoutes.fs_post_doc_no_faults d now body w) as [cs E].
  rewrite Ht in E. rewrite E in Ht1 |- *. cbn [snd] in *.
  assert (Fs.backup_dir (Fs.stored d body (data w)) = Fs.backup_dir (data w)) as Edir
    by (by destruct d).
  destruct (FsRuns.fs_run_writes_names ws (World cs (Fs.stored d body (data w)))) as [_ ->];
    cbn [data]; rewrite ?Edir; try done.
  eapply Forall_impl; [exact Hfirst|]. cbn. by intros f [_ Hf]%Forall_cons.
Qed.

Lemma fs_listing_after_writes_witness :
  (Fs.get_backups no_faults (Fs.run_writes no_faults (fs_writes 3 1710000000000) fs_world)).1
  = Ret (Ok [backup_filename 1710000002000; backup_filename 1710000001000;
             backup_filename 1710000000000; backup_filename 1709990000000]).
Proof.
  apply (fs_listing_after_writes (fs_writes 3 1710000000000) fs_world).
  - vm_compute. lia.
  - repeat constructor; unfold in_years; cbn; lia.
  - repeat constructor; cbn; lia.
  - change (Fs.backup_names (Fs.backup_dir (data fs_world)))
      with (Fs.backup_names (<[backup_filename 1709990000000 := Fs.backup_json settings1 JNull]> ∅)).
    replace (Fs.backup_names _) with [backup_filename 1709990000000]
      by (vm_compute; reflexivity).
    change (fs_times (fs_writes 3 1710000000000))
      with [1710000000000; 1710000001000; 1710000002000].
    constructor; [|constructor].
    constructor; [vm_compute; reflexivity|].
    constructor; [vm_compute; reflexivity|].
    constructor; [vm_compute; reflexivity|]. constructor.
Defined.

(** The MongoDB variant after a run of document writes, no call failing.
    The writes are of the settings and the appdata document, each with a
    truthy body, at increasing times later than the backups of the start,
    which are at most [MAX_BACKUPS], in the order of their [created] and
    with unique [_id]s.  Then [GET /api/backups] lists, newest first, the
    last [MAX_BACKUPS] of the backups of the start followed by one backup
    for each write, with the file name and the date made from the time of
    the write.  When no document is there at the start, the first write
    makes no backup. *)
Theorem mongo_listing_after_writes ws (w : Mongo.world) :
  NoDup (Mongo.b_id <$> Mongo.backups (data w)) ->
  (length (Mongo.backups (data w)) <= MAX_BACKUPS)%nat ->
  Forall (fun x : Mongo.write =>
            (x.1.1 = "settings" \/ x.1.1 = "appdata") /\ truthy x.2 = true) ws ->
  StronglySorted Z.lt ((Mongo.b_created <$> Mongo.backups (data w)) ++ mongo_times ws) ->
  let ts := if Mongo.triggers (data w) then mongo_times ws else tail (mongo_times ws) in
  (Mongo.get_backups no_faults (Mongo.run_writes no_faults ws w)).1
  = Ret (Ok (rev (newest ((Mongo.summary <$> Mongo.backups (data w))
                          ++ ((fun t => (backup_filename t, toISOString t)) <$> ts))))).
Proof.
  intros Hnd Hlen Hws Hsorted. cbn zeta.
  rewrite MongoFacts.mongo_get_backups_no_faults. cbn [fst]. do 2 f_equal.
  set (label := fun m : string * Z => (m.1, toISOString m.2)).
  assert (forall ws' (w' : Mongo.world),
    Mongo.triggers (data w') = true ->
    NoDup (Mongo.b_id <$> Mongo.backups (data w')) ->
    (length (Mongo.backups (data w')) <= MAX_BACKUPS)%nat ->
    Forall (fun x : Mongo.write =>
              (x.1.1 = "settings" \/ x.1.1 = "appdata") /\ truthy x.2 = true) ws' ->
    StronglySorted Z.lt ((Mongo.b_created <$> Mongo.backups (data w')) ++ mongo_times ws') ->
    Mongo.summary <$> merge_sort Mongo.newer (Mongo.backups (data (Mongo.run_writes no_faults ws' w')))
    = rev (newest ((Mongo.summary <$> Mongo.backups (data w'))
                   ++ ((fun t => (backup_filename t, toISOString t)) <$> mongo_times ws'))))
    as Hrun.
  { intros ws' w' Ht' Hnd' Hlen' Hws' Hsorted'.
    destruct (MongoRuns.mongo_run_writes_backups ws' w') as (_ & _ & Hmeta); [done..|].
    rewrite MongoRuns.sort_newer_created.
    - rewrite fmap_rev. f_equal.
      change Mongo.summary with (label ∘ meta).
      rewrite !list_fmap_compose, Hmeta, <- newest_fmap, fmap_app. do 2 f_equal.
      by rewrite <- list_fmap_compose.
    - rewrite MongoRuns.created_meta, Hmeta, <- newest_fmap, fmap_app.
      rewrite <- MongoRuns.created_meta, <- list_fmap_compose.
      change (snd ∘ made) with (@id Z). rewrite list_fmap_id.
      by apply StronglySorted_drop. }
  destruct (Mongo.triggers (data w)) eqn:Ht; [by apply Hrun|].
  destruct ws as [|[[key now] body] ws].
  { cbn. rewrite app_nil_r, newest_short by (by rewrite length_fmap).
    rewrite MongoRuns.sort_newer_created by (by rewrite app_nil_r in Hsorted).
    by rewrite fmap_rev. }
  apply Forall_cons in Hws as [[Hkey Hbody] Hws]. cbn in Hkey, Hbody.
  cbn [Mongo.run_writes mongo_times fmap list_fmap tail].
  pose proof (MongoRuns.mongo_post_doc_triggers key now body w Hkey Hbody) as Ht1.
  destruct (MongoRoutes.mongo_post_doc_no_faults key now body w) as [cs E].
  rewrite Ht in E. rewrite E in Ht1 |- *. cbn [snd] in *.
  assert (Mongo.backups (Mongo.set_store (insert key body) (data w)) = Mongo.backups (data w))
    as Ebs by (by destruct (data w)).
  rewrite Hrun; cbn [data]; rewrite ?Ebs; try done.
  eapply sublist_StronglySorted; [|exact Hsorted].
  apply sublist_app; [done|]. cbn. by apply sublist_cons.
Qed.

Lemma mongo_listing_after_writes_witness :
  (Mongo.get_backups no_faults
     (Mongo.run_writes no_faults (mongo_writes 3 1710000000000) mongo_world)).1
  = Ret (Ok [(backup_filename 1710000002000, toISOString 1710000002000);
             (backup_filename 1710000001000, toISOString 1710000001000);
             (backup_filename 1710000000000, toISOString 1710000000000);
             (backup_filename 1709990000000, toISOString 1709990000000)]).
Proof.
  apply (mongo_listing_after_writes (mongo_writes 3 1710000000000) mongo_world).
  - vm_compute. apply NoDup_singleton.
  - vm_compute. lia.
  - repeat constructor; cbn; auto.
  - repeat constructor; cbn; lia.
Defined.
